(** * Face-hash examples of face-api.js: digests, comparator and record stores

    A shallow embedding of
      - examples/examples-nodejs/faceHash.ts            (FaceHashGenerator)
      - examples/examples-nodejs/faceValidationSystem.js (FaceDatabase,
        FaceValidationSystem, and the MongoDB variant that follows it)
    together with the properties the specification states about them.

    Conventions.
      - A JavaScript Number is [number]: NaN, the two infinities, or a finite
        value held as an exact rational.  Quotients and products are rounded
        to binary64 by [fl], so the values are the ones the engine computes.
        The sign of zero is not tracked: no operation of this program
        observes it.
      - A JavaScript string is a [string]; every string on the data path of
        this program (decimal, hexadecimal and base64 text) is ASCII, so a
        character is one UTF-16 code unit.
      - [new Map()] is an association list in insertion order.
      - [new Date()] reads a clock: the world carries the number of readings
        made so far.  Console output is not part of the model.
      - The digest generator is given twice: as functions of the elements
        of the descriptor ([FaceHashGenerator]), and statement by statement
        on the objects it reads and creates ([Objects],
        [FaceHashGeneratorCalls]); the second is proved to compute the
        first. *)

From Stdlib Require Import ZArith QArith Qabs Qround Bool List String Ascii Lia.
Import ListNotations.

Local Open Scope Z_scope.

(* ================================================================== *)
(** ** JavaScript Numbers *)
(* ================================================================== *)

Module Num.

Inductive number : Type :=
| NaN
| PInf
| NInf
| Fin (q : Q).

(** Quotient [n / d] rounded to the nearest integer, ties to even
    ([0 <= n], [0 < d]). *)
Definition round_half_even (n d : Z) : Z :=
  let q := n / d in
  let r := n mod d in
  if 2 * r <? d then q
  else if d <? 2 * r then q + 1
  else if Z.even q then q else q + 1.

(** [floor (log2 (a / b))] for positive [a] and [b]. *)
Definition floor_log2_ratio (a b : Z) : Z :=
  let e0 := Z.log2 a - Z.log2 b in
  if a * 2 ^ Z.max 0 (- e0) <? b * 2 ^ Z.max 0 e0 then e0 - 1 else e0.

(** [2 ^ k] as a rational, for any integer [k]. *)
Definition Qpow2 (k : Z) : Q :=
  if 0 <=? k then inject_Z (2 ^ k) else 1 # Z.to_pos (2 ^ (- k)).

(** The binary64 value nearest to [a / b] (positive [a], [b]): a 53-bit
    significand [m] scaled by [2 ^ (e - 52)], round to nearest, ties to
    even.  Exponent range is not bounded: the quotients and products this
    program forms stay far inside the normal range. *)
Definition round64 (a b : Z) : Q :=
  let e := floor_log2_ratio a b in
  let k := 52 - e in
  let m := round_half_even (a * 2 ^ Z.max 0 k) (b * 2 ^ Z.max 0 (- k)) in
  Qred (inject_Z m * Qpow2 (- k)).

(** Rounding of an exact rational result to binary64. *)
Definition fl (q : Q) : Q :=
  let r := Qred q in
  match Qnum r with
  | Z0 => 0%Q
  | Zpos n => round64 (Zpos n) (Zpos (Qden r))
  | Zneg n => Qopp (round64 (Zpos n) (Zpos (Qden r)))
  end.

Definition of_Z (z : Z) : number := Fin (inject_Z z).
Definition of_nat (n : nat) : number := of_Z (Z.of_nat n).

(** [x / y]. *)
Definition div (x y : number) : number :=
  match x, y with
  | Fin a, Fin b =>
      if Qeq_bool b 0
      then (if Qeq_bool a 0 then NaN else if Qle_bool 0 a then PInf else NInf)
      else Fin (fl (a / b))
  | Fin _, (PInf | NInf) => Fin 0
  | PInf, Fin b => if Qle_bool 0 b then PInf else NInf
  | NInf, Fin b => if Qle_bool 0 b then NInf else PInf
  | _, _ => NaN
  end.

(** [x * y]. *)
Definition mul (x y : number) : number :=
  match x, y with
  | Fin a, Fin b => Fin (fl (a * b))
  | NaN, _ | _, NaN => NaN
  | Fin a, PInf | PInf, Fin a =>
      if Qeq_bool a 0 then NaN else if Qle_bool 0 a then PInf else NInf
  | Fin a, NInf | NInf, Fin a =>
      if Qeq_bool a 0 then NaN else if Qle_bool 0 a then NInf else PInf
  | PInf, PInf | NInf, NInf => PInf
  | PInf, NInf | NInf, PInf => NInf
  end.

(** [Math.abs(x)]. *)
Definition abs (x : number) : number :=
  match x with
  | NaN => NaN
  | PInf | NInf => PInf
  | Fin a => Fin (Qred (Qabs a))
  end.

(** Integer part, rounding toward zero. *)
Definition Qtrunc (q : Q) : Z := Z.quot (Qnum q) (Zpos (Qden q)).

(** [x % y]: the remainder has the sign of the dividend and is exact. *)
Definition rem (x y : number) : number :=
  match x, y with
  | Fin a, Fin b =>
      if Qeq_bool b 0 then NaN
      else Fin (Qred (a - b * inject_Z (Qtrunc (a / b))))
  | Fin a, (PInf | NInf) => Fin a
  | _, _ => NaN
  end.

(** [x >= y]: false as soon as one side is NaN. *)
Definition ge (x y : number) : bool :=
  match x, y with
  | NaN, _ | _, NaN => false
  | PInf, _ => true
  | _, NInf => true
  | NInf, _ => false
  | _, PInf => false
  | Fin a, Fin b => Qle_bool b a
  end.

(** [x > y]. *)
Definition gt (x y : number) : bool :=
  match x, y with
  | NaN, _ | _, NaN => false
  | _, PInf => false
  | NInf, _ => false
  | PInf, _ => true
  | _, NInf => true
  | Fin a, Fin b => negb (Qle_bool a b)
  end.

(** ToBoolean on a Number: [0] and [NaN] are falsy. *)
Definition truthy (x : number) : bool :=
  match x with
  | NaN => false
  | Fin a => negb (Qeq_bool a 0)
  | _ => true
  end.

(** A finite value between 0 and 1, bounds included. *)
Definition unit_fraction (x : number) : Prop :=
  match x with
  | Fin a => (0 <= a <= 1)%Q
  | _ => False
  end.

End Num.

Import Num.

(** The 32-bit integer operators, on Numbers that hold integers. *)
Module Int32.

(** ToInt32: wrap into [-2^31 .. 2^31 - 1]. *)
Definition to_int32 (z : Z) : Z := (z + 2 ^ 31) mod 2 ^ 32 - 2 ^ 31.

(** [x << n]. *)
Definition shl (x n : Z) : Z := to_int32 (to_int32 x * 2 ^ (n mod 32)).

(** [x & y]. *)
Definition band (x y : Z) : Z := to_int32 (Z.land (to_int32 x) (to_int32 y)).

End Int32.

(* ================================================================== *)
(** ** JavaScript strings *)
(* ================================================================== *)

Module Str.

Local Open Scope string_scope.
Local Open Scope Z_scope.

(** [s[i]]: [undefined] past the end. *)
Definition charAt (s : string) (i : nat) : option ascii := String.get i s.

(** [a === b] on two results of indexing. *)
Definition strict_eq (a b : option ascii) : bool :=
  match a, b with
  | Some x, Some y => Ascii.eqb x y
  | None, None => true
  | _, _ => false
  end.

(** [s.charCodeAt(i)] for the characters of a string, in order. *)
Definition charCodes (s : string) : list Z :=
  List.map (fun c => Z.of_nat (nat_of_ascii c)) (list_ascii_of_string s).

Fixpoint repeat_char (c : ascii) (n : nat) : string :=
  match n with
  | O => EmptyString
  | S k => String c (repeat_char c k)
  end.

(** [s.padStart(target, c)] with a one-character filler. *)
Definition padStart (s : string) (target : nat) (c : ascii) : string :=
  repeat_char c (target - String.length s) ++ s.

Fixpoint take (n : nat) (s : string) : string :=
  match n, s with
  | S k, String c r => String c (take k r)
  | _, _ => EmptyString
  end.

(** ToIntegerOrInfinity followed by the clamp to [0 .. len] that
    [substring] applies to each index. *)
Definition clamp_index (e : number) (len : nat) : nat :=
  match e with
  | NaN | NInf => O
  | PInf => len
  | Fin q => Z.to_nat (Z.max 0 (Z.min (Qtrunc q) (Z.of_nat len)))
  end.

(** [s.substring(0, e)]. *)
Definition substring0 (s : string) (e : number) : string :=
  take (clamp_index e (String.length s)) s.

(** [parts.join(sep)]. *)
Definition join (sep : string) (parts : list string) : string :=
  String.concat sep parts.

(** Digit of a radix up to 16, lower case. *)
Definition digit_char (d : Z) : ascii :=
  if d <? 10 then ascii_of_nat (Z.to_nat (48 + d))
  else ascii_of_nat (Z.to_nat (87 + d)).

(** Digits of a non-negative integer, most significant first. *)
Fixpoint radix_digits (fuel : nat) (radix n : Z) (acc : string) : string :=
  match fuel with
  | O => acc
  | S f =>
      let acc' := String (digit_char (n mod radix)) acc in
      if n / radix =? 0 then acc' else radix_digits f radix (n / radix) acc'
  end.

Definition int_to_radix (radix n : Z) : string :=
  radix_digits (S (Z.to_nat (Z.log2 n))) radix n EmptyString.

(** Digits after the point of [0 <= f < 1], until the expansion ends. *)
Fixpoint frac_digits (fuel : nat) (radix : Z) (f : Q) : string :=
  match fuel with
  | O => EmptyString
  | S k =>
      if Qeq_bool f 0 then EmptyString
      else
        let g := Qred (f * inject_Z radix) in
        let d := Qfloor g in
        String (digit_char d) (frac_digits k radix (g - inject_Z d))
  end.

(** [x.toString(16)].  The integer part is converted exactly.  The
    fraction of a binary64 value has a finite expansion in base 16, which
    is what the engine prints. *)
Definition toString16 (x : number) : string :=
  match x with
  | NaN => "NaN"
  | PInf => "Infinity"
  | NInf => "-Infinity"
  | Fin q =>
      let a := Qabs q in
      let i := Qfloor a in
      let f := Qred (a - inject_Z i) in
      (if Qle_bool 0 q then "" else "-")
        ++ int_to_radix 16 i
        ++ (if Qeq_bool f 0 then "" else "." ++ frac_digits 1100 16 f)
  end.

(** *** Number::toString, radix 10 (ECMA-262, 6.1.6.1.20) *)

Fixpoint log10_up (fuel : nat) (x : Q) (p : Z) : Z :=
  match fuel with
  | O => p
  | S f => if Qle_bool 10 x then log10_up f (Qred (x / 10)) (p + 1) else p
  end.

Fixpoint log10_down (fuel : nat) (x : Q) (p : Z) : Z :=
  match fuel with
  | O => p
  | S f => if Qle_bool 1 x then p else log10_down f (Qred (x * 10)) (p - 1)
  end.

(** [floor (log10 x)] for [0 < x]. *)
Definition floor_log10 (x : Q) : Z :=
  if Qle_bool 1 x then log10_up 400 x 0 else log10_down 400 x 0.

(** [10 ^ k] as a rational, for any integer [k]. *)
Definition Qpow10 (k : Z) : Q :=
  if 0 <=? k then inject_Z (10 ^ k) else 1 # Z.to_pos (10 ^ (- k)).

(** A candidate [(s, n)] stands for [s * 10 ^ (n - k)]; it is admissible
    when that value rounds to [x]. *)
Definition rounds_to (x : Q) (k : Z) (c : Z * Z) : bool :=
  Qeq_bool (fl (inject_Z (fst c) * Qpow10 (snd c - k))) x.

Definition distance (x : Q) (k : Z) (c : Z * Z) : Q :=
  Qabs (inject_Z (fst c) * Qpow10 (snd c - k) - x).

(** The shortest digit string: [k] as small as possible, and among the
    admissible [s] the one closest to [x]. *)
Fixpoint shortest (fuel : nat) (x : Q) (p k : Z) : Z * Z * Z :=
  let n := p + 1 in
  let lo := (Qfloor (x * Qpow10 (k - n)), n) in
  let hi := if fst lo + 1 =? 10 ^ k then (10 ^ (k - 1), n + 1)
            else (fst lo + 1, n) in
  let pick c := (fst c, snd c, k) in
  match fuel with
  | O => pick lo
  | S f =>
      match rounds_to x k lo, rounds_to x k hi with
      | true, true =>
          if Qle_bool (distance x k hi) (distance x k lo)
          then (if Qeq_bool (distance x k hi) (distance x k lo)
                then (if Z.even (fst lo) then pick lo else pick hi)
                else pick hi)
          else pick lo
      | true, false => pick lo
      | false, true => pick hi
      | false, false => shortest f x p (k + 1)
      end
  end.

Definition zeros (n : Z) : string := repeat_char "0"%char (Z.to_nat n).

Fixpoint drop (n : nat) (s : string) : string :=
  match n, s with
  | S k, String _ r => drop k r
  | _, _ => s
  end.

(** Layout of the digits [s] (there are [k] of them) with exponent [n]. *)
Definition layout (s n k : Z) : string :=
  let ds := int_to_radix 10 s in
  if (-6 <? n) && (n <=? 21) then
    if k <=? n then ds ++ zeros (n - k)
    else if 0 <? n then take (Z.to_nat n) ds ++ "." ++ drop (Z.to_nat n) ds
    else "0." ++ zeros (- n) ++ ds
  else
    let e := (if 0 <=? n - 1 then "+" else "-")
               ++ int_to_radix 10 (Z.abs (n - 1)) in
    if k =? 1 then ds ++ "e" ++ e
    else take 1 ds ++ "." ++ drop 1 ds ++ "e" ++ e.

(** [String(x)], which is what [Array.prototype.join] applies to each
    element. *)
Definition toString10 (x : number) : string :=
  match x with
  | NaN => "NaN"
  | PInf => "Infinity"
  | NInf => "-Infinity"
  | Fin q =>
      if Qeq_bool q 0 then "0"
      else
        let a := Qred (Qabs q) in
        let '(s, n, k) := shortest 17 a (floor_log10 a) 1 in
        (if Qle_bool 0 q then "" else "-") ++ layout s n k
  end.

(** The characters [0-9a-f]. *)
Definition is_hex_digit (c : ascii) : bool :=
  let n := nat_of_ascii c in
  ((48 <=? n) && (n <=? 57) || (97 <=? n) && (n <=? 102))%nat.

Fixpoint all_hex (s : string) : bool :=
  match s with
  | EmptyString => true
  | String c r => is_hex_digit c && all_hex r
  end.

End Str.

(* ================================================================== *)
(** ** Node.js library functions: [crypto] digests and [Buffer] *)
(* ================================================================== *)

Module Crypto.

Local Open Scope Z_scope.

Definition w32 (x : Z) : Z := x mod 2 ^ 32.
Definition add32 (x y : Z) : Z := w32 (x + y).
Definition not32 (x : Z) : Z := 2 ^ 32 - 1 - x.
Definition rotl32 (x n : Z) : Z :=
  w32 (Z.lor (Z.shiftl x n) (Z.shiftr x (32 - n))).
Definition rotr32 (x n : Z) : Z := rotl32 x (32 - n).

(** The octets of an ASCII string, which is its UTF-8 encoding. *)
Definition octets (s : string) : list Z :=
  List.map (fun c => Z.of_nat (nat_of_ascii c)) (list_ascii_of_string s).

Definition be_bytes (count : nat) (x : Z) : list Z :=
  List.map (fun i => Z.shiftr x (8 * Z.of_nat i) mod 256) (rev (seq 0 count)).
Definition le_bytes (count : nat) (x : Z) : list Z :=
  List.map (fun i => Z.shiftr x (8 * Z.of_nat i) mod 256) (seq 0 count).
Definition be_word (bs : list Z) : Z :=
  fold_left (fun acc b => acc * 256 + b) bs 0.
Definition le_word (bs : list Z) : Z := be_word (rev bs).

(** Consecutive groups of [size] elements. *)
Fixpoint chunks {A : Type} (fuel size : nat) (l : list A) : list (list A) :=
  match fuel, l with
  | O, _ | _, [] => []
  | S f, _ => firstn size l :: chunks f size (skipn size l)
  end.

(** Message, the octet [0x80], zero octets up to 56 modulo 64, then the
    length in bits on eight octets. *)
Definition pad (len_bytes : nat -> Z -> list Z) (msg : list Z) : list Z :=
  let n := Z.of_nat (List.length msg) in
  let z := Z.to_nat ((55 - n) mod 64) in
  (msg ++ 128 :: repeat 0 z ++ len_bytes 8%nat (8 * n))%list.

Definition hex_byte (b : Z) : string :=
  String (Str.digit_char (b / 16)) (String (Str.digit_char (b mod 16)) EmptyString).

Definition hex_of_octets (bs : list Z) : string :=
  String.concat EmptyString (List.map hex_byte bs).

(** *** SHA-256 (FIPS 180-4) *)

Definition primes64 : list Z :=
  [2; 3; 5; 7; 11; 13; 17; 19; 23; 29; 31; 37; 41; 43; 47; 53;
   59; 61; 67; 71; 73; 79; 83; 89; 97; 101; 103; 107; 109; 113; 127; 131;
   137; 139; 149; 151; 157; 163; 167; 173; 179; 181; 191; 193; 197; 199;
   211; 223; 227; 229; 233; 239; 241; 251; 257; 263; 269; 271; 277; 281;
   283; 293; 307; 311].

(** Integer cube root, one bit at a time from [2 ^ bits]. *)
Fixpoint cube_root (bits : nat) (n r : Z) : Z :=
  match bits with
  | O => r
  | S b =>
      let c := r + 2 ^ Z.of_nat b in
      cube_root b n (if c * c * c <=? n then c else r)
  end.

(** First thirty-two bits of the fractional parts of the square roots of
    the first eight primes. *)
Definition sha256_init : list Z :=
  Eval vm_compute in
    List.map (fun p => w32 (Z.sqrt (p * 2 ^ 64))) (firstn 8 primes64).

(** First thirty-two bits of the fractional parts of the cube roots of the
    first sixty-four primes. *)
Definition sha256_k : list Z :=
  Eval vm_compute in
    List.map (fun p => w32 (cube_root 40 (p * 2 ^ 96) 0)) primes64.

Definition ssig0 (x : Z) : Z :=
  Z.lxor (Z.lxor (rotr32 x 7) (rotr32 x 18)) (Z.shiftr x 3).
Definition ssig1 (x : Z) : Z :=
  Z.lxor (Z.lxor (rotr32 x 17) (rotr32 x 19)) (Z.shiftr x 10).
Definition bsig0 (x : Z) : Z :=
  Z.lxor (Z.lxor (rotr32 x 2) (rotr32 x 13)) (rotr32 x 22).
Definition bsig1 (x : Z) : Z :=
  Z.lxor (Z.lxor (rotr32 x 6) (rotr32 x 11)) (rotr32 x 25).
Definition ch (x y z : Z) : Z := Z.lxor (Z.land x y) (Z.land (not32 x) z).
Definition maj (x y z : Z) : Z :=
  Z.lxor (Z.lxor (Z.land x y) (Z.land x z)) (Z.land y z).

(** Message schedule, most recent word first. *)
Fixpoint schedule (count : nat) (w : list Z) : list Z :=
  match count with
  | O => w
  | S c =>
      let x := add32 (add32 (ssig1 (nth 1 w 0)) (nth 6 w 0))
                     (add32 (ssig0 (nth 14 w 0)) (nth 15 w 0)) in
      schedule c (x :: w)
  end.

Definition sha256_round (st : list Z) (kw : Z * Z) : list Z :=
  match st with
  | [a; b; c; d; e; f; g; h] =>
      let t1 := add32 (add32 (add32 h (bsig1 e)) (add32 (ch e f g) (fst kw)))
                      (snd kw) in
      let t2 := add32 (bsig0 a) (maj a b c) in
      [add32 t1 t2; a; b; c; add32 d t1; e; f; g]
  | _ => st
  end.

Definition sha256_block (h : list Z) (block : list Z) : list Z :=
  let w0 := List.map be_word (chunks 16 4 block) in
  let w := rev (schedule 48 (rev w0)) in
  let r := fold_left sha256_round (combine sha256_k w) h in
  List.map (fun p => add32 (fst p) (snd p)) (combine h r).

Definition sha256 (msg : list Z) : list Z :=
  let m := pad be_bytes msg in
  let blocks := chunks (List.length m) 64 m in
  flat_map (be_bytes 4) (fold_left sha256_block blocks sha256_init).

(** [crypto.createHash('sha256').update(s).digest('hex')]. *)
Definition sha256_hex (s : string) : string := hex_of_octets (sha256 (octets s)).

(** *** MD5 (RFC 1321) *)

(** [sin x] in fixed point with 200 fractional bits, by its power series. *)
Fixpoint sin_series (terms : nat) (x2 term k acc : Z) : Z :=
  match terms with
  | O => acc
  | S t =>
      let term' := - (term * x2) / ((2 * k) * (2 * k + 1)) in
      sin_series t x2 term' (k + 1) (acc + term')
  end.

Definition sin_fixed (x : Z) : Z :=
  sin_series 300 (x * x) (x * 2 ^ 200) 1 (x * 2 ^ 200).

(** [floor (2 ^ 32 * abs (sin (i + 1)))] for [i = 0 .. 63]. *)
Definition md5_k : list Z :=
  Eval vm_compute in
    List.map (fun i => Z.abs (sin_fixed (Z.of_nat i + 1)) / 2 ^ 168) (seq 0 64).

Definition md5_shift : list Z :=
  [7; 12; 17; 22; 7; 12; 17; 22; 7; 12; 17; 22; 7; 12; 17; 22;
   5; 9; 14; 20; 5; 9; 14; 20; 5; 9; 14; 20; 5; 9; 14; 20;
   4; 11; 16; 23; 4; 11; 16; 23; 4; 11; 16; 23; 4; 11; 16; 23;
   6; 10; 15; 21; 6; 10; 15; 21; 6; 10; 15; 21; 6; 10; 15; 21].

Definition md5_init : list Z :=
  [le_word [1; 35; 69; 103]; le_word [137; 171; 205; 239];
   le_word [254; 220; 186; 152]; le_word [118; 84; 50; 16]].

Definition md5_round (m : list Z) (st : list Z) (i : nat) : list Z :=
  match st with
  | [a; b; c; d] =>
      let z := Z.of_nat i in
      let '(f, g) :=
        if z <? 16 then (Z.lor (Z.land b c) (Z.land (not32 b) d), z)
        else if z <? 32 then
          (Z.lor (Z.land d b) (Z.land (not32 d) c), (5 * z + 1) mod 16)
        else if z <? 48 then (Z.lxor (Z.lxor b c) d, (3 * z + 5) mod 16)
        else (Z.lxor c (Z.lor b (not32 d)), (7 * z) mod 16) in
      let x := add32 (add32 f a) (add32 (nth i md5_k 0) (nth (Z.to_nat g) m 0)) in
      [d; add32 b (rotl32 x (nth i md5_shift 0)); b; c]
  | _ => st
  end.

Definition md5_block (h : list Z) (block : list Z) : list Z :=
  let m := List.map le_word (chunks 16 4 block) in
  let r := fold_left (md5_round m) (seq 0 64) h in
  List.map (fun p => add32 (fst p) (snd p)) (combine h r).

Definition md5 (msg : list Z) : list Z :=
  let m := pad le_bytes msg in
  let blocks := chunks (List.length m) 64 m in
  flat_map (le_bytes 4) (fold_left md5_block blocks md5_init).

(** [crypto.createHash('md5').update(s).digest('hex')]. *)
Definition md5_hex (s : string) : string := hex_of_octets (md5 (octets s)).

End Crypto.

Module Buffer.

Local Open Scope Z_scope.

Definition alphabet : string :=
  "ABCDEFGHIJKLMNOPQRSTUVWXYZabcdefghijklmnopqrstuvwxyz0123456789+/".

Definition sextet (v : Z) : ascii :=
  match String.get (Z.to_nat v) alphabet with
  | Some c => c
  | None => "="%char
  end.

(** Three octets give four characters; a short last group is padded
    with ["="]. *)
Definition encode_group (g : list Z) : string :=
  match g with
  | [a; b; c] =>
      String (sextet (a / 4))
        (String (sextet (a mod 4 * 16 + b / 16))
           (String (sextet (b mod 16 * 4 + c / 64))
              (String (sextet (c mod 64)) EmptyString)))
  | [a; b] =>
      String (sextet (a / 4))
        (String (sextet (a mod 4 * 16 + b / 16))
           (String (sextet (b mod 16 * 4)) (String "="%char EmptyString)))
  | [a] =>
      String (sextet (a / 4))
        (String (sextet (a mod 4 * 16))
           (String "="%char (String "="%char EmptyString)))
  | _ => EmptyString
  end.

(** [Buffer.from(s).toString('base64')]. *)
Definition base64 (s : string) : string :=
  let bs := Crypto.octets s in
  String.concat EmptyString
    (List.map encode_group (Crypto.chunks (List.length bs) 3 bs)).

End Buffer.

(* ================================================================== *)
(** ** faceHash.ts: [FaceHashGenerator] *)
(* ================================================================== *)

Module FaceHashGenerator.

Local Open Scope string_scope.
Local Open Scope Z_scope.

(** The elements of a [Float32Array], read as Numbers. *)
Definition Float32Array : Type := list number.

Inductive HashType : Type := simple | sha256 | md5 | base64 | hex.

(** [interface HashOptions { type; length?: number }]; [None] is an absent
    [length]. *)
Record HashOptions : Type := { type : HashType; length : option number }.

(** [Array.from(descriptor).join(',')]. *)
Definition descriptorString (descriptor : Float32Array) : string :=
  Str.join "," (List.map Str.toString10 descriptor).

(** One turn of the loop of [generateSimpleHash]:
    [hash = ((hash << 5) - hash) + char; hash = hash & hash]. *)
Definition hash_step (hash char : Z) : Z :=
  let hash := (Int32.shl hash 5 - hash) + char in
  Int32.band hash hash.

(** The value of [hash] when the loop over the characters ends. *)
Definition rolling_hash (s : string) : Z :=
  fold_left hash_step (Str.charCodes s) 0.

(** [Math.abs(hash).toString(16).padStart(8, '0')]. *)
Definition hexHash (descriptor : Float32Array) : string :=
  let hash := rolling_hash (descriptorString descriptor) in
  Str.padStart (Str.toString16 (Num.abs (of_Z hash))) 8 "0".

(** The callback given to [reduce]. *)
Definition additional_step (acc : string) (val : number) : string :=
  (acc ++ Str.padStart
            (Str.toString16 (Num.rem (Num.abs (Num.mul val (of_Z 1000)))
                                     (of_Z 256)))
            2 "0")%string.

(** [descriptor.slice(0, 16).reduce(..., '')]. *)
Definition additionalHash (descriptor : Float32Array) : string :=
  fold_left additional_step (firstn 16 descriptor) "".

Definition generateSimpleHash (descriptor : Float32Array) : string :=
  (hexHash descriptor ++ additionalHash descriptor)%string.

Definition generateSHA256Hash (descriptor : Float32Array) : string :=
  Crypto.sha256_hex (descriptorString descriptor).

Definition generateMD5Hash (descriptor : Float32Array) : string :=
  Crypto.md5_hex (descriptorString descriptor).

Definition generateBase64Hash (descriptor : Float32Array) : string :=
  Buffer.base64 (descriptorString descriptor).

Definition generateHexHash (descriptor : Float32Array) : string :=
  Str.join ""
    (List.map
       (fun val =>
          Str.padStart (Str.toString16 (Num.abs (Num.mul val (of_Z 1000)))) 4 "0")
       descriptor).

(** The [switch] has a [default] branch that also yields the simple
    hash; the five constructors are all the values the type allows.
    In [options.length && hash.length > options.length] an absent
    [length] is [undefined], which is falsy, and so are [0] and [NaN]. *)
Definition generateFaceHash (descriptor : Float32Array) (options : HashOptions)
  : string :=
  let hash :=
    match type options with
    | simple => generateSimpleHash descriptor
    | sha256 => generateSHA256Hash descriptor
    | md5 => generateMD5Hash descriptor
    | base64 => generateBase64Hash descriptor
    | hex => generateHexHash descriptor
    end in
  match length options with
  | Some l =>
      if Num.truthy l && Num.gt (of_nat (String.length hash)) l
      then Str.substring0 hash l
      else hash
  | None => hash
  end.

(** The default value of the parameter [options]. *)
Definition default_options : HashOptions := {| type := simple; length := None |}.

(** One turn of the loop of [compareHashes], with the number of
    characters read so far next to [matches]. *)
Definition compare_step (hash1 hash2 : string) (st : nat * nat) (i : nat)
  : nat * nat :=
  let '(matches, reads) := st in
  if Str.strict_eq (Str.charAt hash1 i) (Str.charAt hash2 i)
  then (S matches, (reads + 2)%nat)
  else (matches, (reads + 2)%nat).

(** [compareHashes] with the number of characters it has read. *)
Definition compareHashes_run (hash1 hash2 : string) : number * nat :=
  if negb (String.length hash1 =? String.length hash2)%nat then (of_Z 0, O)
  else
    let '(matches, reads) :=
      fold_left (compare_step hash1 hash2) (seq 0 (String.length hash1)) (O, O) in
    (Num.div (of_nat matches) (of_nat (String.length hash1)), reads).

Definition compareHashes (hash1 hash2 : string) : number :=
  fst (compareHashes_run hash1 hash2).

Record AllHashes : Type :=
  { all_simple : string; all_sha256 : string; all_md5 : string;
    all_base64 : string; all_hex : string }.

Definition generateAllHashes (descriptor : Float32Array) : AllHashes :=
  {| all_simple := generateSimpleHash descriptor;
     all_sha256 := generateSHA256Hash descriptor;
     all_md5 := generateMD5Hash descriptor;
     all_base64 := generateBase64Hash descriptor;
     all_hex := generateHexHash descriptor |}.

(** The comparator as the specification words it: the number of
    positions at which the two strings carry the same character. *)
Fixpoint matching_positions (s1 s2 : string) : nat :=
  match s1, s2 with
  | String a r1, String b r2 =>
      ((if Ascii.eqb a b then 1 else 0) + matching_positions r1 r2)%nat
  | _, _ => O
  end.

(** The elements of [new Float32Array([0.1, -0.2, 0.3])]: each literal
    rounded to binary32. *)
Definition example_descriptor : Float32Array :=
  [Fin (13421773 # 134217728); Fin (- (13421773 # 67108864));
   Fin (5033165 # 16777216)].

End FaceHashGenerator.

(* ================================================================== *)
(** ** Runtime objects shared by the two systems *)
(* ================================================================== *)

(** [new Map()]: entries in insertion order; [set] on a key already
    present replaces the value where it stands. *)
Module JSMap.

Section Entries.

Context {V : Type}.

Definition t : Type := list (string * V).

Definition empty : t := [].

Fixpoint set (k : string) (v : V) (m : t) : t :=
  match m with
  | [] => [(k, v)]
  | (k', v') :: r => if String.eqb k' k then (k, v) :: r else (k', v') :: set k v r
  end.

Fixpoint get (k : string) (m : t) : option V :=
  match m with
  | [] => None
  | (k', v') :: r => if String.eqb k' k then Some v' else get k r
  end.

Definition has (k : string) (m : t) : bool :=
  match get k m with Some _ => true | None => false end.

Fixpoint delete (k : string) (m : t) : t :=
  match m with
  | [] => []
  | (k', v') :: r => if String.eqb k' k then r else (k', v') :: delete k r
  end.

Definition keys (m : t) : list string := List.map fst m.

End Entries.

Arguments t V : clear implicits.

End JSMap.

(** What an [async] call or a [try] block ends with. *)
Module Outcome.

Record Error : Type := { message : string }.

Inductive outcome (A : Type) : Type :=
| Return (a : A)
| Throw (e : Error).

Arguments Return {A} a.
Arguments Throw {A} e.

Definition bind {S A B : Type} (c : S -> outcome A * S)
  (k : A -> S -> outcome B * S) : S -> outcome B * S :=
  fun s =>
    match c s with
    | (Return a, s') => k a s'
    | (Throw e, s') => (Throw e, s')
    end.

Definition ret {S A : Type} (a : A) : S -> outcome A * S :=
  fun s => (Return a, s).

Definition throw {S A : Type} (e : Error) : S -> outcome A * S :=
  fun s => (Throw e, s).

(** A call that cannot change the state. *)
Definition pure_call {S A : Type} (r : outcome A) : S -> outcome A * S :=
  fun s => (r, s).

End Outcome.

Import Outcome.

Declare Scope js_scope.
Delimit Scope js_scope with js.
Notation "x <- c ;; k" := (Outcome.bind c (fun x => k))
  (at level 61, c at next level, right associativity) : js_scope.

(** Values held by the open [metadata] object, and records. *)
Module Data.

Definition timestamp : Type := Z.

Inductive value : Type :=
| VString (s : string)
| VNumber (n : number).

(** An object literal: own properties in creation order. *)
Definition object : Type := JSMap.t value.

(** [{...metadata, descriptorLength: n, confidence: c}]. *)
Definition with_detection (metadata : object) (n c : number) : object :=
  JSMap.set "confidence" (VNumber c)
    (JSMap.set "descriptorLength" (VNumber n) metadata).

(** [new Date()]: the readings the clock will give, and how many have
    been taken. *)
Record Clock : Type := { reading : nat -> timestamp; ticks : nat }.

Definition now (c : Clock) : timestamp * Clock :=
  (reading c (ticks c), {| reading := reading c; ticks := S (ticks c) |}).

(** The literal [0.8], default of every [threshold] parameter. *)
Definition default_threshold : number := Fin (fl (8 # 10)).

Definition or_default (threshold : option number) : number :=
  match threshold with
  | Some t => t
  | None => default_threshold
  end.

(** The value of [result] after
    [detectSingleFace(...).withFaceLandmarks().withFaceDescriptor()],
    as far as the program reads it: [result.descriptor] and
    [result.detection.score]. *)
Record Detection : Type := { descriptor : list number; score : number }.

(** The external collaborators: image loading and the face detector,
    which answers [undefined] ([None]) when it finds no face. *)
Class FaceApi : Type :=
  { Image : Type;
    loadImage : string -> outcome Image;
    detectSingleFace : Image -> outcome (option Detection) }.

(** What [validateFaceHash] returns; the first [return] leaves
    [similarity] and [threshold] out. *)
Record Validation : Type :=
  { valid : bool;
    similarity : option number;
    threshold : option number;
    reason : string }.

Definition no_face_error : Error :=
  {| message := "Nenhuma face detectada na imagem" |}.

Definition reason_not_found : string := "Usuário não encontrado".
Definition reason_valid : string := "Hash válido".
Definition reason_mismatch : string := "Hash não corresponde".

End Data.

Import Data.

(* ================================================================== *)
(** ** faceValidationSystem.js: the in-memory system *)
(* ================================================================== *)

Module FaceDatabase.

Record FaceRecord : Type :=
  { userId : string;
    hash : string;
    metadata : object;
    createdAt : timestamp;
    lastUsed : timestamp }.

(** [this.faces], and the clock the methods read. *)
Record World : Type := { faces : JSMap.t FaceRecord; clock : Clock }.

(** [constructor()]. *)
Definition create (c : Clock) : World := {| faces := JSMap.empty; clock := c |}.

Definition saveFaceHash (userId : string) (hash : string) (metadata : object)
  (w : World) : FaceRecord * World :=
  let '(t1, c1) := now (clock w) in
  let '(t2, c2) := now c1 in
  let faceRecord :=
    {| userId := userId; hash := hash; metadata := metadata;
       createdAt := t1; lastUsed := t2 |} in
  (faceRecord, {| faces := JSMap.set userId faceRecord (faces w); clock := c2 |}).

Definition getFaceHash (userId : string) (w : World) : option FaceRecord :=
  JSMap.get userId (faces w).

(** The same text as [FaceHashGenerator.compareHashes] of faceHash.ts. *)
Definition compareHashes (hash1 hash2 : string) : number :=
  FaceHashGenerator.compareHashes hash1 hash2.

(** [storedRecord.lastUsed = ...]: the record is the object the map
    holds, so the assignment changes the entry in place. *)
Definition touch (r : FaceRecord) (t : timestamp) : FaceRecord :=
  {| userId := userId r; hash := hash r; metadata := metadata r;
     createdAt := createdAt r; lastUsed := t |}.

Definition validateFaceHash (userId : string) (inputHash : string)
  (threshold : option number) (w : World) : Validation * World :=
  let threshold := or_default threshold in
  match JSMap.get userId (faces w) with
  | None =>
      ({| valid := false; similarity := None; threshold := None;
          reason := reason_not_found |}, w)
  | Some storedRecord =>
      let similarity := compareHashes (hash storedRecord) inputHash in
      let isValid := Num.ge similarity threshold in
      let w' :=
        if isValid then
          let '(t, c) := now (clock w) in
          {| faces := JSMap.set userId (touch storedRecord t) (faces w);
             clock := c |}
        else w in
      ({| valid := isValid; similarity := Some similarity;
          threshold := Some threshold;
          reason := if isValid then reason_valid else reason_mismatch |}, w')
  end.

Definition listUsers (w : World) : list string := JSMap.keys (faces w).

Definition removeUser (userId : string) (w : World) : bool * World :=
  (JSMap.has userId (faces w),
   {| faces := JSMap.delete userId (faces w); clock := clock w |}).

(** Two records that differ at most in [lastUsed]. *)
Definition same_but_lastUsed (r r' : FaceRecord) : Prop :=
  userId r' = userId r /\ hash r' = hash r /\ metadata r' = metadata r
  /\ createdAt r' = createdAt r.

(** Entry by entry: the key stays, a record filed under another key than
    [u] is untouched, and the record of [u] keeps all but [lastUsed]. *)
Definition only_lastUsed_of (u : string) (e e' : string * FaceRecord) : Prop :=
  fst e' = fst e /\ same_but_lastUsed (snd e) (snd e')
  /\ (fst e <> u -> snd e' = snd e).

End FaceDatabase.

Module FaceValidationSystem.

Import FaceDatabase.

Local Open Scope js_scope.

(** [FaceHashGenerator.generateSHA256Hash] of this file. *)
Definition generateSHA256Hash (descriptor : list number) : string :=
  Crypto.sha256_hex (Str.join "," (List.map Str.toString10 descriptor)).

Definition generateValidationHash (descriptor : list number) : string :=
  generateSHA256Hash descriptor.

Section WithFaceApi.

Context {api : FaceApi}.

(** The [catch] block reports the error on the console and throws it
    again, so an error leaves the method as it was raised. *)
Definition registerUser (userId imagePath : string) (metadata : object)
  : World -> outcome FaceRecord * World :=
  image <- pure_call (loadImage imagePath) ;;
  result <- pure_call (detectSingleFace image) ;;
  match result with
  | None => throw no_face_error
  | Some result =>
      let hash := generateValidationHash (descriptor result) in
      fun w =>
        let '(faceRecord, w') :=
          saveFaceHash userId hash
            (with_detection metadata
               (of_nat (List.length (descriptor result))) (score result)) w in
        (Return faceRecord, w')
  end.

Definition validateUser (userId imagePath : string)
  : World -> outcome Validation * World :=
  image <- pure_call (loadImage imagePath) ;;
  result <- pure_call (detectSingleFace image) ;;
  match result with
  | None => throw no_face_error
  | Some result =>
      let inputHash := generateValidationHash (descriptor result) in
      fun w =>
        let '(validation, w') := validateFaceHash userId inputHash None w in
        (Return validation, w')
  end.

End WithFaceApi.

Definition listRegisteredUsers (w : World) : list string := listUsers w.

Definition removeUser (userId : string) (w : World) : bool * World :=
  FaceDatabase.removeUser userId w.

End FaceValidationSystem.

(* ================================================================== *)
(** ** faceValidationSystem.js: the MongoDB variant *)
(* ================================================================== *)

Module MongoDBFaceDatabase.

Local Open Scope js_scope.

(** A document of the collection [users] (the driver's own [_id] is
    never read by the program). *)
Record UserDoc : Type :=
  { userId : string;
    hash : string;
    metadata : object;
    createdAt : timestamp;
    lastUsed : timestamp;
    updatedAt : timestamp }.

(** The collection in natural order, the error the driver answers with
    when the storage layer is out of reach, and the clock. *)
Record World : Type :=
  { docs : list UserDoc; fault : option Error; clock : Clock }.

Definition with_docs (w : World) (d : list UserDoc) : World :=
  {| docs := d; fault := fault w; clock := clock w |}.

(** Every call to the driver fails with the pending fault, if any. *)
Definition driver {A : Type} (k : World -> A * World)
  : World -> outcome A * World :=
  fun w =>
    match fault w with
    | Some e => (Throw e, w)
    | None => let '(a, w') := k w in (Return a, w')
    end.

Definition tick : World -> outcome timestamp * World :=
  fun w =>
    let '(t, c) := now (clock w) in
    (Return t, {| docs := docs w; fault := fault w; clock := c |}).

(** [updateOne({ userId }, { $set: doc }, { upsert: true })]. *)
Fixpoint upsert (doc : UserDoc) (ds : list UserDoc) : list UserDoc :=
  match ds with
  | [] => [doc]
  | d :: r => if String.eqb (userId d) (userId doc) then doc :: r else d :: upsert doc r
  end.

(** [findOne({ userId })]. *)
Definition findOne (u : string) (ds : list UserDoc) : option UserDoc :=
  List.find (fun d => String.eqb (userId d) u) ds.

(** [updateOne({ userId }, { $set: { lastUsed, updatedAt } })]. *)
Fixpoint set_used (u : string) (t1 t2 : timestamp) (ds : list UserDoc)
  : list UserDoc :=
  match ds with
  | [] => []
  | d :: r =>
      if String.eqb (userId d) u
      then {| userId := userId d; hash := hash d; metadata := metadata d;
              createdAt := createdAt d; lastUsed := t1; updatedAt := t2 |} :: r
      else d :: set_used u t1 t2 r
  end.

(** [deleteOne({ userId })]: the first matching document goes. *)
Fixpoint deleteOne (u : string) (ds : list UserDoc) : list UserDoc :=
  match ds with
  | [] => []
  | d :: r => if String.eqb (userId d) u then r else d :: deleteOne u r
  end.

Definition saveFaceHash (userId : string) (hash : string) (metadata : object)
  : World -> outcome UserDoc * World :=
  t1 <- tick ;;
  t2 <- tick ;;
  t3 <- tick ;;
  let faceRecord :=
    {| userId := userId; hash := hash; metadata := metadata;
       createdAt := t1; lastUsed := t2; updatedAt := t3 |} in
  driver (fun w => (faceRecord, with_docs w (upsert faceRecord (docs w)))).

Definition getFaceHash (userId : string) : World -> outcome (option UserDoc) * World :=
  driver (fun w => (findOne userId (docs w), w)).

(** The same text as [FaceHashGenerator.compareHashes] of faceHash.ts. *)
Definition compareHashes (hash1 hash2 : string) : number :=
  FaceHashGenerator.compareHashes hash1 hash2.

Definition validateFaceHash (userId : string) (inputHash : string)
  (threshold : option number) : World -> outcome Validation * World :=
  let threshold := or_default threshold in
  storedRecord <- getFaceHash userId ;;
  match storedRecord with
  | None =>
      ret {| valid := false; similarity := None; threshold := None;
             reason := reason_not_found |}
  | Some storedRecord =>
      let similarity := compareHashes (hash storedRecord) inputHash in
      let isValid := Num.ge similarity threshold in
      _ <- (if isValid then
              t1 <- tick ;;
              t2 <- tick ;;
              driver (fun w => (tt, with_docs w (set_used userId t1 t2 (docs w))))
            else ret tt) ;;
      ret {| valid := isValid; similarity := Some similarity;
             threshold := Some threshold;
             reason := if isValid then reason_valid else reason_mismatch |}
  end.

(** A listed user: the projection [{ userId, createdAt, metadata }]. *)
Definition listUsers : World -> outcome (list (string * timestamp * object)) * World :=
  driver (fun w =>
            (List.map (fun d => (userId d, createdAt d, metadata d)) (docs w), w)).

Definition removeUser (userId : string) : World -> outcome bool * World :=
  driver (fun w =>
            (match findOne userId (docs w) with Some _ => true | None => false end,
             with_docs w (deleteOne userId (docs w)))).

(** What [findUserByHash] returns for a match. *)
Record Match : Type :=
  { match_userId : string; match_similarity : number; match_metadata : object }.

(** The [for ... of] loop over the documents, with its early [return]. *)
Fixpoint scan (users : list UserDoc) (inputHash : string) (threshold : number)
  : option Match :=
  match users with
  | [] => None
  | user :: rest =>
      let similarity := compareHashes (hash user) inputHash in
      if Num.ge similarity threshold
      then Some {| match_userId := userId user;
                   match_similarity := similarity;
                   match_metadata := metadata user |}
      else scan rest inputHash threshold
  end.

Definition findUserByHash (inputHash : string) (threshold : option number)
  : World -> outcome (option Match) * World :=
  let threshold := or_default threshold in
  users <- driver (fun w => (docs w, w)) ;;
  ret (scan users inputHash threshold).

End MongoDBFaceDatabase.

Module MongoDBFaceValidationSystem.

Import MongoDBFaceDatabase.

Local Open Scope js_scope.

Section WithFaceApi.

Context {api : FaceApi}.

Definition registerUser (userId imagePath : string) (metadata : object)
  : World -> outcome UserDoc * World :=
  image <- pure_call (loadImage imagePath) ;;
  result <- pure_call (detectSingleFace image) ;;
  match result with
  | None => throw no_face_error
  | Some result =>
      let hash := FaceValidationSystem.generateValidationHash (descriptor result) in
      saveFaceHash userId hash
        (with_detection metadata
           (of_nat (List.length (descriptor result))) (score result))
  end.

Definition validateUser (userId imagePath : string)
  : World -> outcome Validation * World :=
  image <- pure_call (loadImage imagePath) ;;
  result <- pure_call (detectSingleFace image) ;;
  match result with
  | None => throw no_face_error
  | Some result =>
      let inputHash :=
        FaceValidationSystem.generateValidationHash (descriptor result) in
      validateFaceHash userId inputHash None
  end.

Definition recognizeUser (imagePath : string)
  : World -> outcome (option Match) * World :=
  image <- pure_call (loadImage imagePath) ;;
  result <- pure_call (detectSingleFace image) ;;
  match result with
  | None => throw no_face_error
  | Some result =>
      let inputHash :=
        FaceValidationSystem.generateValidationHash (descriptor result) in
      findUserByHash inputHash None
  end.

End WithFaceApi.

End MongoDBFaceValidationSystem.

(* ================================================================== *)
(** ** Sequences of calls on the in-memory store *)
(* ================================================================== *)

Module Calls.

Import FaceDatabase.

(** A call of a method of [FaceDatabase]. *)
Inductive call : Type :=
| Save (userId hash : string) (metadata : object)
| Get (userId : string)
| Validate (userId inputHash : string) (threshold : option number)
| List_
| Remove (userId : string).

Definition step (w : World) (c : call) : World :=
  match c with
  | Save u h m => snd (saveFaceHash u h m w)
  | Get _ => w
  | Validate u h t => snd (validateFaceHash u h t w)
  | List_ => w
  | Remove u => snd (removeUser u w)
  end.

(** The store after a sequence of calls on a fresh [FaceDatabase]. *)
Definition run (c : Clock) (calls : list call) : World :=
  fold_left step calls (create c).

(** The number of records held for an identifier. *)
Definition records_for (u : string) (w : World) : nat :=
  List.length (List.filter (String.eqb u) (JSMap.keys (faces w))).

End Calls.

(** A detector and a clock to run the systems on: two known images, one
    of them without a face; the n-th reading of the clock is n
    milliseconds. *)
Module Sample.

Definition api : FaceApi :=
  {| Image := string;
     loadImage := fun path =>
       if String.eqb path "../images/missing.jpg"
       then Throw {| message := "ENOENT" |}
       else Return path;
     detectSingleFace := fun image =>
       if String.eqb image "../images/bbt1.jpg"
       then Return (Some {| descriptor := FaceHashGenerator.example_descriptor;
                            score := Fin (fl (95 # 100)) |})
       else Return None |}.

Definition clock : Clock :=
  {| reading := Z.of_nat; ticks := 0 |}.

(** A collection of two users and no fault. *)
Definition mongo : MongoDBFaceDatabase.World :=
  {| MongoDBFaceDatabase.docs :=
       [ {| MongoDBFaceDatabase.userId := "joao";
            MongoDBFaceDatabase.hash := "a52685bd";
            MongoDBFaceDatabase.metadata := [("name"%string, VString "Joao Silva")];
            MongoDBFaceDatabase.createdAt := 1705314600000;
            MongoDBFaceDatabase.lastUsed := 1705314600000;
            MongoDBFaceDatabase.updatedAt := 1705314600000 |};
         {| MongoDBFaceDatabase.userId := "maria";
            MongoDBFaceDatabase.hash := "a52685bf";
            MongoDBFaceDatabase.metadata := [("name"%string, VString "Maria Santos")];
            MongoDBFaceDatabase.createdAt := 1705314600001;
            MongoDBFaceDatabase.lastUsed := 1705314600001;
            MongoDBFaceDatabase.updatedAt := 1705314600001 |} ];
     MongoDBFaceDatabase.fault := None;
     MongoDBFaceDatabase.clock := clock |}.

End Sample.

(* ================================================================== *)
(** ** The rest of the two files *)
(* ================================================================== *)

(** The value the loop of [generateSimpleHash] is known for: the
    polynomial in 31 over the character codes, before any wrap-around. *)
Module Polynomial.

Definition poly31 (codes : list Z) : Z :=
  fold_left (fun acc c => 31 * acc + c) codes 0.

End Polynomial.

(** The digest before any cut. *)
Module Uncut.

Definition natural (d : FaceHashGenerator.Float32Array)
  (ty : FaceHashGenerator.HashType) : string :=
  FaceHashGenerator.generateFaceHash d
    {| FaceHashGenerator.type := ty; FaceHashGenerator.length := None |}.

End Uncut.

(** [listRegisteredUsers] and [removeUser] of the MongoDB
    [FaceValidationSystem]. *)
Module MongoDBFaceValidationSystemRest.

Import MongoDBFaceDatabase.

Local Open Scope js_scope.

(** [if (users.length === 0) return []], else the listing itself. *)
Definition listRegisteredUsers
  : World -> outcome (list (string * timestamp * object)) * World :=
  users <- listUsers ;;
  match users with
  | [] => ret []
  | _ => ret users
  end.

Definition removeUser (userId : string) : World -> outcome bool * World :=
  removed <- MongoDBFaceDatabase.removeUser userId ;;
  ret removed.

End MongoDBFaceValidationSystemRest.

(** Sequences of calls on the MongoDB store, between which the storage
    layer may go out of reach or come back. *)
Module MongoCalls.

Import MongoDBFaceDatabase.

Inductive call : Type :=
| Save (userId hash : string) (metadata : object)
| Get (userId : string)
| Validate (userId inputHash : string) (threshold : option number)
| ListAll
| Remove (userId : string)
| Find (inputHash : string) (threshold : option number)
| Reach (fault : option Error).

Definition step (w : World) (c : call) : World :=
  match c with
  | Save u h m => snd (saveFaceHash u h m w)
  | Get u => snd (getFaceHash u w)
  | Validate u h t => snd (validateFaceHash u h t w)
  | ListAll => snd (listUsers w)
  | Remove u => snd (removeUser u w)
  | Find h t => snd (findUserByHash h t w)
  | Reach f => {| docs := docs w; fault := f; clock := clock w |}
  end.

(** The collection when [connect] has just created it. *)
Definition fresh (c : Clock) : World :=
  {| docs := []; fault := None; clock := c |}.

Definition run (c : Clock) (calls : list call) : World :=
  fold_left step calls (fresh c).

Definition userIds (w : World) : list string := List.map userId (docs w).

(** Two documents that differ at most in [lastUsed] and [updatedAt]. *)
Definition same_but_used (d d' : UserDoc) : Prop :=
  userId d' = userId d /\ hash d' = hash d /\ metadata d' = metadata d
  /\ createdAt d' = createdAt d.

Definition only_used_of (u : string) (d d' : UserDoc) : Prop :=
  same_but_used d d' /\ (userId d <> u -> d' = d).

End MongoCalls.

(** Clocks that never run backwards, and stores whose records were not
    used before they were created. *)
Module Timeline.

Definition monotone (c : Clock) : Prop :=
  forall i j : nat, (i <= j)%nat -> (reading c i <= reading c j)%Z.

Definition ordered (w : FaceDatabase.World) : Prop :=
  Forall (fun e : string * FaceDatabase.FaceRecord =>
            (FaceDatabase.createdAt (snd e) <= FaceDatabase.lastUsed (snd e))%Z)
         (FaceDatabase.faces w).

(** What every call keeps when the clock is the one the store was
    created with: a record was created no later than it was last used,
    and no later than any reading still to come. *)
Definition settled (c : Clock) (w : FaceDatabase.World) : Prop :=
  reading (FaceDatabase.clock w) = reading c
  /\ Forall (fun e : string * FaceDatabase.FaceRecord =>
               (FaceDatabase.createdAt (snd e) <= FaceDatabase.lastUsed (snd e))%Z
               /\ forall j : nat,
                    (ticks (FaceDatabase.clock w) <= j)%nat ->
                    (FaceDatabase.createdAt (snd e) <= reading c j)%Z)
            (FaceDatabase.faces w).

End Timeline.

(** [demonstrateSystem] of the in-memory file. *)
Module Demonstration.

Import FaceDatabase.

Local Open Scope js_scope.

Definition joao : object :=
  [("name"%string, VString "João Silva");
   ("email"%string, VString "joao@email.com")].

Definition maria : object :=
  [("name"%string, VString "Maria Santos");
   ("email"%string, VString "maria@email.com")].

Section WithFaceApi.

Context {api : FaceApi}.

(** A method that cannot throw, inside the [try] block. *)
Definition call {A : Type} (f : World -> A * World) : World -> outcome A * World :=
  fun w => let '(a, w') := f w in (Return a, w').

(** The body of the [try] block. *)
Definition script : World -> outcome unit * World :=
  _ <- FaceValidationSystem.registerUser "joao" "../images/bbt1.jpg" joao ;;
  _ <- FaceValidationSystem.registerUser "maria" "../images/bbt2.jpg" maria ;;
  _ <- call (fun w => (FaceValidationSystem.listRegisteredUsers w, w)) ;;
  _ <- FaceValidationSystem.validateUser "joao" "../images/bbt1.jpg" ;;
  _ <- FaceValidationSystem.validateUser "maria" "../images/bbt2.jpg" ;;
  _ <- FaceValidationSystem.validateUser "pedro" "../images/bbt1.jpg" ;;
  _ <- call (FaceValidationSystem.removeUser "maria") ;;
  _ <- call (fun w => (FaceValidationSystem.listRegisteredUsers w, w)) ;;
  ret tt.

(** The three [loadFromDisk] calls stand before the [try] block: when
    one of them fails the function ends with that error and creates no
    system.  Inside the block an error is reported on the console and
    the function ends normally.  The result is paired with the store the
    system is left with. *)
Definition demonstrateSystem (models : outcome unit) (c : Clock)
  : outcome unit * option World :=
  match models with
  | Throw e => (Throw e, None)
  | Return _ => (Return tt, Some (snd (script (create c))))
  end.

End WithFaceApi.

(** A detector that finds a face in each of the two images of the
    demonstration. *)
Definition two_faces : FaceApi :=
  {| Image := string;
     loadImage := fun path => Return path;
     detectSingleFace := fun image =>
       if String.eqb image "../images/bbt1.jpg"
       then Return (Some {| descriptor := FaceHashGenerator.example_descriptor;
                            score := Fin (fl (95 # 100)) |})
       else Return (Some {| descriptor := [of_Z 1; of_Z 2];
                            score := Fin (fl (9 # 10)) |}) |}.

End Demonstration.

(* ================================================================== *)
(** ** The digest generator and the objects it creates *)
(* ================================================================== *)

(** The objects of the runtime that the methods of [FaceHashGenerator]
    read and create, held by reference: the descriptor is a
    [Float32Array] of the caller; [Array.from], [map] and [slice] create
    arrays, [crypto.createHash] creates a [Hash] object that [update] and
    [digest] change, [Buffer.from] creates a [Buffer].  The state also
    holds the clock of [new Date()]. *)
Module Objects.

Local Open Scope js_scope.

Inductive algorithm : Type := SHA256 | MD5.

Inductive obj : Type :=
| Float32 (elements : list number)
| Numbers (elements : list number)
| Strings (elements : list string)
| Hash (alg : algorithm) (data : string) (finalized : bool)
| Bytes (octets : list Z).

(** A reference is the place of the object among the objects created. *)
Definition ref : Type := nat.

Record World : Type := { heap : list obj; clock : Clock }.

Definition deref (r : ref) (w : World) : option obj := nth_error (heap w) r.

Definition type_error : Error := {| message := "TypeError" |}.

(** [Error [ERR_CRYPTO_HASH_FINALIZED]]. *)
Definition finalized_error : Error := {| message := "Digest already called" |}.

Definition load (r : ref) : World -> outcome obj * World :=
  fun w =>
    match deref r w with
    | Some o => (Return o, w)
    | None => (Throw type_error, w)
    end.

(** A new object, after all those that exist. *)
Definition alloc (o : obj) : World -> outcome ref * World :=
  fun w =>
    (Return (List.length (heap w)),
     {| heap := (heap w ++ [o])%list; clock := clock w |}).

Fixpoint put (r : ref) (o : obj) (l : list obj) : list obj :=
  match l, r with
  | [], _ => []
  | _ :: l, O => o :: l
  | x :: l, S r => x :: put r o l
  end.

(** A change of the object behind a reference. *)
Definition assign (r : ref) (o : obj) : World -> outcome unit * World :=
  fun w => (Return tt, {| heap := put r o (heap w); clock := clock w |}).

(** [Array.from(typedArray)]: a new Array with the same elements. *)
Definition Array_from (ta : ref) : World -> outcome ref * World :=
  o <- load ta ;;
  match o with
  | Float32 xs => alloc (Numbers xs)
  | _ => throw type_error
  end.

(** [array.join(separator)]: the elements, each converted by ToString. *)
Definition join (arr : ref) (separator : string)
  : World -> outcome string * World :=
  o <- load arr ;;
  match o with
  | Numbers xs => ret (Str.join separator (List.map Str.toString10 xs))
  | Strings ss => ret (Str.join separator ss)
  | _ => throw type_error
  end.

(** [array.map(callback)], for a callback from Numbers to strings that
    has no effect of its own: a new Array. *)
Definition map (arr : ref) (callback : number -> string)
  : World -> outcome ref * World :=
  o <- load arr ;;
  match o with
  | Numbers xs => alloc (Strings (List.map callback xs))
  | _ => throw type_error
  end.

(** [typedArray.slice(0, stop)]: a new typed array. *)
Definition slice (ta : ref) (stop : nat) : World -> outcome ref * World :=
  o <- load ta ;;
  match o with
  | Float32 xs => alloc (Float32 (firstn stop xs))
  | _ => throw type_error
  end.

(** [typedArray.reduce(callback, initial)], for a callback that has no
    effect of its own. *)
Definition reduce (ta : ref) (callback : string -> number -> string)
  (initial : string) : World -> outcome string * World :=
  o <- load ta ;;
  match o with
  | Float32 xs => ret (fold_left callback xs initial)
  | _ => throw type_error
  end.

(** [crypto.createHash(algorithm)]: a new [Hash] object with no data. *)
Definition createHash (alg : algorithm) : World -> outcome ref * World :=
  alloc (Hash alg EmptyString false).

(** [hash.update(data)]: the data is added to the object, which is
    returned; an object whose digest was taken refuses. *)
Definition update (h : ref) (data : string) : World -> outcome ref * World :=
  o <- load h ;;
  match o with
  | Hash alg seen false =>
      _ <- assign h (Hash alg (seen ++ data)%string false) ;;
      ret h
  | Hash _ _ true => throw finalized_error
  | _ => throw type_error
  end.

Definition hex_digest (alg : algorithm) (data : string) : string :=
  match alg with
  | SHA256 => Crypto.sha256_hex data
  | MD5 => Crypto.md5_hex data
  end.

(** [hash.digest('hex')]: the digest of the data seen; the object cannot
    be used again. *)
Definition digest (h : ref) : World -> outcome string * World :=
  o <- load h ;;
  match o with
  | Hash alg seen false =>
      _ <- assign h (Hash alg seen true) ;;
      ret (hex_digest alg seen)
  | Hash _ _ true => throw finalized_error
  | _ => throw type_error
  end.

(** [Buffer.from(string)]: a new [Buffer] with the octets of the string. *)
Definition Buffer_from (s : string) : World -> outcome ref * World :=
  alloc (Bytes (Crypto.octets s)).

(** [buffer.toString('base64')]. *)
Definition toString_base64 (b : ref) : World -> outcome string * World :=
  o <- load b ;;
  match o with
  | Bytes bs =>
      ret (String.concat EmptyString
             (List.map Buffer.encode_group
                (Crypto.chunks (List.length bs) 3 bs)))
  | _ => throw type_error
  end.

End Objects.

(** The methods of [FaceHashGenerator], statement by statement, on a
    descriptor held by reference.  The loop of [generateSimpleHash] works
    on the local variable [hash] and on a string, which are values. *)
Module FaceHashGeneratorCalls.

Import Objects.

Local Open Scope js_scope.

Definition generateSimpleHash (descriptor : ref)
  : World -> outcome string * World :=
  arr <- Array_from descriptor ;;
  descriptorString <- join arr "," ;;
  let hash := FaceHashGenerator.rolling_hash descriptorString in
  let hexHash := Str.padStart (Str.toString16 (Num.abs (of_Z hash))) 8 "0" in
  head <- slice descriptor 16 ;;
  additionalHash <- reduce head FaceHashGenerator.additional_step "" ;;
  ret (hexHash ++ additionalHash)%string.

(** The same text in faceHash.ts and in faceValidationSystem.js. *)
Definition generateSHA256Hash (descriptor : ref)
  : World -> outcome string * World :=
  arr <- Array_from descriptor ;;
  descriptorString <- join arr "," ;;
  h <- createHash SHA256 ;;
  h <- update h descriptorString ;;
  digest h.

Definition generateMD5Hash (descriptor : ref)
  : World -> outcome string * World :=
  arr <- Array_from descriptor ;;
  descriptorString <- join arr "," ;;
  h <- createHash MD5 ;;
  h <- update h descriptorString ;;
  digest h.

Definition generateBase64Hash (descriptor : ref)
  : World -> outcome string * World :=
  arr <- Array_from descriptor ;;
  descriptorString <- join arr "," ;;
  b <- Buffer_from descriptorString ;;
  toString_base64 b.

Definition generateHexHash (descriptor : ref)
  : World -> outcome string * World :=
  arr <- Array_from descriptor ;;
  strings <- map arr
    (fun val =>
       Str.padStart (Str.toString16 (Num.abs (Num.mul val (of_Z 1000)))) 4 "0") ;;
  join strings "".

Definition generateFaceHash (descriptor : ref)
  (options : FaceHashGenerator.HashOptions) : World -> outcome string * World :=
  hash <- match FaceHashGenerator.type options with
          | FaceHashGenerator.simple => generateSimpleHash descriptor
          | FaceHashGenerator.sha256 => generateSHA256Hash descriptor
          | FaceHashGenerator.md5 => generateMD5Hash descriptor
          | FaceHashGenerator.base64 => generateBase64Hash descriptor
          | FaceHashGenerator.hex => generateHexHash descriptor
          end ;;
  ret (match FaceHashGenerator.length options with
       | Some l =>
           if Num.truthy l && Num.gt (of_nat (String.length hash)) l
           then Str.substring0 hash l
           else hash
       | None => hash
       end).

(** [generateValidationHash] of faceValidationSystem.js. *)
Definition generateValidationHash (descriptor : ref)
  : World -> outcome string * World :=
  generateSHA256Hash descriptor.

(** A state with [new Float32Array([0.1, -0.2, 0.3])] as its one object. *)
Definition example_world : World :=
  {| heap := [Float32 FaceHashGenerator.example_descriptor];
     clock := {| reading := Z.of_nat; ticks := 0 |} |}.

End FaceHashGeneratorCalls.

(* ================================================================== *)
(** * Properties *)
(* ================================================================== *)

(** ** Rounding to binary64 stays inside the unit interval *)

Section Rounding.

Local Open Scope Z_scope.

Lemma round_half_even_upper (n d N : Z) :
  0 <= n -> 0 < d -> n <= N * d -> Num.round_half_even n d <= N.
Proof.
  intros Hn Hd Hle. unfold Num.round_half_even.
  pose proof (Z.div_mod n d ltac:(lia)) as Hdm.
  pose proof (Z.mod_pos_bound n d Hd) as Hr.
  assert (Hq : n / d <= N) by (apply Z.div_le_upper_bound; lia).
  destruct (Z.ltb_spec (2 * (n mod d)) d); [lia|].
  assert (n / d < N) by nia.
  destruct (Z.ltb_spec d (2 * (n mod d))); [lia|].
  destruct (Z.even (n / d)); lia.
Qed.

Lemma round_half_even_nonneg (n d : Z) :
  0 <= n -> 0 < d -> 0 <= Num.round_half_even n d.
Proof.
  intros Hn Hd. unfold Num.round_half_even.
  assert (0 <= n / d) by (apply Z.div_pos; lia).
  destruct (2 * (n mod d) <? d); [lia|].
  destruct (d <? 2 * (n mod d)); [lia|].
  destruct (Z.even (n / d)); lia.
Qed.

Lemma floor_log2_ratio_nonpos (a b : Z) :
  0 < a -> a <= b -> Num.floor_log2_ratio a b <= 0.
Proof.
  intros Ha Hab. unfold Num.floor_log2_ratio.
  pose proof (Z.log2_le_mono a b Hab).
  destruct (_ <? _); lia.
Qed.

Lemma round64_unit (a b : Z) :
  0 < a -> a <= b -> (0 <= Num.round64 a b <= 1)%Q.
Proof.
  intros Ha Hab. unfold Num.round64.
  pose proof (floor_log2_ratio_nonpos a b Ha Hab) as He.
  set (k := 52 - Num.floor_log2_ratio a b).
  assert (Hk : 52 <= k) by (unfold k; lia).
  rewrite (Z.max_r 0 k), (Z.max_l 0 (- k)) by lia.
  rewrite Z.pow_0_r, Z.mul_1_r.
  assert (Hp : 0 < 2 ^ k) by (apply Z.pow_pos_nonneg; lia).
  set (m := Num.round_half_even (a * 2 ^ k) b).
  assert (Hm0 : 0 <= m) by (apply round_half_even_nonneg; nia).
  assert (Hm1 : m <= 2 ^ k) by (apply round_half_even_upper; nia).
  unfold Num.Qpow2.
  destruct (Z.leb_spec 0 (- k)); [lia|].
  rewrite Z.opp_involutive, Qred_correct.
  unfold Qle, Qmult, inject_Z; simpl.
  rewrite Z2Pos.id by lia. lia.
Qed.

Lemma fl_unit (q : Q) : (0 <= q <= 1)%Q -> (0 <= Num.fl q <= 1)%Q.
Proof.
  intros [H0 H1]. unfold Num.fl.
  pose proof (Qred_correct q) as Hr.
  rewrite <- Hr in H0, H1.
  destruct (Qred q) as [n d]; simpl in *.
  unfold Qle in H0, H1; simpl in H0, H1.
  destruct n as [|n|n].
  - split; apply Qle_refl || discriminate.
  - apply round64_unit; lia.
  - lia.
Qed.

Lemma fl_compat (p q : Q) : (p == q)%Q -> Num.fl p = Num.fl q.
Proof. intros H. unfold Num.fl. now rewrite (Qred_complete p q H). Qed.

Lemma fl_one : Num.fl 1 = 1%Q.
Proof. reflexivity. Qed.

End Rounding.

(** ** The comparator *)

Section Comparator.

Import FaceHashGenerator.

Local Open Scope nat_scope.

Lemma compare_step_shift (a b : ascii) (s1 s2 : string) (l : list nat)
  (st : nat * nat) :
  fold_left (compare_step (String a s1) (String b s2)) (List.map S l) st
  = fold_left (compare_step s1 s2) l st.
Proof.
  revert st. induction l as [|i l IH]; intros st; simpl; [reflexivity|].
  rewrite <- IH. reflexivity.
Qed.

(** The loop counts the matching positions and reads two characters per
    position. *)
Lemma compare_loop (s1 s2 : string) (m0 r0 : nat) :
  String.length s1 = String.length s2 ->
  fold_left (compare_step s1 s2) (seq 0 (String.length s1)) (m0, r0)
  = (m0 + matching_positions s1 s2, r0 + 2 * String.length s1).
Proof.
  revert s2 m0 r0.
  induction s1 as [|a s1 IH]; intros [|b s2] m0 r0 Hlen;
    simpl in Hlen; try discriminate.
  - simpl. f_equal; lia.
  - injection Hlen as Hlen.
    cbn [String.length seq fold_left].
    rewrite <- seq_shift, compare_step_shift.
    unfold compare_step at 2. cbn [Str.charAt String.get Str.strict_eq].
    cbn [matching_positions].
    destruct (Ascii.eqb a b); rewrite IH by assumption; f_equal; lia.
Qed.

Lemma matching_positions_le (s1 s2 : string) :
  matching_positions s1 s2 <= String.length s1.
Proof.
  revert s2. induction s1 as [|a s1 IH]; intros [|b s2]; simpl; try lia.
  specialize (IH s2). destruct (Ascii.eqb a b); lia.
Qed.

Lemma matching_positions_refl (s : string) :
  matching_positions s s = String.length s.
Proof.
  induction s as [|a s IH]; simpl; [reflexivity|].
  now rewrite Ascii.eqb_refl, IH.
Qed.

(** On strings of one length the comparator divides the number of
    matching positions by that length. *)
Lemma compareHashes_run_same_length (h1 h2 : string) :
  String.length h1 = String.length h2 ->
  compareHashes_run h1 h2
  = (Num.div (of_nat (matching_positions h1 h2)) (of_nat (String.length h1)),
     2 * String.length h1).
Proof.
  intros Hlen. unfold compareHashes_run.
  rewrite Hlen, Nat.eqb_refl. cbn [negb]. rewrite <- Hlen.
  rewrite compare_loop by assumption. reflexivity.
Qed.

Lemma div_counts (m n : nat) :
  n <> 0 ->
  Num.div (of_nat m) (of_nat n)
  = Fin (Num.fl (Z.of_nat m # Pos.of_nat n)).
Proof.
  intros Hn. unfold Num.div, of_nat, of_Z.
  destruct (Qeq_bool (inject_Z (Z.of_nat n)) 0) eqn:E.
  - exfalso. apply Qeq_bool_eq in E.
    unfold Qeq, inject_Z in E; simpl in E. lia.
  - f_equal. apply fl_compat.
    destruct n as [|n]; [contradiction|].
    rewrite <- Pos.of_nat_succ.
    unfold Qeq, Qdiv, Qmult, Qinv, inject_Z.
    cbn [Z.of_nat Qnum Qden]. lia.
Qed.

Lemma ratio_unit (m n : nat) :
  n <> 0 -> m <= n -> (0 <= Z.of_nat m # Pos.of_nat n <= 1)%Q.
Proof.
  intros Hn Hle. unfold Qle; simpl.
  rewrite Z.mul_1_r.
  destruct n as [|n]; [contradiction|].
  rewrite <- Pos.of_nat_succ, Zpos_P_of_succ_nat. lia.
Qed.

(** A string of nonzero length against itself: every position matches. *)
Lemma compareHashes_run_self (d : string) :
  String.length d <> 0 ->
  compareHashes_run d d = (of_Z 1, 2 * String.length d).
Proof.
  intros Hnz.
  rewrite compareHashes_run_same_length by reflexivity.
  rewrite matching_positions_refl, div_counts by assumption.
  unfold of_Z. do 2 f_equal.
  rewrite (fl_compat _ 1); [reflexivity|].
  unfold Qeq; simpl.
  destruct (String.length d) as [|n]; [contradiction|].
  rewrite <- Pos.of_nat_succ, Zpos_P_of_succ_nat. lia.
Qed.

End Comparator.

(** C1, as the code has it: on two strings of one nonzero length the
    comparator returns the number of positions that carry the same
    character divided by the length (the binary64 quotient), and this value
    lies in [0, 1]. *)
Theorem compareHashes_fraction (h1 h2 : string) :
  String.length h1 = String.length h2 ->
  String.length h1 <> 0%nat ->
  FaceHashGenerator.compareHashes h1 h2
  = Num.div (of_nat (FaceHashGenerator.matching_positions h1 h2))
            (of_nat (String.length h1))
  /\ FaceHashGenerator.compareHashes h1 h2
     = Fin (Num.fl (Z.of_nat (FaceHashGenerator.matching_positions h1 h2)
                    # Pos.of_nat (String.length h1)))
  /\ FaceDatabase.compareHashes h1 h2 = FaceHashGenerator.compareHashes h1 h2
  /\ Num.unit_fraction (FaceHashGenerator.compareHashes h1 h2).
Proof.
  intros Hlen Hnz.
  unfold FaceDatabase.compareHashes, FaceHashGenerator.compareHashes.
  rewrite compareHashes_run_same_length by assumption. cbn [fst].
  rewrite div_counts by assumption.
  repeat split; try reflexivity.
  - apply fl_unit, ratio_unit; [assumption|].
    apply matching_positions_le.
  - apply fl_unit, ratio_unit; [assumption|].
    apply matching_positions_le.
Qed.

Lemma compareHashes_fraction_witness :
  FaceHashGenerator.compareHashes "0123456789" "0aaaaaaaaa"
  = Fin (3602879701896397 # 36028797018963968)
  /\ Num.unit_fraction (FaceHashGenerator.compareHashes "0123456789" "0aaaaaaaaa").
Proof.
  destruct (compareHashes_fraction "0123456789" "0aaaaaaaaa")
    as (_ & H & _ & Hu); [reflexivity | discriminate |].
  split; [exact H | exact Hu].
Defined.

(** C1 fails on two empty strings: the lengths agree, the quotient is
    [0 / 0], and the result is NaN, which is no fraction in [0, 1]. *)
Lemma compareHashes_empty_is_NaN :
  String.length ""%string = String.length ""%string
  /\ FaceHashGenerator.compareHashes "" "" = NaN
  /\ FaceDatabase.compareHashes "" "" = NaN
  /\ ~ Num.unit_fraction (FaceHashGenerator.compareHashes "" "").
Proof.
  repeat split. intros H. exact H.
Qed.

(** C2: when the lengths differ the comparator returns 0 and has read no
    character of either string. *)
Theorem compareHashes_length_mismatch (h1 h2 : string) :
  String.length h1 <> String.length h2 ->
  FaceHashGenerator.compareHashes_run h1 h2 = (of_Z 0, 0%nat)
  /\ FaceHashGenerator.compareHashes h1 h2 = of_Z 0
  /\ FaceDatabase.compareHashes h1 h2 = of_Z 0
  /\ MongoDBFaceDatabase.compareHashes h1 h2 = of_Z 0.
Proof.
  intros Hlen.
  assert (H : FaceHashGenerator.compareHashes_run h1 h2 = (of_Z 0, 0%nat)).
  { unfold FaceHashGenerator.compareHashes_run.
    apply Nat.eqb_neq in Hlen. now rewrite Hlen. }
  unfold MongoDBFaceDatabase.compareHashes, FaceDatabase.compareHashes,
    FaceHashGenerator.compareHashes.
  rewrite H. repeat split.
Qed.

Lemma compareHashes_length_mismatch_witness :
  FaceHashGenerator.compareHashes_run "abc" "ab" = (of_Z 0, 0%nat)
  /\ FaceHashGenerator.compareHashes "abc" "ab" = of_Z 0.
Proof.
  destruct (compareHashes_length_mismatch "abc" "ab") as (H1 & H2 & _);
    [simpl; lia|].
  split; assumption.
Defined.

(** C3: a digest of nonzero length compared with itself gives 1. *)
Theorem compareHashes_self (d : string) :
  String.length d <> 0%nat ->
  FaceHashGenerator.compareHashes d d = of_Z 1.
Proof.
  intros Hnz. unfold FaceHashGenerator.compareHashes.
  rewrite compareHashes_run_self by assumption. reflexivity.
Qed.

Lemma compareHashes_self_witness :
  FaceHashGenerator.compareHashes "a52685bd" "a52685bd" = of_Z 1.
Proof.
  apply (compareHashes_self "a52685bd"). discriminate.
Defined.

(** ** The digest generator *)

Section Strings.

Local Open Scope nat_scope.

Lemma append_empty_r (s : string) : (s ++ "")%string = s.
Proof. induction s as [|c s IH]; simpl; [reflexivity | now rewrite IH]. Qed.

Lemma append_length (a b : string) :
  String.length (a ++ b) = String.length a + String.length b.
Proof. induction a as [|c a IH]; simpl; [reflexivity | now rewrite IH]. Qed.

Lemma repeat_char_length (c : ascii) (n : nat) :
  String.length (Str.repeat_char c n) = n.
Proof. induction n as [|n IH]; simpl; [reflexivity | now rewrite IH]. Qed.

Lemma padStart_length (s : string) (target : nat) (c : ascii) :
  String.length s <= target -> String.length (Str.padStart s target c) = target.
Proof.
  intros H. unfold Str.padStart.
  rewrite append_length, repeat_char_length. lia.
Qed.

Lemma all_hex_append (a b : string) :
  Str.all_hex (a ++ b) = Str.all_hex a && Str.all_hex b.
Proof.
  induction a as [|c a IH]; simpl; [reflexivity|].
  now rewrite IH, andb_assoc.
Qed.


Lemma digit_char_hex (d : Z) :
  (0 <= d < 16)%Z -> Str.is_hex_digit (Str.digit_char d) = true.
Proof.
  intros H.
  assert (E : (d = 0 \/ d = 1 \/ d = 2 \/ d = 3 \/ d = 4 \/ d = 5 \/ d = 6
               \/ d = 7 \/ d = 8 \/ d = 9 \/ d = 10 \/ d = 11 \/ d = 12
               \/ d = 13 \/ d = 14 \/ d = 15)%Z) by lia.
  repeat (destruct E as [-> | E]; [reflexivity|]). now subst.
Qed.


(** A number below [16 ^ j] has at most [j] hexadecimal digits. *)
Lemma radix_digits_length (fuel : nat) (n : Z) (acc : string) (j : nat) :
  (0 <= n < 16 ^ Z.of_nat j)%Z -> 1 <= j ->
  String.length (Str.radix_digits fuel 16 n acc) <= String.length acc + j.
Proof.
  revert n acc j. induction fuel as [|fuel IH]; intros n acc j Hn Hj; simpl;
    [lia|].
  destruct (Z.eqb_spec (n / 16) 0) as [E|E]; simpl; [lia|].
  destruct j as [|[|j]]; [lia | |].
  - exfalso. apply E. apply Z.div_small. simpl in Hn. lia.
  - specialize (IH (n / 16)%Z (String (Str.digit_char (n mod 16)) acc) (S j)).
    simpl String.length in IH.
    assert (0 <= n / 16 < 16 ^ Z.of_nat (S j))%Z; [|lia].
    split; [apply Z.div_pos; lia|].
    apply Z.div_lt_upper_bound; [lia|].
    replace (Z.of_nat (S (S j))) with (Z.succ (Z.of_nat (S j))) in Hn by lia.
    rewrite Z.pow_succ_r in Hn by lia. lia.
Qed.

End Strings.

Section Digest.

Import FaceHashGenerator.

Local Open Scope Z_scope.

Lemma to_int32_range (z : Z) : - 2 ^ 31 <= Int32.to_int32 z < 2 ^ 31.
Proof.
  unfold Int32.to_int32.
  pose proof (Z.mod_pos_bound (z + 2 ^ 31) (2 ^ 32) ltac:(lia)). lia.
Qed.

Lemma fold_left_invariant {A B : Type} (P : A -> Prop) (f : A -> B -> A) :
  (forall a b, P a -> P (f a b)) -> forall l a, P a -> P (fold_left f l a).
Proof.
  intros Hf. induction l as [|b l IH]; intros a Ha; simpl; [assumption|].
  apply IH, Hf, Ha.
Qed.

Lemma hash_step_range (h c : Z) : - 2 ^ 31 <= hash_step h c < 2 ^ 31.
Proof. exact (to_int32_range _). Qed.

(** The loop of [generateSimpleHash] keeps [hash] a 32-bit integer. *)
Lemma rolling_hash_range (s : string) :
  - 2 ^ 31 <= rolling_hash s < 2 ^ 31.
Proof.
  unfold rolling_hash.
  apply (fold_left_invariant (fun z => - 2 ^ 31 <= z < 2 ^ 31) hash_step).
  - intros h c _. apply hash_step_range.
  - split; [discriminate | reflexivity].
Qed.

Lemma Qred_inject_Z (z : Z) : Qred (inject_Z z) = inject_Z z.
Proof.
  unfold Qred, inject_Z.
  pose proof (Z.ggcd_gcd z 1) as Hg.
  pose proof (Z.ggcd_correct_divisors z 1) as Hd.
  destruct (Z.ggcd z 1) as (g, (a, b)). cbn [fst snd] in *.
  rewrite Z.gcd_1_r in Hg. subst g. destruct Hd as [Ha Hb].
  rewrite Z.mul_1_l in Ha, Hb. now subst.
Qed.

(** [Math.abs(h).toString(16)] on an integer: its hexadecimal digits. *)
Lemma toString16_abs_int (h : Z) :
  Str.toString16 (Num.abs (of_Z h)) = Str.int_to_radix 16 (Z.abs h).
Proof.
  unfold Num.abs, of_Z.
  replace (Qabs (inject_Z h)) with (inject_Z (Z.abs h)) by reflexivity.
  rewrite Qred_inject_Z. unfold Str.toString16.
  replace (Qabs (inject_Z (Z.abs h))) with (inject_Z (Z.abs h))
    by (unfold Qabs, inject_Z; now rewrite Z.abs_idemp).
  replace (Qfloor (inject_Z (Z.abs h))) with (Z.abs h)
    by (unfold Qfloor, inject_Z; now rewrite Z.div_1_r).
  assert (E0 : Qle_bool 0 (inject_Z (Z.abs h)) = true).
  { apply Qle_bool_iff. unfold Qle; simpl. lia. }
  assert (E1 : Qeq_bool (Qred (inject_Z (Z.abs h) - inject_Z (Z.abs h))) 0 = true).
  { apply Qeq_bool_iff. rewrite Qred_correct. unfold Qeq; simpl. lia. }
  rewrite E0, E1. simpl. apply append_empty_r.
Qed.

Lemma hexHash_digits (d : Float32Array) :
  hexHash d
  = Str.padStart
      (Str.int_to_radix 16 (Z.abs (rolling_hash (descriptorString d)))) 8 "0".
Proof. unfold hexHash. now rewrite toString16_abs_int. Qed.

(** The guard and the cut of [generateFaceHash] on an integer cap. *)
Lemma truthy_of_Z (L : Z) : Num.truthy (of_Z L) = negb (L =? 0).
Proof.
  unfold Num.truthy, of_Z. f_equal.
  destruct (Z.eqb_spec L 0) as [->|Hne]; [reflexivity|].
  destruct (Qeq_bool (inject_Z L) 0) eqn:E; [|reflexivity].
  apply Qeq_bool_eq in E. unfold Qeq, inject_Z in E. cbn [Qnum Qden] in E. lia.
Qed.

Lemma gt_of_nat_of_Z (n : nat) (L : Z) :
  Num.gt (of_nat n) (of_Z L) = (L <? Z.of_nat n).
Proof.
  unfold Num.gt, of_nat, of_Z.
  destruct (Qle_bool (inject_Z (Z.of_nat n)) (inject_Z L)) eqn:E.
  - apply Qle_bool_iff in E. unfold Qle, inject_Z in E. cbn [Qnum Qden] in E.
    symmetry. apply Z.ltb_ge. lia.
  - symmetry. apply Z.ltb_lt.
    destruct (Z.lt_ge_cases L (Z.of_nat n)) as [H|H]; [assumption|].
    assert (Qle_bool (inject_Z (Z.of_nat n)) (inject_Z L) = true); [|congruence].
    apply Qle_bool_iff. unfold Qle, inject_Z. cbn [Qnum Qden]. lia.
Qed.

Lemma substring0_of_Z (s : string) (L : Z) :
  L <= Z.of_nat (String.length s) ->
  Str.substring0 s (of_Z L) = Str.take (Z.to_nat L) s.
Proof.
  intros H.
  unfold Str.substring0, Str.clamp_index, of_Z, Num.Qtrunc, inject_Z.
  cbn [Qnum Qden]. rewrite Z.quot_1_r. f_equal. lia.
Qed.

Lemma take_length (n : nat) (s : string) :
  (n <= String.length s)%nat -> String.length (Str.take n s) = n.
Proof.
  revert s. induction n as [|n IH]; intros [|c s] Hn; simpl in *;
    try reflexivity; try lia.
  rewrite IH by lia. reflexivity.
Qed.

End Digest.

(** C4 fails at the cap 0: [options.length] is then falsy, the digest is
    not cut, and the result is not the empty prefix. *)
Lemma truncation_cap_zero_keeps_digest :
  let d := [of_Z 1; of_Z 2] in
  let full :=
    FaceHashGenerator.generateFaceHash d
      {| FaceHashGenerator.type := FaceHashGenerator.simple;
         FaceHashGenerator.length := None |} in
  full = "0000bd77e8d0"%string
  /\ (0 < Z.of_nat (String.length full))%Z
  /\ FaceHashGenerator.generateFaceHash d
       {| FaceHashGenerator.type := FaceHashGenerator.simple;
          FaceHashGenerator.length := Some (of_Z 0) |}
     = "0000bd77e8d0"%string
  /\ FaceHashGenerator.generateFaceHash d
       {| FaceHashGenerator.type := FaceHashGenerator.simple;
          FaceHashGenerator.length := Some (of_Z 0) |}
     <> Str.take (Z.to_nat 0) full.
Proof.
  vm_compute. repeat split; try reflexivity. discriminate.
Qed.

(** C4, as the code has it: for every descriptor, every algorithm and
    every integer cap [L] other than 0 that is below the length of the
    digest, the capped digest is the first [L] characters of the uncapped
    one (none when [L] is negative). *)
Theorem truncation_is_prefix (d : FaceHashGenerator.Float32Array)
  (ty : FaceHashGenerator.HashType) (L : Z) :
  L <> 0%Z ->
  (L < Z.of_nat (String.length
                   (FaceHashGenerator.generateFaceHash d
                      {| FaceHashGenerator.type := ty;
                         FaceHashGenerator.length := None |})))%Z ->
  FaceHashGenerator.generateFaceHash d
    {| FaceHashGenerator.type := ty; FaceHashGenerator.length := Some (of_Z L) |}
  = Str.take (Z.to_nat L)
      (FaceHashGenerator.generateFaceHash d
         {| FaceHashGenerator.type := ty; FaceHashGenerator.length := None |}).
Proof.
  unfold FaceHashGenerator.generateFaceHash.
  cbn [FaceHashGenerator.type FaceHashGenerator.length].
  set (hash := match ty with
               | FaceHashGenerator.simple => _
               | FaceHashGenerator.sha256 => _
               | FaceHashGenerator.md5 => _
               | FaceHashGenerator.base64 => _
               | FaceHashGenerator.hex => _
               end).
  intros HL Hlt.
  rewrite truthy_of_Z, gt_of_nat_of_Z.
  destruct (Z.eqb_spec L 0) as [|_]; [contradiction|].
  destruct (Z.ltb_spec L (Z.of_nat (String.length hash))) as [_|]; [|lia].
  cbn [negb andb]. apply substring0_of_Z. lia.
Qed.

Lemma truncation_is_prefix_witness :
  FaceHashGenerator.generateFaceHash [of_Z 1; of_Z 2]
    {| FaceHashGenerator.type := FaceHashGenerator.simple;
       FaceHashGenerator.length := Some (of_Z 5) |}
  = "0000b"%string.
Proof.
  rewrite (truncation_is_prefix [of_Z 1; of_Z 2] FaceHashGenerator.simple 5).
  - reflexivity.
  - discriminate.
  - vm_compute. reflexivity.
Defined.


(** ** The map of the in-memory store *)

Section MapLaws.

Context {V : Type}.

Implicit Types (m : JSMap.t V) (k : string) (v : V).

Lemma get_set_same k v m : JSMap.get k (JSMap.set k v m) = Some v.
Proof.
  induction m as [|[k' v'] m IH]; simpl.
  - now rewrite String.eqb_refl.
  - destruct (String.eqb k' k) eqn:E; simpl.
    + now rewrite String.eqb_refl.
    + now rewrite E.
Qed.

Lemma get_set_other k k' v m :
  k' <> k -> JSMap.get k' (JSMap.set k v m) = JSMap.get k' m.
Proof.
  intros Hne. induction m as [|[k0 v0] m IH]; simpl.
  - destruct (String.eqb_spec k k'); [congruence | reflexivity].
  - destruct (String.eqb_spec k0 k) as [->|Hk]; simpl.
    + destruct (String.eqb_spec k k'); [congruence|].
      destruct (String.eqb_spec k k'); [congruence | reflexivity].
    + now rewrite IH.
Qed.

Lemma has_in_keys k m : JSMap.has k m = true <-> In k (JSMap.keys m).
Proof.
  unfold JSMap.has. induction m as [|[k' v'] m IH]; simpl.
  - split; [discriminate | contradiction].
  - destruct (String.eqb_spec k' k) as [->|Hk].
    + split; auto.
    + rewrite IH. split; [auto | intros [?|?]; [contradiction | assumption]].
Qed.

Lemma keys_set k v m :
  JSMap.keys (JSMap.set k v m)
  = if JSMap.has k m then JSMap.keys m else (JSMap.keys m ++ [k])%list.
Proof.
  unfold JSMap.has. induction m as [|[k' v'] m IH]; simpl; [reflexivity|].
  destruct (String.eqb_spec k' k) as [->|Hk]; simpl; [reflexivity|].
  rewrite IH. now destruct (JSMap.get k m).
Qed.

Lemma length_set k v m :
  List.length (JSMap.set k v m)
  = if JSMap.has k m then List.length m else S (List.length m).
Proof.
  unfold JSMap.has. induction m as [|[k' v'] m IH]; simpl; [reflexivity|].
  destruct (String.eqb_spec k' k) as [->|Hk]; simpl; [reflexivity|].
  rewrite IH. now destruct (JSMap.get k m).
Qed.

Lemma NoDup_keys_set k v m :
  NoDup (JSMap.keys m) -> NoDup (JSMap.keys (JSMap.set k v m)).
Proof.
  intros H. rewrite keys_set.
  destruct (JSMap.has k m) eqn:E; [assumption|].
  apply NoDup_app; [assumption | repeat constructor; intros [] |].
  intros x Hx [<-|[]].
  apply has_in_keys in Hx. congruence.
Qed.

Lemma in_keys_delete k x m :
  In x (JSMap.keys (JSMap.delete k m)) -> In x (JSMap.keys m).
Proof.
  induction m as [|[k' v'] m IH]; simpl; [auto|].
  destruct (String.eqb k' k); simpl; intuition.
Qed.

Lemma NoDup_keys_delete k m :
  NoDup (JSMap.keys m) -> NoDup (JSMap.keys (JSMap.delete k m)).
Proof.
  induction m as [|[k' v'] m IH]; simpl; intros H; [constructor|].
  inversion H as [|? ? Hn Hd]; subst.
  destruct (String.eqb k' k); simpl; [assumption|].
  constructor; [|now apply IH].
  intros Hin. apply Hn. now apply in_keys_delete in Hin.
Qed.

End MapLaws.

Section Occurrences.

Local Open Scope nat_scope.

Lemma filter_absent (u : string) (l : list string) :
  ~ In u l -> List.filter (String.eqb u) l = [].
Proof.
  induction l as [|x l IH]; simpl; intros H; [reflexivity|].
  destruct (String.eqb_spec u x) as [->|Hx]; [exfalso; auto|].
  apply IH. auto.
Qed.

Lemma NoDup_at_most_once (u : string) (l : list string) :
  NoDup l -> List.length (List.filter (String.eqb u) l) <= 1.
Proof.
  induction 1 as [|x l Hn Hd IH]; simpl; [lia|].
  destruct (String.eqb_spec u x) as [->|Hx]; [|assumption].
  rewrite filter_absent by assumption. simpl. lia.
Qed.

Lemma NoDup_exactly_once (u : string) (l : list string) :
  NoDup l -> In u l -> List.length (List.filter (String.eqb u) l) = 1.
Proof.
  induction 1 as [|x l Hn Hd IH]; simpl; [contradiction|].
  intros [->|Hin].
  - rewrite String.eqb_refl, filter_absent by assumption. reflexivity.
  - destruct (String.eqb_spec u x) as [->|Hx]; [contradiction | auto].
Qed.

End Occurrences.

Section Store.

Import FaceDatabase.

(** Every method keeps the identifiers of the store pairwise distinct. *)
Lemma step_keeps_distinct (w : World) (c : Calls.call) :
  NoDup (JSMap.keys (faces w)) -> NoDup (JSMap.keys (faces (Calls.step w c))).
Proof.
  intros H. destruct c as [u h m|u|u h t| |u]; simpl; try assumption.
  - now apply NoDup_keys_set.
  - unfold validateFaceHash.
    destruct (JSMap.get u (faces w)); simpl; [|assumption].
    destruct (Num.ge _ _); simpl; [|assumption].
    now apply NoDup_keys_set.
  - now apply NoDup_keys_delete.
Qed.

Lemma run_keeps_distinct (calls : list Calls.call) (w : World) :
  NoDup (JSMap.keys (faces w)) ->
  NoDup (JSMap.keys (faces (fold_left Calls.step calls w))).
Proof.
  revert w. induction calls as [|c calls IH]; intros w H; simpl; [assumption|].
  apply IH. now apply step_keeps_distinct.
Qed.

End Store.

(** C7: after any sequence of calls the store holds at most one record
    per identifier; saving under an identifier already present replaces
    its record, the number of records staying the same, and a [getFaceHash]
    that follows returns the record just saved, with its digest and
    metadata. *)
Theorem one_record_per_identifier (c : Clock) (calls : list Calls.call) :
  let w := Calls.run c calls in
  NoDup (JSMap.keys (FaceDatabase.faces w))
  /\ (forall u, (Calls.records_for u w <= 1)%nat)
  /\ forall u h m,
       let saved := FaceDatabase.saveFaceHash u h m w in
       Calls.records_for u (snd saved) = 1%nat
       /\ List.length (FaceDatabase.faces (snd saved))
          = (if JSMap.has u (FaceDatabase.faces w)
             then List.length (FaceDatabase.faces w)
             else S (List.length (FaceDatabase.faces w)))
       /\ FaceDatabase.getFaceHash u (snd saved) = Some (fst saved)
       /\ FaceDatabase.hash (fst saved) = h
       /\ FaceDatabase.metadata (fst saved) = m
       /\ FaceDatabase.userId (fst saved) = u.
Proof.
  intros w.
  assert (Hnd : NoDup (JSMap.keys (FaceDatabase.faces w))).
  { apply run_keeps_distinct. constructor. }
  split; [exact Hnd|].
  split; [intros u; now apply NoDup_at_most_once|].
  intros u h m saved. subst saved.
  unfold FaceDatabase.saveFaceHash, Calls.records_for,
    FaceDatabase.getFaceHash; simpl.
  repeat split.
  - apply NoDup_exactly_once; [now apply NoDup_keys_set|].
    apply has_in_keys. unfold JSMap.has. now rewrite get_set_same.
  - apply length_set.
  - apply get_set_same.
Qed.

Section Validation.

Import FaceDatabase.

(** Replacing the record of [u] by a copy with a new [lastUsed] changes
    nothing else in the map. *)
Lemma set_touch_frame (u : string) (r : FaceRecord) (t : timestamp)
  (m : JSMap.t FaceRecord) :
  JSMap.get u m = Some r ->
  Forall2 (only_lastUsed_of u) m (JSMap.set u (touch r t) m).
Proof.
  assert (Hrefl : forall l : JSMap.t FaceRecord,
             Forall2 (only_lastUsed_of u) l l).
  { induction l as [|e l IH]; constructor; [|assumption].
    repeat split. }
  induction m as [|[k r0] m IH]; simpl; [discriminate|].
  destruct (String.eqb_spec k u) as [->|Hk].
  - intros [= ->]. constructor; [|apply Hrefl].
    repeat split. simpl. congruence.
  - intros Hget. constructor; [|now apply IH].
    repeat split.
Qed.

End Validation.

(** C10: [validateFaceHash] answers [valid = true] exactly when a record
    is filed under the identifier and the comparator, applied to the stored
    digest and the input, is at or above the threshold: the one the caller
    passes, or 0.8 when the caller passes none.  An answer that is not
    valid leaves the whole store as it was; a valid one changes, entry by
    entry, nothing but the [lastUsed] field of the record of that
    identifier. *)
Theorem validateFaceHash_frame (w : FaceDatabase.World) (u h : string)
  (t : option number) :
  let res := FaceDatabase.validateFaceHash u h t w in
  let limit := match t with
               | Some x => x
               | None => Fin (Num.fl (8 # 10))
               end in
  (valid (fst res) = true <->
   exists r, FaceDatabase.getFaceHash u w = Some r
             /\ Num.ge (FaceDatabase.compareHashes (FaceDatabase.hash r) h)
                       limit = true)
  /\ (valid (fst res) = false -> snd res = w)
  /\ (valid (fst res) = true ->
      Forall2 (FaceDatabase.only_lastUsed_of u)
        (FaceDatabase.faces w) (FaceDatabase.faces (snd res))
      /\ exists r, FaceDatabase.getFaceHash u (snd res) = Some r
                   /\ FaceDatabase.lastUsed r
                      = reading (FaceDatabase.clock w)
                                (ticks (FaceDatabase.clock w))).
Proof.
  unfold FaceDatabase.validateFaceHash, FaceDatabase.getFaceHash.
  destruct (JSMap.get u (FaceDatabase.faces w)) as [r|] eqn:Hget; cbn zeta.
  - change (or_default t)
      with (match t with Some x => x | None => Fin (Num.fl (8 # 10)) end).
    destruct (Num.ge (FaceDatabase.compareHashes (FaceDatabase.hash r) h)
                     (match t with
                      | Some x => x
                      | None => Fin (Num.fl (8 # 10))
                      end)) eqn:Hge; cbn [fst snd valid].
    + repeat split; try discriminate.
      * exists r. split; [reflexivity | assumption].
      * simpl. now apply set_touch_frame.
      * simpl. eexists. split; [apply get_set_same | reflexivity].
    + repeat split; try discriminate.
      intros (r' & [= <-] & Hr'). congruence.
  - cbn [fst snd valid]. repeat split; try discriminate.
    intros (r' & Hr' & _). discriminate.
Qed.

Section Recognition.

Import MongoDBFaceDatabase.

(** The loop returns at the first document whose similarity reaches the
    threshold. *)
Lemma scan_first_match (users : list UserDoc) (h : string) (t : number) :
  (exists pre user post,
      users = (pre ++ user :: post)%list
      /\ Forall (fun d => Num.ge (compareHashes (hash d) h) t = false) pre
      /\ Num.ge (compareHashes (hash user) h) t = true
      /\ scan users h t
         = Some {| match_userId := userId user;
                   match_similarity := compareHashes (hash user) h;
                   match_metadata := metadata user |})
  \/ (Forall (fun d => Num.ge (compareHashes (hash d) h) t = false) users
      /\ scan users h t = None).
Proof.
  induction users as [|d users IH]; simpl.
  - right. split; constructor.
  - destruct (Num.ge (compareHashes (hash d) h) t) eqn:E.
    + left. exists [], d, users. repeat split; [constructor | assumption].
    + destruct IH as [(pre & user & post & -> & Hpre & Hu & Hs)|[Hall Hs]].
      * left. exists (d :: pre), user, post.
        repeat split; [constructor; assumption | assumption | assumption].
      * right. split; [constructor; assumption | assumption].
Qed.

(** The same result, read as a search through the whole collection. *)
Lemma scan_find (users : list UserDoc) (h : string) (t : number) :
  scan users h t
  = option_map
      (fun user => {| match_userId := userId user;
                      match_similarity := compareHashes (hash user) h;
                      match_metadata := metadata user |})
      (List.find (fun d => Num.ge (compareHashes (hash d) h) t) users).
Proof.
  induction users as [|d users IH]; simpl; [reflexivity|].
  destruct (Num.ge (compareHashes (hash d) h) t); [reflexivity | exact IH].
Qed.

(** Whatever follows the first record that reaches the threshold has no
    part in the answer. *)
Lemma scan_stops (pre : list UserDoc) (user : UserDoc) (post : list UserDoc)
  (h : string) (t : number) :
  Forall (fun d => Num.ge (compareHashes (hash d) h) t = false) pre ->
  Num.ge (compareHashes (hash user) h) t = true ->
  scan (pre ++ user :: post) h t
  = Some {| match_userId := userId user;
            match_similarity := compareHashes (hash user) h;
            match_metadata := metadata user |}.
Proof.
  intros Hpre Hu. induction Hpre as [|d pre Hd _ IH]; simpl.
  - now rewrite Hu.
  - now rewrite Hd.
Qed.

End Recognition.

(** C6: on a collection within reach, [findUserByHash] compares the input
    digest with the stored digests in order through the comparator and
    returns the first record whose similarity is at or above the threshold
    (its identifier, similarity and metadata), the threshold being the one
    the caller passes, or 0.8 when the caller passes none: the result of
    searching the whole collection for such a record, every record before
    it being below the threshold and the records after it having no part
    in the answer.  It returns null exactly when no stored digest reaches
    the threshold.  The collection is not changed. *)
Theorem findUserByHash_first_match (w : MongoDBFaceDatabase.World)
  (h : string) (t : option number) :
  MongoDBFaceDatabase.fault w = None ->
  let res := MongoDBFaceDatabase.findUserByHash h t w in
  let limit := match t with
               | Some x => x
               | None => Fin (Num.fl (8 # 10))
               end in
  let reaches d :=
    Num.ge (MongoDBFaceDatabase.compareHashes (MongoDBFaceDatabase.hash d) h)
           limit in
  let found user :=
    {| MongoDBFaceDatabase.match_userId := MongoDBFaceDatabase.userId user;
       MongoDBFaceDatabase.match_similarity :=
         MongoDBFaceDatabase.compareHashes (MongoDBFaceDatabase.hash user) h;
       MongoDBFaceDatabase.match_metadata :=
         MongoDBFaceDatabase.metadata user |} in
  snd res = w
  /\ fst res
     = Return (option_map found
                 (List.find reaches (MongoDBFaceDatabase.docs w)))
  /\ ((exists pre user post,
          MongoDBFaceDatabase.docs w = (pre ++ user :: post)%list
          /\ Forall (fun d => reaches d = false) pre
          /\ reaches user = true
          /\ fst res = Return (Some (found user))
          /\ forall post',
               fst (MongoDBFaceDatabase.findUserByHash h t
                      (MongoDBFaceDatabase.with_docs w
                         (pre ++ user :: post')%list))
               = Return (Some (found user)))
      \/ (Forall (fun d => reaches d = false) (MongoDBFaceDatabase.docs w)
          /\ fst res = Return None))
  /\ (fst res = Return None
      <-> Forall (fun d => reaches d = false) (MongoDBFaceDatabase.docs w)).
Proof.
  intros Hfault.
  unfold MongoDBFaceDatabase.findUserByHash, Outcome.bind, Outcome.ret,
    MongoDBFaceDatabase.driver, MongoDBFaceDatabase.with_docs.
  cbn [MongoDBFaceDatabase.fault MongoDBFaceDatabase.docs].
  rewrite Hfault. cbn [fst snd].
  change (or_default t)
    with (match t with Some x => x | None => Fin (Num.fl (8 # 10)) end).
  set (limit := match t with Some x => x | None => Fin (Num.fl (8 # 10)) end).
  split; [reflexivity|].
  split; [now rewrite scan_find|].
  destruct (scan_first_match (MongoDBFaceDatabase.docs w) h limit)
    as [(pre & user & post & Hd & Hpre & Hu & Hs)|[Hall Hs]].
  - split.
    + left. exists pre, user, post. rewrite Hs.
      repeat split; try assumption.
      intros post'. now rewrite (scan_stops pre user post' h limit Hpre Hu).
    + rewrite Hs. split; [discriminate|].
      intros Hall. rewrite Hd in Hall.
      apply Forall_app in Hall. destruct Hall as [_ Hall].
      inversion Hall; subst. congruence.
  - split.
    + right. rewrite Hs. auto.
    + rewrite Hs. split; [intros _; exact Hall | reflexivity].
Qed.

(** On the sample collection the input is the digest of the second user.
    With no threshold given the first user is returned, its digest
    reaching 0.8 at 7/8; with the threshold 0.9 the first user is passed
    over and the second is returned. *)
Lemma findUserByHash_first_match_witness :
  fst (MongoDBFaceDatabase.findUserByHash "a52685bf" None Sample.mongo)
  = Return (Some {| MongoDBFaceDatabase.match_userId := "joao";
                    MongoDBFaceDatabase.match_similarity := Fin (7 # 8);
                    MongoDBFaceDatabase.match_metadata :=
                      [("name"%string, VString "Joao Silva")] |})
  /\ snd (MongoDBFaceDatabase.findUserByHash "a52685bf" None Sample.mongo)
     = Sample.mongo
  /\ fst (MongoDBFaceDatabase.findUserByHash "a52685bf"
            (Some (Fin (Num.fl (9 # 10)))) Sample.mongo)
     = Return (Some {| MongoDBFaceDatabase.match_userId := "maria";
                       MongoDBFaceDatabase.match_similarity := Fin 1;
                       MongoDBFaceDatabase.match_metadata :=
                         [("name"%string, VString "Maria Santos")] |})
  /\ snd (MongoDBFaceDatabase.findUserByHash "a52685bf"
            (Some (Fin (Num.fl (9 # 10)))) Sample.mongo)
     = Sample.mongo.
Proof.
  pose proof (findUserByHash_first_match Sample.mongo "a52685bf" None eq_refl)
    as H.
  pose proof (findUserByHash_first_match Sample.mongo "a52685bf"
                (Some (Fin (Num.fl (9 # 10)))) eq_refl) as H'.
  cbv zeta in H, H'. destruct H as [H _]. destruct H' as [H' _].
  split; [vm_compute; reflexivity|].
  split; [exact H|].
  split; [vm_compute; reflexivity | exact H'].
Defined.

(** C8: when the image loads and the detector reports no face, a
    registration or validation call (and the recognition call of the
    MongoDB variant) ends by throwing the error whose message is
    'Nenhuma face detectada na imagem', and the store is left as it was:
    nothing is saved and nothing is compared. *)
Theorem no_face_is_thrown {api : FaceApi} (u p : string) (m : object)
  (img : Image) :
  loadImage p = Return img ->
  detectSingleFace img = Return None ->
  (forall w, FaceValidationSystem.registerUser u p m w = (Throw no_face_error, w))
  /\ (forall w, FaceValidationSystem.validateUser u p w = (Throw no_face_error, w))
  /\ (forall w, MongoDBFaceValidationSystem.registerUser u p m w
                = (Throw no_face_error, w))
  /\ (forall w, MongoDBFaceValidationSystem.validateUser u p w
                = (Throw no_face_error, w))
  /\ (forall w, MongoDBFaceValidationSystem.recognizeUser p w
                = (Throw no_face_error, w))
  /\ message no_face_error = "Nenhuma face detectada na imagem"%string.
Proof.
  intros Hload Hdetect.
  unfold FaceValidationSystem.registerUser, FaceValidationSystem.validateUser,
    MongoDBFaceValidationSystem.registerUser,
    MongoDBFaceValidationSystem.validateUser,
    MongoDBFaceValidationSystem.recognizeUser,
    Outcome.bind, Outcome.pure_call, Outcome.throw.
  rewrite Hload, Hdetect. repeat split.
Qed.

Lemma no_face_is_thrown_witness :
  FaceValidationSystem.registerUser (api := Sample.api)
    "pedro" "../images/empty.jpg" [] (FaceDatabase.create Sample.clock)
  = (Throw no_face_error, FaceDatabase.create Sample.clock)
  /\ FaceValidationSystem.validateUser (api := Sample.api)
       "pedro" "../images/empty.jpg" (FaceDatabase.create Sample.clock)
     = (Throw no_face_error, FaceDatabase.create Sample.clock).
Proof.
  destruct (no_face_is_thrown (api := Sample.api) "pedro" "../images/empty.jpg"
              [] "../images/empty.jpg"%string eq_refl eq_refl)
    as (H1 & H2 & _).
  split; [apply H1 | apply H2].
Defined.

Section ObjectsOfACall.

Import Objects.

Lemma nth_error_fresh (l : list obj) (o : obj) (m : list obj) :
  nth_error (l ++ o :: m) (List.length l) = Some o.
Proof.
  rewrite nth_error_app2 by apply Nat.le_refl.
  now rewrite Nat.sub_diag.
Qed.

Lemma nth_error_older (l m : list obj) (r : ref) (o : obj) :
  nth_error l r = Some o -> nth_error (l ++ m) r = Some o.
Proof.
  intros H. rewrite nth_error_app1; [assumption|].
  apply nth_error_Some. congruence.
Qed.

Lemma put_fresh (l : list obj) (o o' : obj) (m : list obj) :
  put (List.length l) o' (l ++ o :: m) = (l ++ o' :: m)%list.
Proof.
  induction l as [|x l IH]; simpl; [reflexivity | now rewrite IH].
Qed.

(** What a call of a generator leaves behind: the digest, and two new
    objects after those that existed. *)
Lemma generateFaceHash_run (w : World) (d : ref) (xs : list number)
  (o : FaceHashGenerator.HashOptions) :
  deref d w = Some (Float32 xs) ->
  exists a b,
    FaceHashGeneratorCalls.generateFaceHash d o w
    = (Return (FaceHashGenerator.generateFaceHash xs o),
       {| heap := (heap w ++ [a; b])%list; clock := clock w |}).
Proof.
  destruct w as [hp c]. unfold deref. cbn [heap clock]. intros Hd.
  pose proof (nth_error_older hp [Numbers xs] d _ Hd) as Hd'.
  unfold FaceHashGeneratorCalls.generateFaceHash,
    FaceHashGenerator.generateFaceHash.
  destruct (FaceHashGenerator.type o);
    unfold FaceHashGeneratorCalls.generateSimpleHash,
      FaceHashGeneratorCalls.generateSHA256Hash,
      FaceHashGeneratorCalls.generateMD5Hash,
      FaceHashGeneratorCalls.generateBase64Hash,
      FaceHashGeneratorCalls.generateHexHash,
      Array_from, join, map, slice, reduce, createHash, update, digest,
      Buffer_from, toString_base64, assign, load, alloc, deref,
      Outcome.bind, Outcome.ret;
    cbn [heap clock]; rewrite Hd; cbv beta iota; cbn [heap clock];
    rewrite nth_error_fresh; cbv beta iota; cbn [heap clock].
  - rewrite Hd'. cbv beta iota. cbn [heap clock].
    rewrite nth_error_fresh. cbv beta iota.
    exists (Numbers xs), (Float32 (firstn 16 xs)).
    rewrite <- app_assoc. reflexivity.
  - rewrite nth_error_fresh. cbv beta iota. cbn [heap clock].
    rewrite put_fresh, nth_error_fresh. cbv beta iota. cbn [heap clock].
    rewrite put_fresh.
    eexists (Numbers xs), _. rewrite <- app_assoc. reflexivity.
  - rewrite nth_error_fresh. cbv beta iota. cbn [heap clock].
    rewrite put_fresh, nth_error_fresh. cbv beta iota. cbn [heap clock].
    rewrite put_fresh.
    eexists (Numbers xs), _. rewrite <- app_assoc. reflexivity.
  - rewrite nth_error_fresh. cbv beta iota.
    eexists (Numbers xs), _. rewrite <- app_assoc. reflexivity.
  - rewrite nth_error_fresh. cbv beta iota.
    eexists (Numbers xs), _. rewrite <- app_assoc. reflexivity.
Qed.

End ObjectsOfACall.

(** C5: two calls of the digest generator on the same descriptor, the
    second in the state the first has left, return the same string, for
    every algorithm selector and every cap: the string computed from the
    elements of the descriptor and from nothing else.  A call creates two
    objects of its own; it changes no object that existed, the descriptor
    least of all, and it does not read the clock.  In any other state, on
    any descriptor with the same elements, the call returns the same
    string.  The SHA-256 generator of the validation system behaves
    likewise. *)
Theorem digest_deterministic (w : Objects.World) (d : Objects.ref)
  (xs : list number) (o : FaceHashGenerator.HashOptions) :
  Objects.deref d w = Some (Objects.Float32 xs) ->
  let first := FaceHashGeneratorCalls.generateFaceHash d o w in
  let second := FaceHashGeneratorCalls.generateFaceHash d o (snd first) in
  fst first = Return (FaceHashGenerator.generateFaceHash xs o)
  /\ fst second = fst first
  /\ List.length (Objects.heap (snd first))
     = (2 + List.length (Objects.heap w))%nat
  /\ (forall r ob,
        Objects.deref r w = Some ob ->
        Objects.deref r (snd first) = Some ob
        /\ Objects.deref r (snd second) = Some ob)
  /\ Objects.clock (snd first) = Objects.clock w
  /\ Objects.clock (snd second) = Objects.clock w
  /\ (forall w' d',
        Objects.deref d' w' = Some (Objects.Float32 xs) ->
        fst (FaceHashGeneratorCalls.generateFaceHash d' o w') = fst first)
  /\ (let once := FaceHashGeneratorCalls.generateValidationHash d w in
      let again := FaceHashGeneratorCalls.generateValidationHash d (snd once) in
      fst once = Return (FaceValidationSystem.generateValidationHash xs)
      /\ fst again = fst once).
Proof.
  intros Hd first second.
  assert (Hold : forall (v : Objects.World) new r ob,
             Objects.deref r v = Some ob ->
             Objects.deref r {| Objects.heap := (Objects.heap v ++ new)%list;
                                Objects.clock := Objects.clock v |} = Some ob).
  { intros v new r ob H. unfold Objects.deref in *. cbn [Objects.heap].
    now apply nth_error_older. }
  destruct (generateFaceHash_run w d xs o Hd) as (a & b & H1).
  destruct (generateFaceHash_run _ d xs o (Hold w [a; b] d _ Hd))
    as (a' & b' & H2).
  subst first second. rewrite H1. cbn [fst snd]. rewrite H2.
  cbn [fst snd Objects.heap Objects.clock].
  split; [reflexivity|]. split; [reflexivity|].
  split; [rewrite length_app; simpl; apply Nat.add_comm|].
  split.
  { intros r ob Hr. split; [now apply Hold|].
    apply (Hold {| Objects.heap := (Objects.heap w ++ [a; b])%list;
                   Objects.clock := Objects.clock w |} [a'; b']).
    now apply Hold. }
  split; [reflexivity|]. split; [reflexivity|].
  split.
  { intros w' d' Hd'.
    destruct (generateFaceHash_run w' d' xs o Hd') as (a0 & b0 & H0).
    now rewrite H0. }
  assert (Hsha : forall v, Objects.deref d v = Some (Objects.Float32 xs) ->
             exists a b,
               FaceHashGeneratorCalls.generateSHA256Hash d v
               = (Return (FaceValidationSystem.generateValidationHash xs),
                  {| Objects.heap := (Objects.heap v ++ [a; b])%list;
                     Objects.clock := Objects.clock v |})).
  { intros v Hv.
    destruct (generateFaceHash_run v d xs
                {| FaceHashGenerator.type := FaceHashGenerator.sha256;
                   FaceHashGenerator.length := None |} Hv) as (a0 & b0 & H0).
    exists a0, b0.
    unfold FaceHashGeneratorCalls.generateFaceHash, Outcome.bind, Outcome.ret
      in H0.
    cbn [FaceHashGenerator.type FaceHashGenerator.length] in H0.
    destruct (FaceHashGeneratorCalls.generateSHA256Hash d v) as [[s|e] v'];
      [exact H0 | discriminate H0]. }
  unfold FaceHashGeneratorCalls.generateValidationHash.
  destruct (Hsha w Hd) as (a0 & b0 & H3).
  destruct (Hsha _ (Hold w [a0; b0] d _ Hd)) as (a1 & b1 & H4).
  rewrite H3. cbn [fst snd]. rewrite H4. split; reflexivity.
Qed.

(** Two calls on the example descriptor, SHA-256 cut to 32 characters:
    the second call finds the Array and the [Hash] object of the first
    among the objects, and returns the same string. *)
Lemma digest_deterministic_witness :
  fst (FaceHashGeneratorCalls.generateFaceHash 0%nat
         {| FaceHashGenerator.type := FaceHashGenerator.sha256;
            FaceHashGenerator.length := Some (of_Z 32) |}
         (snd (FaceHashGeneratorCalls.generateFaceHash 0%nat
                 {| FaceHashGenerator.type := FaceHashGenerator.sha256;
                    FaceHashGenerator.length := Some (of_Z 32) |}
                 FaceHashGeneratorCalls.example_world)))
  = fst (FaceHashGeneratorCalls.generateFaceHash 0%nat
           {| FaceHashGenerator.type := FaceHashGenerator.sha256;
              FaceHashGenerator.length := Some (of_Z 32) |}
           FaceHashGeneratorCalls.example_world)
  /\ List.length
       (Objects.heap
          (snd (FaceHashGeneratorCalls.generateFaceHash 0%nat
                  {| FaceHashGenerator.type := FaceHashGenerator.sha256;
                     FaceHashGenerator.length := Some (of_Z 32) |}
                  FaceHashGeneratorCalls.example_world)))
     = 3%nat.
Proof.
  destruct (digest_deterministic FaceHashGeneratorCalls.example_world 0%nat
              FaceHashGenerator.example_descriptor
              {| FaceHashGenerator.type := FaceHashGenerator.sha256;
                 FaceHashGenerator.length := Some (of_Z 32) |} eq_refl)
    as (_ & Hsame & Hlen & _).
  split; [exact Hsame | exact Hlen].
Defined.

(* ================================================================== *)
(** * Further properties of the code *)
(* ================================================================== *)

Section DigestLength.

Import Crypto.

Local Open Scope nat_scope.

Lemma sha256_round_length (st : list Z) (kw : Z * Z) :
  List.length st = 8 -> List.length (sha256_round st kw) = 8.
Proof.
  intros H.
  do 9 (destruct st as [|? st]; try discriminate H).
  reflexivity.
Qed.

Lemma sha256_block_length (h block : list Z) :
  List.length h = 8 -> List.length (sha256_block h block) = 8.
Proof.
  intros H. unfold sha256_block.
  rewrite length_map, length_combine, H.
  rewrite (fold_left_invariant (fun st => List.length st = 8) sha256_round);
    [reflexivity | | assumption].
  intros st kw Hst. now apply sha256_round_length.
Qed.

Lemma be_bytes_length (count : nat) (x : Z) :
  List.length (be_bytes count x) = count.
Proof. unfold be_bytes. now rewrite length_map, length_rev, length_seq. Qed.

Lemma flat_map_length_const {A B : Type} (f : A -> list B) (n : nat)
  (l : list A) :
  (forall a, List.length (f a) = n) ->
  List.length (flat_map f l) = n * List.length l.
Proof.
  intros Hf. induction l as [|a l IH]; simpl; [lia|].
  rewrite length_app, Hf, IH. lia.
Qed.

Lemma concat_empty_cons (x : string) (l : list string) :
  String.concat "" (x :: l) = (x ++ String.concat "" l)%string.
Proof.
  destruct l as [|y l]; simpl; [now rewrite append_empty_r | reflexivity].
Qed.

Lemma hex_of_octets_length (bs : list Z) :
  String.length (hex_of_octets bs) = 2 * List.length bs.
Proof.
  unfold hex_of_octets.
  induction bs as [|b bs IH]; [reflexivity|].
  cbn [List.map List.length].
  rewrite concat_empty_cons, append_length, IH. simpl. lia.
Qed.

Lemma sha256_length (msg : list Z) : List.length (sha256 msg) = 32.
Proof.
  unfold sha256.
  rewrite (flat_map_length_const (be_bytes 4) 4) by (intro; apply be_bytes_length).
  rewrite (fold_left_invariant (fun st => List.length st = 8) sha256_block);
    [reflexivity | | reflexivity].
  intros h block Hh. now apply sha256_block_length.
Qed.

Lemma sha256_hex_length (s : string) : String.length (sha256_hex s) = 64.
Proof.
  unfold sha256_hex. now rewrite hex_of_octets_length, sha256_length.
Qed.

End DigestLength.

(** X1: the SHA-256 digest of a descriptor is always 64 characters long. *)
Theorem generateSHA256Hash_length (d : list number) :
  String.length (FaceValidationSystem.generateSHA256Hash d) = 64%nat
  /\ String.length (FaceHashGenerator.generateSHA256Hash d) = 64%nat.
Proof.
  unfold FaceValidationSystem.generateSHA256Hash,
    FaceHashGenerator.generateSHA256Hash.
  split; apply sha256_hex_length.
Qed.

(** X2: the comparator does not depend on the order of its arguments. *)
Theorem compareHashes_symmetric (h1 h2 : string) :
  FaceHashGenerator.compareHashes h1 h2 = FaceHashGenerator.compareHashes h2 h1.
Proof.
  assert (Hm : forall a b, FaceHashGenerator.matching_positions a b
                           = FaceHashGenerator.matching_positions b a).
  { induction a as [|x a IH]; intros [|y b]; simpl; try reflexivity.
    now rewrite IH, Ascii.eqb_sym. }
  unfold FaceHashGenerator.compareHashes.
  destruct (Nat.eq_dec (String.length h1) (String.length h2)) as [E|E].
  - rewrite (compareHashes_run_same_length h1 h2 E).
    rewrite (compareHashes_run_same_length h2 h1 (eq_sym E)).
    cbn [fst]. now rewrite Hm, E.
  - unfold FaceHashGenerator.compareHashes_run.
    destruct (Nat.eqb_spec (String.length h1) (String.length h2));
      [contradiction|].
    destruct (Nat.eqb_spec (String.length h2) (String.length h1));
      [congruence | reflexivity].
Qed.

(** X3: a cap that is at least the length of the digest leaves it whole, and
    a cap strictly between 0 and the length gives a digest of exactly that
    many characters. *)
Theorem generateFaceHash_cap_length (d : FaceHashGenerator.Float32Array)
  (ty : FaceHashGenerator.HashType) (L : Z) :
  let full :=
    FaceHashGenerator.generateFaceHash d
      {| FaceHashGenerator.type := ty; FaceHashGenerator.length := None |} in
  let capped :=
    FaceHashGenerator.generateFaceHash d
      {| FaceHashGenerator.type := ty;
         FaceHashGenerator.length := Some (of_Z L) |} in
  ((Z.of_nat (String.length full) <= L)%Z -> capped = full)
  /\ ((0 < L < Z.of_nat (String.length full))%Z ->
      String.length capped = Z.to_nat L).
Proof.
  unfold FaceHashGenerator.generateFaceHash.
  cbn [FaceHashGenerator.type FaceHashGenerator.length].
  set (hash := match ty with
               | FaceHashGenerator.simple => _
               | FaceHashGenerator.sha256 => _
               | FaceHashGenerator.md5 => _
               | FaceHashGenerator.base64 => _
               | FaceHashGenerator.hex => _
               end).
  clearbody hash. cbn zeta.
  rewrite truthy_of_Z, gt_of_nat_of_Z.
  split; intros H.
  - destruct (Z.ltb_spec L (Z.of_nat (String.length hash))) as [|_]; [lia|].
    now rewrite andb_false_r.
  - destruct (Z.eqb_spec L 0) as [|_]; [lia|].
    destruct (Z.ltb_spec L (Z.of_nat (String.length hash))) as [_|]; [|lia].
    cbn [negb andb]. rewrite substring0_of_Z by lia.
    apply take_length. lia.
Qed.

Section Lifecycle.

Import FaceDatabase.

Lemma get_delete_same {V : Type} (k : string) (m : JSMap.t V) :
  NoDup (JSMap.keys m) -> JSMap.get k (JSMap.delete k m) = None.
Proof.
  induction m as [|[k' v'] m IH]; simpl; intros H; [reflexivity|].
  inversion H as [|? ? Hn Hd]; subst.
  destruct (String.eqb_spec k' k) as [->|Hk].
  - destruct (JSMap.get k m) eqn:E; [|reflexivity].
    exfalso. apply Hn. apply has_in_keys. unfold JSMap.has. now rewrite E.
  - simpl. destruct (String.eqb_spec k' k); [contradiction|]. now apply IH.
Qed.

End Lifecycle.

(** X4: after any sequence of calls, removing an identifier answers whether a
    record was filed under it, and afterwards the identifier is neither
    found nor listed. *)
Theorem removeUser_forgets (c : Clock) (calls : list Calls.call) (u : string) :
  let w := Calls.run c calls in
  let removed := FaceDatabase.removeUser u w in
  fst removed = JSMap.has u (FaceDatabase.faces w)
  /\ FaceDatabase.getFaceHash u (snd removed) = None
  /\ ~ In u (FaceDatabase.listUsers (snd removed)).
Proof.
  intros w removed. subst removed.
  assert (Hnd : NoDup (JSMap.keys (FaceDatabase.faces w))).
  { apply run_keeps_distinct. constructor. }
  unfold FaceDatabase.removeUser, FaceDatabase.getFaceHash,
    FaceDatabase.listUsers. cbn [fst snd FaceDatabase.faces].
  split; [reflexivity|].
  split; [now apply get_delete_same|].
  intros Hin. apply has_in_keys in Hin. unfold JSMap.has in Hin.
  now rewrite get_delete_same in Hin.
Qed.

(** X5: registering a user from an image in which a face is found and then
    validating the same user with the same image succeeds with similarity
    1: the digest is reproduced character for character. *)
Theorem register_then_validate {api : FaceApi} (u p : string) (m : object)
  (img : Image) (det : Detection) (w : FaceDatabase.World) :
  loadImage p = Return img ->
  detectSingleFace img = Return (Some det) ->
  let w1 := snd (FaceValidationSystem.registerUser u p m w) in
  exists v,
    fst (FaceValidationSystem.validateUser u p w1) = Return v
    /\ valid v = true
    /\ similarity v = Some (of_Z 1)
    /\ reason v = reason_valid.
Proof.
  intros Hload Hdetect w1. subst w1.
  unfold FaceValidationSystem.registerUser, FaceValidationSystem.validateUser,
    Outcome.bind, Outcome.pure_call.
  rewrite Hload, Hdetect.
  unfold FaceDatabase.saveFaceHash, FaceDatabase.validateFaceHash.
  cbn [snd fst now FaceDatabase.faces FaceDatabase.clock].
  rewrite get_set_same. cbn [FaceDatabase.hash].
  unfold FaceDatabase.compareHashes, FaceHashGenerator.compareHashes.
  rewrite compareHashes_run_self.
  - eexists. cbn [fst]. split; [reflexivity|]. repeat split.
  - unfold FaceValidationSystem.generateValidationHash,
      FaceValidationSystem.generateSHA256Hash.
    rewrite sha256_hex_length. discriminate.
Qed.

Lemma register_then_validate_witness :
  exists v,
    fst (FaceValidationSystem.validateUser (api := Sample.api)
           "joao" "../images/bbt1.jpg"
           (snd (FaceValidationSystem.registerUser (api := Sample.api)
                   "joao" "../images/bbt1.jpg" []
                   (FaceDatabase.create Sample.clock))))
    = Return v
    /\ valid v = true
    /\ similarity v = Some (of_Z 1)
    /\ reason v = reason_valid.
Proof.
  exact (register_then_validate (api := Sample.api)
           "joao" "../images/bbt1.jpg" [] "../images/bbt1.jpg"%string
           {| descriptor := FaceHashGenerator.example_descriptor;
              score := Fin (fl (95 # 100)) |}
           (FaceDatabase.create Sample.clock) eq_refl eq_refl).
Defined.

(** X6: when the storage layer is out of reach, every method of the MongoDB
    store that calls the driver throws the driver's error as it is, and
    the collection is left as it was. *)
Theorem storage_fault_propagates (w : MongoDBFaceDatabase.World) (e : Error)
  (u h : string) (m : object) (t : option number) :
  MongoDBFaceDatabase.fault w = Some e ->
  MongoDBFaceDatabase.getFaceHash u w = (Throw e, w)
  /\ MongoDBFaceDatabase.validateFaceHash u h t w = (Throw e, w)
  /\ MongoDBFaceDatabase.listUsers w = (Throw e, w)
  /\ MongoDBFaceDatabase.removeUser u w = (Throw e, w)
  /\ MongoDBFaceDatabase.findUserByHash h t w = (Throw e, w)
  /\ fst (MongoDBFaceDatabase.saveFaceHash u h m w) = Throw e
  /\ MongoDBFaceDatabase.docs (snd (MongoDBFaceDatabase.saveFaceHash u h m w))
     = MongoDBFaceDatabase.docs w.
Proof.
  intros Hf.
  unfold MongoDBFaceDatabase.validateFaceHash, MongoDBFaceDatabase.getFaceHash,
    MongoDBFaceDatabase.listUsers, MongoDBFaceDatabase.removeUser,
    MongoDBFaceDatabase.findUserByHash, MongoDBFaceDatabase.saveFaceHash,
    MongoDBFaceDatabase.tick, MongoDBFaceDatabase.driver, Outcome.bind.
  cbn [now MongoDBFaceDatabase.fault MongoDBFaceDatabase.docs fst snd].
  rewrite Hf. repeat split.
Qed.

Lemma storage_fault_propagates_witness :
  MongoDBFaceDatabase.findUserByHash "a52685bf" None
    {| MongoDBFaceDatabase.docs := [];
       MongoDBFaceDatabase.fault := Some {| message := "ECONNREFUSED" |};
       MongoDBFaceDatabase.clock := Sample.clock |}
  = (Throw {| message := "ECONNREFUSED" |},
     {| MongoDBFaceDatabase.docs := [];
        MongoDBFaceDatabase.fault := Some {| message := "ECONNREFUSED" |};
        MongoDBFaceDatabase.clock := Sample.clock |}).
Proof.
  exact (proj1 (proj2 (proj2 (proj2 (proj2
    (storage_fault_propagates
       {| MongoDBFaceDatabase.docs := [];
          MongoDBFaceDatabase.fault := Some {| message := "ECONNREFUSED" |};
          MongoDBFaceDatabase.clock := Sample.clock |}
       {| message := "ECONNREFUSED" |} "joao" "a52685bf" [] None eq_refl)))))).
Defined.

(* ================================================================== *)
(** * The model of the runtime on published values *)
(* ================================================================== *)

(** FIPS 180-4 and RFC 1321 test messages. *)
Example sha256_abc :
  Crypto.sha256_hex "abc"
  = "ba7816bf8f01cfea414140de5dae2223b00361a396177a9cb410ff61f20015ad"%string.
Proof. vm_compute. reflexivity. Qed.

Example sha256_empty :
  Crypto.sha256_hex ""
  = "e3b0c44298fc1c149afbf4c8996fb92427ae41e4649b934ca495991b7852b855"%string.
Proof. vm_compute. reflexivity. Qed.

Example sha256_two_blocks :
  Crypto.sha256_hex "abcdbcdecdefdefgefghfghighijhijkijkljklmklmnlmnomnopnopq"
  = "248d6a61d20638b8e5c026930c3e6039a33ce45964ff2167f6ecedd419db06c1"%string.
Proof. vm_compute. reflexivity. Qed.

Example md5_abc :
  Crypto.md5_hex "abc" = "900150983cd24fb0d6963f7d28e17f72"%string.
Proof. vm_compute. reflexivity. Qed.

Example md5_empty :
  Crypto.md5_hex "" = "d41d8cd98f00b204e9800998ecf8427e"%string.
Proof. vm_compute. reflexivity. Qed.

Example md5_digits :
  Crypto.md5_hex
    "12345678901234567890123456789012345678901234567890123456789012345678901234567890"
  = "57edf4a22be3c955ac49da2e2107b67a"%string.
Proof. vm_compute. reflexivity. Qed.

(** RFC 4648 test vectors. *)
Example base64_vectors :
  List.map Buffer.base64 ["f"; "fo"; "foo"; "foob"; "fooba"; "foobar"]%string
  = ["Zg=="; "Zm8="; "Zm9v"; "Zm9vYg=="; "Zm9vYmE="; "Zm9vYmFy"]%string.
Proof. vm_compute. reflexivity. Qed.

(** The binary64 values of [1 / 10], [0.8] and [2 / 3]. *)
Example fl_known_values :
  Num.fl (1 # 10) = (3602879701896397 # 36028797018963968)
  /\ Num.fl (8 # 10) = (3602879701896397 # 4503599627370496)
  /\ Num.fl (2 # 3) = (6004799503160661 # 9007199254740992).
Proof. vm_compute. repeat split. Qed.

(** [String(x)] on Numbers whose text is well known. *)
Example toString10_known_values :
  List.map Str.toString10
    [of_Z 0; of_Z (-12); Fin (1 # 2); Fin (Num.fl (1 # 10));
     Fin (13421773 # 134217728); of_Z (10 ^ 21);
     Fin (Num.fl (1 # 10000000)); Fin (Num.fl (123456 # 1000)); NaN; PInf]
  = ["0"; "-12"; "0.5"; "0.1"; "0.10000000149011612"; "1e+21"; "1e-7";
     "123.456"; "NaN"; "Infinity"]%string.
Proof. vm_compute. reflexivity. Qed.

(** [x.toString(16)] on integers and on fractions. *)
Example toString16_known_values :
  List.map Str.toString16
    [of_Z 0; of_Z 255; of_Z 2147483648; Fin (1 # 2); Fin (Num.fl (1 # 10))]
  = ["0"; "ff"; "80000000"; "0.8"; "0.1999999999999a"]%string.
Proof. vm_compute. reflexivity. Qed.

(** The digests of [new Float32Array([0.1, -0.2, 0.3])]. *)
Example digests_of_example_descriptor :
  FaceHashGenerator.descriptorString FaceHashGenerator.example_descriptor
  = "0.10000000149011612,-0.20000000298023224,0.30000001192092896"%string
  /\ FaceHashGenerator.rolling_hash
       (FaceHashGenerator.descriptorString FaceHashGenerator.example_descriptor)
     = (-1015244539)%Z
  /\ FaceHashGenerator.generateHexHash FaceHashGenerator.example_descriptor
     = "64.000019c8.00003212c.0000c8"%string
  /\ FaceHashGenerator.generateFaceHash FaceHashGenerator.example_descriptor
       {| FaceHashGenerator.type := FaceHashGenerator.sha256;
          FaceHashGenerator.length := Some (of_Z 16) |}
     = "a52685bd4a9590dc"%string.
Proof. vm_compute. repeat split. Qed.

(* ================================================================== *)
(** * The comparator and the thresholds in full *)
(* ================================================================== *)

Section RoundingBounds.

Local Open Scope Z_scope.

Lemma round_half_even_lower (n d : Z) :
  0 <= n -> 0 < d -> n / d <= Num.round_half_even n d.
Proof.
  intros Hn Hd. unfold Num.round_half_even.
  destruct (2 * (n mod d) <? d); [lia|].
  destruct (d <? 2 * (n mod d)); [lia|].
  destruct (Z.even (n / d)); lia.
Qed.

Lemma floor_log2_ratio_le (a b : Z) :
  Num.floor_log2_ratio a b <= Z.log2 a - Z.log2 b.
Proof. unfold Num.floor_log2_ratio. destruct (_ <? _); lia. Qed.

Lemma floor_log2_ratio_negative (a b : Z) :
  0 < a -> a < b -> Num.floor_log2_ratio a b <= -1.
Proof.
  intros Ha Hab. unfold Num.floor_log2_ratio.
  pose proof (Z.log2_le_mono a b ltac:(lia)) as Hl.
  destruct (Z.eq_dec (Z.log2 a) (Z.log2 b)) as [E|E].
  - rewrite E, Z.sub_diag.
    change (Z.max 0 (- 0)) with 0. change (Z.max 0 0) with 0.
    rewrite Z.pow_0_r, !Z.mul_1_r.
    destruct (Z.ltb_spec a b); lia.
  - destruct (_ <? _); lia.
Qed.

(** A quotient of two different counts up to [2 ^ 53] does not round
    to 1. *)
Lemma round64_below_one (a b : Z) :
  0 < a -> a < b -> b <= 2 ^ 53 -> (Num.round64 a b < 1)%Q.
Proof.
  intros Ha Hab Hb. unfold Num.round64.
  pose proof (floor_log2_ratio_negative a b Ha Hab) as He.
  set (k := 52 - Num.floor_log2_ratio a b).
  assert (Hk : 53 <= k) by (unfold k; lia).
  rewrite (Z.max_r 0 k), (Z.max_l 0 (- k)) by lia.
  rewrite Z.pow_0_r, Z.mul_1_r.
  assert (Hp : 2 ^ 53 <= 2 ^ k) by (apply Z.pow_le_mono_r; lia).
  set (m := Num.round_half_even (a * 2 ^ k) b).
  assert (Hm1 : m <= 2 ^ k - 1) by (apply round_half_even_upper; nia).
  unfold Num.Qpow2.
  destruct (Z.leb_spec 0 (- k)); [lia|].
  rewrite Z.opp_involutive, Qred_correct.
  unfold Qlt, Qmult, inject_Z; simpl.
  rewrite Z2Pos.id by lia. lia.
Qed.

(** A quotient of two positive counts does not round to 0. *)
Lemma round64_positive (a b : Z) :
  0 < a -> a <= b -> (0 < Num.round64 a b)%Q.
Proof.
  intros Ha Hab. unfold Num.round64.
  pose proof (floor_log2_ratio_le a b) as He.
  pose proof (Z.log2_le_mono a b Hab) as Hl.
  pose proof (Z.log2_nonneg a) as Hla.
  pose proof (Z.log2_nonneg b) as Hlb.
  set (k := 52 - Num.floor_log2_ratio a b) in *.
  assert (Hk : 52 <= k) by (unfold k; lia).
  rewrite (Z.max_r 0 k), (Z.max_l 0 (- k)) by lia.
  rewrite Z.pow_0_r, Z.mul_1_r.
  assert (Hp : 0 < 2 ^ k) by (apply Z.pow_pos_nonneg; lia).
  destruct (Z.log2_spec a Ha) as [Ha1 _].
  destruct (Z.log2_spec b ltac:(lia)) as [_ Hb2].
  assert (Hge : b <= a * 2 ^ k).
  { assert (2 ^ Z.succ (Z.log2 b) <= 2 ^ (Z.log2 a + k))
      by (apply Z.pow_le_mono_r; unfold k; lia).
    rewrite Z.pow_add_r in * by lia. nia. }
  set (m := Num.round_half_even (a * 2 ^ k) b).
  assert (Hm : 1 <= m).
  { pose proof (round_half_even_lower (a * 2 ^ k) b ltac:(nia) ltac:(lia)).
    assert (1 <= a * 2 ^ k / b) by (apply Z.div_le_lower_bound; lia).
    unfold m. lia. }
  unfold Num.Qpow2.
  destruct (Z.leb_spec 0 (- k)); [lia|].
  rewrite Z.opp_involutive, Qred_correct.
  unfold Qlt, Qmult, inject_Z; simpl. lia.
Qed.

(** The reduced form of a fraction: both parts divided by one positive
    number. *)
Lemma Qred_parts (m : Z) (n : positive) :
  exists g, 0 < g /\ m = g * Qnum (Qred (m # n))
            /\ Zpos n = g * Zpos (Qden (Qred (m # n))).
Proof.
  unfold Qred.
  pose proof (Z.ggcd_gcd m (Zpos n)) as Hg.
  pose proof (Z.ggcd_correct_divisors m (Zpos n)) as Hd.
  pose proof (Z.gcd_nonneg m (Zpos n)) as Hn.
  destruct (Z.ggcd m (Zpos n)) as (g, (aa, bb)). cbn [fst snd] in *.
  destruct Hd as [Ha Hb]. subst g.
  set (g := Z.gcd m (Zpos n)) in *. clearbody g.
  pose proof (Pos2Z.is_pos n) as Hpos.
  assert (0 < g) by (destruct (Z.eq_dec g 0) as [-> | ?]; lia).
  assert (0 < bb) by nia.
  exists g. cbn [Qnum Qden]. rewrite Z2Pos.id by assumption. auto.
Qed.

Lemma fl_below_one (m : Z) (n : positive) :
  0 < m -> m < Zpos n -> Zpos n <= 2 ^ 53 -> (Num.fl (m # n) < 1)%Q.
Proof.
  intros Hm Hmn Hn. unfold Num.fl.
  destruct (Qred_parts m n) as (g & Hg & Ha & Hb).
  destruct (Qred (m # n)) as [a b]. cbn [Qnum Qden] in *.
  destruct a as [|a|a]; try nia.
  apply round64_below_one; nia.
Qed.

Lemma fl_positive (m : Z) (n : positive) :
  0 < m -> m <= Zpos n -> (0 < Num.fl (m # n))%Q.
Proof.
  intros Hm Hmn. unfold Num.fl.
  destruct (Qred_parts m n) as (g & Hg & Ha & Hb).
  destruct (Qred (m # n)) as [a b]. cbn [Qnum Qden] in *.
  destruct a as [|a|a]; try nia.
  apply round64_positive; nia.
Qed.

End RoundingBounds.

Section ComparatorCases.

Import FaceHashGenerator.

Local Open Scope nat_scope.

Lemma length_zero_empty (s : string) : String.length s = 0 -> s = ""%string.
Proof. destruct s; [reflexivity | discriminate]. Qed.

Lemma fl_zero_num (n : positive) : Num.fl (0 # n) = 0%Q.
Proof.
  unfold Num.fl.
  destruct (Qred_parts 0 n) as (g & Hg & Ha & _).
  assert (E : Qnum (Qred (0 # n)) = 0%Z) by nia.
  now rewrite E.
Qed.

Lemma pos_of_nat_eq (n : nat) : n <> 0 -> Zpos (Pos.of_nat n) = Z.of_nat n.
Proof.
  intros H. destruct n as [|n]; [contradiction|].
  now rewrite <- Pos.of_nat_succ, Zpos_P_of_succ_nat, Nat2Z.inj_succ.
Qed.

(** The three ways [compareHashes] ends. *)
Lemma compareHashes_cases (h1 h2 : string) :
  (String.length h1 <> String.length h2 /\ compareHashes h1 h2 = of_Z 0)
  \/ (h1 = ""%string /\ h2 = ""%string /\ compareHashes h1 h2 = NaN)
  \/ (String.length h1 = String.length h2 /\ String.length h1 <> 0
      /\ compareHashes h1 h2
         = Fin (Num.fl (Z.of_nat (matching_positions h1 h2)
                        # Pos.of_nat (String.length h1)))).
Proof.
  unfold compareHashes.
  destruct (Nat.eq_dec (String.length h1) (String.length h2)) as [E|E].
  - destruct (Nat.eq_dec (String.length h1) 0) as [Z|Z].
    + right; left.
      assert (h1 = ""%string) by now apply length_zero_empty.
      assert (h2 = ""%string) by (apply length_zero_empty; congruence).
      subst. repeat split.
    + right; right.
      rewrite compareHashes_run_same_length by assumption. cbn [fst].
      rewrite div_counts by assumption. auto.
  - left. split; [assumption|].
    unfold compareHashes_run.
    apply Nat.eqb_neq in E. now rewrite E.
Qed.

Lemma matching_all_equal (s1 s2 : string) :
  String.length s1 = String.length s2 ->
  matching_positions s1 s2 = String.length s1 -> s1 = s2.
Proof.
  revert s2. induction s1 as [|a s1 IH]; intros [|b s2] Hlen Hm;
    simpl in *; try discriminate; [reflexivity|].
  injection Hlen as Hlen.
  pose proof (matching_positions_le s1 s2) as Hle.
  destruct (Ascii.eqb_spec a b) as [->|Hab]; [|lia].
  f_equal. apply IH; [assumption | lia].
Qed.

Lemma matching_none (s1 s2 : string) :
  String.length s1 = String.length s2 ->
  (matching_positions s1 s2 = 0 <->
   forall i, i < String.length s1 ->
             Str.strict_eq (Str.charAt s1 i) (Str.charAt s2 i) = false).
Proof.
  revert s2. induction s1 as [|a s1 IH]; intros [|b s2] Hlen;
    simpl in Hlen; try discriminate.
  - simpl. split; [intros _ i Hi; lia | reflexivity].
  - injection Hlen as Hlen. specialize (IH s2 Hlen). cbn [matching_positions].
    split.
    + intros Hm i Hi.
      destruct (Ascii.eqb a b) eqn:Eab; [discriminate|].
      destruct i as [|i]; [exact Eab|].
      simpl. apply IH; [exact Hm | simpl in Hi; lia].
    + intros Hall.
      pose proof (Hall 0 ltac:(simpl; lia)) as H0. simpl in H0. rewrite H0.
      apply IH. intros i Hi.
      apply (Hall (S i)). simpl. lia.
Qed.

Lemma ge_trans (x y z : number) :
  Num.ge x y = true -> Num.ge y z = true -> Num.ge x z = true.
Proof.
  destruct x as [| | |a], y as [| | |b], z as [| | |c]; simpl;
    try discriminate; try reflexivity.
  intros H1 H2. apply Qle_bool_iff in H1, H2. apply Qle_bool_iff.
  now apply Qle_trans with b.
Qed.

(** No result of the comparator reaches a threshold above 1. *)
Lemma above_one_unreached (h1 h2 : string) (t : number) :
  Num.gt t (of_Z 1) = true -> Num.ge (compareHashes h1 h2) t = false.
Proof.
  intros Ht.
  assert (Hu : forall a, (0 <= a <= 1)%Q -> Num.ge (Fin a) t = false).
  { intros a [_ Ha]. destruct t as [| | |q]; simpl in *; try discriminate;
      try reflexivity.
    apply negb_true_iff in Ht.
    destruct (Qle_bool q a) eqn:E; [|reflexivity].
    apply Qle_bool_iff in E.
    assert (Qle_bool q (inject_Z 1) = true); [|congruence].
    apply Qle_bool_iff. now apply Qle_trans with a. }
  destruct (compareHashes_cases h1 h2) as [(_ & ->)|[(_ & _ & ->)|(E & Z & ->)]].
  - apply Hu. split; discriminate.
  - reflexivity.
  - apply Hu, fl_unit, ratio_unit; [assumption | apply matching_positions_le].
Qed.

End ComparatorCases.

(** X7: whatever the two strings, [compareHashes] returns NaN or a
    fraction in [0, 1], and NaN exactly when both strings are empty. *)
Theorem compareHashes_range (h1 h2 : string) :
  (FaceHashGenerator.compareHashes h1 h2 = NaN
   <-> h1 = ""%string /\ h2 = ""%string)
  /\ (FaceHashGenerator.compareHashes h1 h2 = NaN
      \/ Num.unit_fraction (FaceHashGenerator.compareHashes h1 h2)).
Proof.
  destruct (compareHashes_cases h1 h2)
    as [(Hne & ->)|[(-> & -> & ->)|(E & Z & ->)]].
  - split.
    + split; [discriminate | intros [-> ->]; now contradiction Hne].
    + right. split; discriminate.
  - split; [tauto | now left].
  - split.
    + split; [discriminate|].
      intros [-> _]. now contradiction Z.
    + right. apply fl_unit, ratio_unit; [assumption|].
      apply matching_positions_le.
Qed.

(** X8: on two strings of one nonzero length (at most [2 ^ 53]
    characters) the score is 1 exactly when the strings are equal, and 0
    exactly when they agree at no position. *)
Theorem compareHashes_extremes (h1 h2 : string) :
  String.length h1 = String.length h2 ->
  String.length h1 <> 0%nat ->
  (Z.of_nat (String.length h1) <= 2 ^ 53)%Z ->
  (FaceHashGenerator.compareHashes h1 h2 = of_Z 1 <-> h1 = h2)
  /\ (FaceHashGenerator.compareHashes h1 h2 = of_Z 0
      <-> forall i, (i < String.length h1)%nat ->
                    Str.strict_eq (Str.charAt h1 i) (Str.charAt h2 i) = false).
Proof.
  intros Hlen Hnz Hmax.
  pose proof (matching_positions_le h1 h2) as Hle.
  pose proof (pos_of_nat_eq _ Hnz) as Hpos.
  split.
  - split.
    + destruct (compareHashes_cases h1 h2)
        as [(Hne & _)|[(-> & _)|(_ & _ & ->)]];
        [contradiction | now contradiction Hnz |].
      intros [= H1].
      destruct (Nat.eq_dec (FaceHashGenerator.matching_positions h1 h2)
                           (String.length h1)) as [E|E];
        [now apply matching_all_equal|].
      exfalso.
      destruct (FaceHashGenerator.matching_positions h1 h2) as [|m] eqn:Em.
      * rewrite fl_zero_num in H1. discriminate.
      * assert (Hlt : (Num.fl (Z.of_nat (S m) # Pos.of_nat (String.length h1))
                       < 1)%Q) by (apply fl_below_one; lia).
        rewrite H1 in Hlt. now apply Qlt_irrefl in Hlt.
    + intros <-. unfold FaceHashGenerator.compareHashes.
      now rewrite compareHashes_run_self.
  - rewrite <- (matching_none h1 h2 Hlen).
    destruct (compareHashes_cases h1 h2)
      as [(Hne & _)|[(-> & _)|(_ & _ & ->)]];
      [contradiction | now contradiction Hnz |].
    split.
    + intros [= H0].
      destruct (FaceHashGenerator.matching_positions h1 h2) as [|m] eqn:Em;
        [reflexivity|].
      exfalso.
      assert (Hgt : (0 < Num.fl (Z.of_nat (S m)
                                # Pos.of_nat (String.length h1)))%Q)
        by (apply fl_positive; lia).
      rewrite H0 in Hgt. now apply Qlt_irrefl in Hgt.
    + intros ->. now rewrite fl_zero_num.
Qed.

Lemma compareHashes_extremes_witness :
  (FaceHashGenerator.compareHashes "a52685bd" "a52685bf" = of_Z 1
   <-> "a52685bd"%string = "a52685bf"%string)
  /\ (FaceHashGenerator.compareHashes "abcd" "bcda" = of_Z 0
      <-> forall i, (i < 4)%nat ->
                    Str.strict_eq (Str.charAt "abcd" i) (Str.charAt "bcda" i)
                    = false).
Proof.
  split.
  - exact (proj1 (compareHashes_extremes "a52685bd" "a52685bf" eq_refl
                    ltac:(discriminate) ltac:(discriminate))).
  - exact (proj2 (compareHashes_extremes "abcd" "bcda" eq_refl
                    ltac:(discriminate) ltac:(discriminate))).
Defined.

(** X9: a validation that succeeds at a threshold succeeds at every
    lower one, and a recognition that finds a user at a threshold finds
    one at every lower threshold. *)
Theorem threshold_monotone (w : FaceDatabase.World) (u h : string)
  (users : list MongoDBFaceDatabase.UserDoc) (t t' : number) :
  Num.ge t t' = true ->
  (valid (fst (FaceDatabase.validateFaceHash u h (Some t) w)) = true ->
   valid (fst (FaceDatabase.validateFaceHash u h (Some t') w)) = true)
  /\ (MongoDBFaceDatabase.scan users h t <> None ->
      MongoDBFaceDatabase.scan users h t' <> None).
Proof.
  intros Hge. split.
  - unfold FaceDatabase.validateFaceHash. cbn [or_default].
    destruct (JSMap.get u (FaceDatabase.faces w)) as [r|]; cbn [fst valid];
      [|discriminate].
    intros H. now apply ge_trans with t.
  - induction users as [|d users IH]; simpl; [auto|].
    destruct (Num.ge (MongoDBFaceDatabase.compareHashes
                        (MongoDBFaceDatabase.hash d) h) t) eqn:E.
    + intros _. now rewrite (ge_trans _ _ _ E Hge).
    + intros H.
      destruct (Num.ge (MongoDBFaceDatabase.compareHashes
                          (MongoDBFaceDatabase.hash d) h) t');
        [discriminate | auto].
Qed.

Lemma threshold_monotone_witness :
  valid (fst (FaceDatabase.validateFaceHash "joao" "a52685bf"
                (Some (Fin (1 # 2)))
                (snd (FaceDatabase.saveFaceHash "joao" "a52685bd" []
                        (FaceDatabase.create Sample.clock)))))
  = true.
Proof.
  apply (proj1 (threshold_monotone
                  (snd (FaceDatabase.saveFaceHash "joao" "a52685bd" []
                          (FaceDatabase.create Sample.clock)))
                  "joao" "a52685bf" [] (Fin (3 # 4)) (Fin (1 # 2)) eq_refl)).
  vm_compute. reflexivity.
Defined.

(** X10: no input is accepted at a threshold above 1: validation answers
    not valid and leaves the store as it was, and recognition finds no
    user. *)
Theorem threshold_above_one (w : FaceDatabase.World) (u h : string)
  (users : list MongoDBFaceDatabase.UserDoc) (t : number) :
  Num.gt t (of_Z 1) = true ->
  valid (fst (FaceDatabase.validateFaceHash u h (Some t) w)) = false
  /\ snd (FaceDatabase.validateFaceHash u h (Some t) w) = w
  /\ MongoDBFaceDatabase.scan users h t = None.
Proof.
  intros Ht. split; [|split].
  - unfold FaceDatabase.validateFaceHash. cbn [or_default].
    destruct (JSMap.get u (FaceDatabase.faces w)) as [r|]; cbn [fst valid];
      [|reflexivity].
    now apply above_one_unreached.
  - unfold FaceDatabase.validateFaceHash. cbn [or_default].
    destruct (JSMap.get u (FaceDatabase.faces w)) as [r|]; cbn [snd];
      [|reflexivity].
    unfold FaceDatabase.compareHashes.
    now rewrite above_one_unreached.
  - induction users as [|d users IH]; simpl; [reflexivity|].
    unfold MongoDBFaceDatabase.compareHashes.
    now rewrite above_one_unreached.
Qed.

Lemma threshold_above_one_witness :
  MongoDBFaceDatabase.scan (MongoDBFaceDatabase.docs Sample.mongo) "a52685bf"
    (Fin (101 # 100)) = None.
Proof.
  exact (proj2 (proj2 (threshold_above_one (FaceDatabase.create Sample.clock)
                         "joao" "a52685bf"
                         (MongoDBFaceDatabase.docs Sample.mongo)
                         (Fin (101 # 100)) eq_refl))).
Defined.

(* ================================================================== *)
(** * The digests in full *)
(* ================================================================== *)

Section RollingHash.

Import FaceHashGenerator.

Local Open Scope Z_scope.

Lemma to_int32_shift (z : Z) : exists k, Int32.to_int32 z = z + k * 2 ^ 32.
Proof.
  exists (- ((z + 2 ^ 31) / 2 ^ 32)). unfold Int32.to_int32.
  rewrite Z.mod_eq by lia. lia.
Qed.

Lemma to_int32_add_multiple (z k : Z) :
  Int32.to_int32 (z + k * 2 ^ 32) = Int32.to_int32 z.
Proof.
  unfold Int32.to_int32.
  replace (z + k * 2 ^ 32 + 2 ^ 31) with (z + 2 ^ 31 + k * 2 ^ 32) by lia.
  now rewrite Z.mod_add by lia.
Qed.

Lemma to_int32_idem (z : Z) :
  Int32.to_int32 (Int32.to_int32 z) = Int32.to_int32 z.
Proof.
  destruct (to_int32_shift z) as [k Hk].
  rewrite Hk at 1. apply to_int32_add_multiple.
Qed.

(** One turn of the loop multiplies by 31 and adds the character code,
    modulo [2 ^ 32]. *)
Lemma hash_step_poly (H c : Z) :
  hash_step (Int32.to_int32 H) c = Int32.to_int32 (31 * H + c).
Proof.
  unfold hash_step, Int32.shl, Int32.band.
  change (2 ^ (5 mod 32)) with 32.
  rewrite Z.land_diag, !to_int32_idem.
  destruct (to_int32_shift H) as [k1 H1].
  destruct (to_int32_shift (Int32.to_int32 H * 32)) as [k2 H2].
  rewrite H2, H1.
  replace ((H + k1 * 2 ^ 32) * 32 + k2 * 2 ^ 32 - (H + k1 * 2 ^ 32) + c)
    with (31 * H + c + (31 * k1 + k2) * 2 ^ 32) by lia.
  apply to_int32_add_multiple.
Qed.

Lemma fold_left_cons {A B : Type} (f : A -> B -> A) (b : B) (l : list B)
  (a : A) :
  fold_left f (b :: l) a = fold_left f l (f a b).
Proof. reflexivity. Qed.

Lemma rolling_fold (l : list Z) (h H : Z) :
  h = Int32.to_int32 H ->
  fold_left hash_step l h
  = Int32.to_int32 (fold_left (fun acc c => 31 * acc + c) l H).
Proof.
  revert h H. induction l as [|c l IH]; intros h H ->; [reflexivity|].
  rewrite !fold_left_cons. apply IH, hash_step_poly.
Qed.

End RollingHash.

(** X11: the loop of [generateSimpleHash] computes the polynomial in 31
    over the character codes of the string, wrapped to a 32-bit integer. *)
Theorem rolling_hash_polynomial (s : string) :
  FaceHashGenerator.rolling_hash s
  = Int32.to_int32 (Polynomial.poly31 (Str.charCodes s)).
Proof.
  unfold FaceHashGenerator.rolling_hash, Polynomial.poly31.
  now apply rolling_fold.
Qed.

Section DigestAlphabet.

Import Crypto.

Local Open Scope nat_scope.

Lemma hex_of_octets_hex (bs : list Z) :
  Forall (fun b => (0 <= b < 256)%Z) bs ->
  Str.all_hex (hex_of_octets bs) = true.
Proof.
  unfold hex_of_octets.
  induction 1 as [|b bs Hb _ IH]; [reflexivity|].
  cbn [List.map]. rewrite concat_empty_cons, all_hex_append, IH.
  unfold hex_byte. cbn [Str.all_hex].
  rewrite !digit_char_hex; [reflexivity | |].
  - apply Z.mod_pos_bound. lia.
  - split; [apply Z.div_pos; lia | apply Z.div_lt_upper_bound; lia].
Qed.

Lemma Forall_flat_map {A B : Type} (P : B -> Prop) (f : A -> list B)
  (l : list A) :
  (forall a, Forall P (f a)) -> Forall P (flat_map f l).
Proof.
  intros Hf. induction l as [|a l IH]; simpl; [constructor|].
  apply Forall_app. auto.
Qed.

Lemma be_bytes_octets (count : nat) (x : Z) :
  Forall (fun b => (0 <= b < 256)%Z) (be_bytes count x).
Proof.
  unfold be_bytes. apply Forall_map, Forall_forall. intros i _.
  apply Z.mod_pos_bound. lia.
Qed.

Lemma le_bytes_octets (count : nat) (x : Z) :
  Forall (fun b => (0 <= b < 256)%Z) (le_bytes count x).
Proof.
  unfold le_bytes. apply Forall_map, Forall_forall. intros i _.
  apply Z.mod_pos_bound. lia.
Qed.

Lemma le_bytes_length (count : nat) (x : Z) :
  List.length (le_bytes count x) = count.
Proof. unfold le_bytes. now rewrite length_map, length_seq. Qed.

Lemma md5_round_length (m st : list Z) (i : nat) :
  List.length st = 4 -> List.length (md5_round m st i) = 4.
Proof.
  intros H.
  do 5 (destruct st as [|? st]; try discriminate H).
  unfold md5_round.
  match goal with
  | |- context [let '(_, _) := ?X in _] => destruct X
  end.
  reflexivity.
Qed.

Lemma md5_block_length (h block : list Z) :
  List.length h = 4 -> List.length (md5_block h block) = 4.
Proof.
  intros H. unfold md5_block.
  rewrite length_map, length_combine, H.
  rewrite (fold_left_invariant (fun st => List.length st = 4)
             (md5_round (List.map le_word (chunks 16 4 block))));
    [reflexivity | | assumption].
  intros st i Hst. now apply md5_round_length.
Qed.

Lemma md5_hex_length (s : string) : String.length (md5_hex s) = 32.
Proof.
  unfold md5_hex, md5.
  rewrite hex_of_octets_length.
  rewrite (flat_map_length_const (le_bytes 4) 4) by (intro; apply le_bytes_length).
  rewrite (fold_left_invariant (fun st => List.length st = 4) md5_block);
    [reflexivity | | reflexivity].
  intros h block Hh. now apply md5_block_length.
Qed.

Lemma sha256_hex_alphabet (s : string) : Str.all_hex (sha256_hex s) = true.
Proof.
  unfold sha256_hex, sha256.
  apply hex_of_octets_hex, Forall_flat_map. intro. apply be_bytes_octets.
Qed.

Lemma md5_hex_alphabet (s : string) : Str.all_hex (md5_hex s) = true.
Proof.
  unfold md5_hex, md5.
  apply hex_of_octets_hex, Forall_flat_map. intro. apply le_bytes_octets.
Qed.

End DigestAlphabet.

(** X12: the SHA-256 and MD5 digests of a descriptor are made of the
    characters [0-9a-f] only, and the MD5 digest is 32 characters long. *)
Theorem cryptographic_digests_are_hex (d : FaceHashGenerator.Float32Array) :
  Str.all_hex (FaceHashGenerator.generateSHA256Hash d) = true
  /\ Str.all_hex (FaceHashGenerator.generateMD5Hash d) = true
  /\ String.length (FaceHashGenerator.generateMD5Hash d) = 32%nat
  /\ Str.all_hex (FaceValidationSystem.generateValidationHash d) = true.
Proof.
  unfold FaceHashGenerator.generateSHA256Hash, FaceHashGenerator.generateMD5Hash,
    FaceValidationSystem.generateValidationHash,
    FaceValidationSystem.generateSHA256Hash.
  repeat split;
    auto using sha256_hex_alphabet, md5_hex_alphabet, md5_hex_length.
Qed.

Section Base64Length.

Import Crypto.

Local Open Scope nat_scope.

Lemma octets_length (s : string) : List.length (octets s) = String.length s.
Proof.
  unfold octets. rewrite length_map.
  induction s as [|c s IH]; simpl; [reflexivity | now rewrite IH].
Qed.

Lemma base64_groups_length (fuel : nat) (l : list Z) :
  List.length l <= fuel ->
  String.length
    (String.concat "" (List.map Buffer.encode_group (chunks fuel 3 l)))
  = 4 * ((List.length l + 2) / 3).
Proof.
  revert l. induction fuel as [|fuel IH]; intros l Hl.
  - destruct l; [reflexivity | simpl in Hl; lia].
  - destruct l as [|a [|b [|c l]]]; try reflexivity.
    + cbn [chunks firstn skipn List.map].
      rewrite concat_empty_cons, append_length.
      destruct fuel; reflexivity.
    + cbn [chunks firstn skipn List.map].
      rewrite concat_empty_cons, append_length.
      destruct fuel; reflexivity.
    + cbn [chunks firstn skipn List.map].
      rewrite concat_empty_cons, append_length, IH by (simpl in Hl; lia).
      cbn [List.length Buffer.encode_group String.length].
      replace (S (S (S (List.length l))) + 2)
        with ((List.length l + 2) + 1 * 3) by lia.
      rewrite Nat.div_add by lia. lia.
Qed.

Lemma base64_length (s : string) :
  String.length (Buffer.base64 s) = 4 * ((String.length s + 2) / 3).
Proof.
  unfold Buffer.base64.
  rewrite base64_groups_length by lia. now rewrite octets_length.
Qed.

End Base64Length.

(** X13: the base64 digest has four characters for every group of three
    characters of the stringified descriptor, the last group rounded up:
    its length is a multiple of four. *)
Theorem generateBase64Hash_length (d : FaceHashGenerator.Float32Array) :
  String.length (FaceHashGenerator.generateBase64Hash d)
  = (4 * ((String.length (FaceHashGenerator.descriptorString d) + 2) / 3))%nat.
Proof. unfold FaceHashGenerator.generateBase64Hash. apply base64_length. Qed.

Section NonEmpty.

Import FaceHashGenerator.

Local Open Scope nat_scope.

Lemma radix_digits_grows (fuel : nat) (radix n : Z) (acc : string) :
  String.length acc <= String.length (Str.radix_digits fuel radix n acc).
Proof.
  revert n acc. induction fuel as [|fuel IH]; intros n acc; simpl; [lia|].
  destruct (n / radix =? 0)%Z; simpl; [lia|].
  specialize (IH (n / radix)%Z (String (Str.digit_char (n mod radix)) acc)).
  simpl in IH. lia.
Qed.

Lemma int_to_radix_nonempty (radix n : Z) :
  1 <= String.length (Str.int_to_radix radix n).
Proof.
  unfold Str.int_to_radix. cbn [Str.radix_digits].
  destruct (n / radix =? 0)%Z; simpl; [lia|].
  pose proof (radix_digits_grows (Z.to_nat (Z.log2 n)) radix (n / radix)
                (String (Str.digit_char (n mod radix)) "")) as H.
  simpl in H. lia.
Qed.

Lemma layout_nonempty (s n k : Z) : 1 <= String.length (Str.layout s n k).
Proof.
  pose proof (int_to_radix_nonempty 10 s) as Hd.
  unfold Str.layout.
  repeat match goal with
         | |- context [if ?b then _ else _] => destruct b
         end;
    rewrite ?append_length; simpl; lia.
Qed.

(** [String(x)] is never the empty string. *)
Lemma toString10_nonempty (x : number) : 1 <= String.length (Str.toString10 x).
Proof.
  destruct x as [| | |q]; [simpl; lia | simpl; lia | simpl; lia |].
  unfold Str.toString10.
  destruct (Qeq_bool q 0); [simpl; lia|].
  destruct (Str.shortest _ _ _ _) as [[s n] k].
  pose proof (layout_nonempty s n k).
  rewrite append_length. lia.
Qed.

Lemma descriptorString_nonempty (x : number) (l : Float32Array) :
  1 <= String.length (descriptorString (x :: l)).
Proof.
  unfold descriptorString, Str.join. cbn [List.map String.concat].
  pose proof (toString10_nonempty x).
  destruct (List.map Str.toString10 l); [assumption|].
  rewrite append_length. lia.
Qed.

Lemma padStart_at_least (s : string) (target : nat) (c : ascii) :
  target <= String.length (Str.padStart s target c).
Proof.
  unfold Str.padStart. rewrite append_length, repeat_char_length. lia.
Qed.

Lemma hexHash_length (d : Float32Array) : String.length (hexHash d) = 8.
Proof.
  rewrite hexHash_digits. apply padStart_length.
  unfold Str.int_to_radix.
  pose proof (rolling_hash_range (descriptorString d)) as Hr.
  apply (radix_digits_length _ _ EmptyString 8); [|lia].
  change (16 ^ Z.of_nat 8)%Z with 4294967296%Z. lia.
Qed.

Lemma generateSimpleHash_at_least (d : Float32Array) :
  8 <= String.length (generateSimpleHash d).
Proof.
  unfold generateSimpleHash. rewrite append_length, hexHash_length. lia.
Qed.

Lemma generateHexHash_nonempty (x : number) (l : Float32Array) :
  4 <= String.length (generateHexHash (x :: l)).
Proof.
  unfold generateHexHash, Str.join. cbn [List.map].
  rewrite concat_empty_cons, append_length.
  pose proof (padStart_at_least
                (Str.toString16 (Num.abs (Num.mul x (of_Z 1000)))) 4 "0").
  lia.
Qed.

Lemma uncut_length (d : Float32Array) (ty : HashType) :
  (d = [] /\ (ty = hex \/ ty = base64)) /\ Uncut.natural d ty = ""%string
  \/ ~ (d = [] /\ (ty = hex \/ ty = base64))
     /\ 1 <= String.length (Uncut.natural d ty).
Proof.
  unfold Uncut.natural, generateFaceHash. cbn [type length].
  destruct ty.
  - right. split; [intros [_ [|]]; discriminate|].
    pose proof (generateSimpleHash_at_least d). lia.
  - right. split; [intros [_ [|]]; discriminate|].
    unfold generateSHA256Hash. rewrite sha256_hex_length. lia.
  - right. split; [intros [_ [|]]; discriminate|].
    unfold generateMD5Hash. rewrite md5_hex_length. lia.
  - destruct d as [|x l]; [left; auto|].
    right. split; [intros [? _]; discriminate|].
    unfold generateBase64Hash. rewrite base64_length.
    pose proof (descriptorString_nonempty x l) as H.
    assert (1 <= (String.length (descriptorString (x :: l)) + 2) / 3)
      by (apply Nat.div_le_lower_bound; lia).
    lia.
  - destruct d as [|x l]; [left; auto|].
    right. split; [intros [? _]; discriminate|].
    pose proof (generateHexHash_nonempty x l). lia.
Qed.

Lemma take_take (n m : nat) (s : string) :
  n <= m -> Str.take n (Str.take m s) = Str.take n s.
Proof.
  revert m s. induction n as [|n IH]; intros [|m] [|c s] H;
    simpl; try reflexivity; try lia.
  rewrite IH by lia. reflexivity.
Qed.

Lemma take_all (n : nat) (s : string) :
  String.length s <= n -> Str.take n s = s.
Proof.
  revert s. induction n as [|n IH]; intros [|c s] H; simpl in *;
    try reflexivity; try lia.
  rewrite IH by lia. reflexivity.
Qed.

(** The digest under a positive integer cap. *)
Lemma capped_form (d : Float32Array) (ty : HashType) (L : Z) :
  (0 < L)%Z ->
  generateFaceHash d {| type := ty; length := Some (of_Z L) |}
  = Str.take (Z.to_nat L) (Uncut.natural d ty).
Proof.
  intros HL. unfold Uncut.natural, generateFaceHash. cbn [type length].
  set (hash := match ty with
               | simple => _ | sha256 => _ | md5 => _ | base64 => _ | hex => _
               end).
  clearbody hash.
  rewrite truthy_of_Z, gt_of_nat_of_Z.
  destruct (Z.eqb_spec L 0) as [|_]; [lia|]. cbn [negb andb].
  destruct (Z.ltb_spec L (Z.of_nat (String.length hash))).
  - apply substring0_of_Z. lia.
  - symmetry. apply take_all. lia.
Qed.

End NonEmpty.

(** X14: the digest of a descriptor is the empty string exactly for the
    empty descriptor under the hex and base64 algorithms, and then it
    compares with itself to NaN; in every other case it is not empty and
    compares with itself to 1.  The simple digest under any positive
    integer cap also compares with itself to 1. *)
Theorem generated_digest_self_similarity
  (d : FaceHashGenerator.Float32Array) (ty : FaceHashGenerator.HashType) :
  let h := FaceHashGenerator.generateFaceHash d
             {| FaceHashGenerator.type := ty;
                FaceHashGenerator.length := None |} in
  ((d = [] /\ (ty = FaceHashGenerator.hex \/ ty = FaceHashGenerator.base64))
   /\ h = ""%string /\ FaceHashGenerator.compareHashes h h = NaN
   \/ ~ (d = [] /\ (ty = FaceHashGenerator.hex \/ ty = FaceHashGenerator.base64))
      /\ h <> ""%string /\ FaceHashGenerator.compareHashes h h = of_Z 1)
  /\ forall L : Z,
       (0 < L)%Z ->
       let c := FaceHashGenerator.generateFaceHash d
                  {| FaceHashGenerator.type := FaceHashGenerator.simple;
                     FaceHashGenerator.length := Some (of_Z L) |} in
       FaceHashGenerator.compareHashes c c = of_Z 1.
Proof.
  intros h. subst h.
  change (FaceHashGenerator.generateFaceHash d
            {| FaceHashGenerator.type := ty;
               FaceHashGenerator.length := None |})
    with (Uncut.natural d ty).
  split.
  - destruct (uncut_length d ty) as [(Hc & He)|(Hc & Hl)].
    + left. rewrite He. auto.
    + right. split; [assumption|]. split.
      * intros E. rewrite E in Hl. simpl in Hl. lia.
      * unfold FaceHashGenerator.compareHashes.
        rewrite compareHashes_run_self by lia. reflexivity.
  - intros L HL c. subst c. rewrite capped_form by assumption.
    unfold FaceHashGenerator.compareHashes.
    rewrite compareHashes_run_self; [reflexivity|].
    pose proof (generateSimpleHash_at_least d) as H8.
    change (Uncut.natural d FaceHashGenerator.simple)
      with (FaceHashGenerator.generateSimpleHash d).
    destruct (Z.to_nat L) as [|n] eqn:E; [lia|].
    destruct (FaceHashGenerator.generateSimpleHash d) as [|ch s];
      [simpl in H8; lia | discriminate].
Qed.

(** X15: the cuts of one digest are nested: under two positive integer
    caps, the digest under the smaller cap is the beginning of the digest
    under the larger one. *)
Theorem truncation_nested (d : FaceHashGenerator.Float32Array)
  (ty : FaceHashGenerator.HashType) (L1 L2 : Z) :
  (0 < L1 <= L2)%Z ->
  FaceHashGenerator.generateFaceHash d
    {| FaceHashGenerator.type := ty; FaceHashGenerator.length := Some (of_Z L1) |}
  = Str.take (Z.to_nat L1)
      (FaceHashGenerator.generateFaceHash d
         {| FaceHashGenerator.type := ty;
            FaceHashGenerator.length := Some (of_Z L2) |}).
Proof.
  intros [H1 H2].
  rewrite !capped_form by lia.
  rewrite take_take by lia. reflexivity.
Qed.

Lemma truncation_nested_witness :
  FaceHashGenerator.generateFaceHash FaceHashGenerator.example_descriptor
    {| FaceHashGenerator.type := FaceHashGenerator.sha256;
       FaceHashGenerator.length := Some (of_Z 16) |}
  = Str.take 16
      (FaceHashGenerator.generateFaceHash FaceHashGenerator.example_descriptor
         {| FaceHashGenerator.type := FaceHashGenerator.sha256;
            FaceHashGenerator.length := Some (of_Z 32) |}).
Proof.
  apply (truncation_nested FaceHashGenerator.example_descriptor
           FaceHashGenerator.sha256 16 32).
  split; [reflexivity | discriminate].
Defined.

(* ================================================================== *)
(** * The in-memory system in full *)
(* ================================================================== *)

(** X16: a registration that finds a face files the record under the
    identifier with the SHA-256 digest of the descriptor, and with the
    caller's metadata in which [descriptorLength] and [confidence] are set
    from the detection, whatever the caller gave under these two names;
    every other entry of the metadata is kept. *)
Theorem registration_records_detection {api : FaceApi} (u p : string)
  (m : object) (img : Image) (det : Detection) (w : FaceDatabase.World) :
  loadImage p = Return img ->
  detectSingleFace img = Return (Some det) ->
  let res := FaceValidationSystem.registerUser u p m w in
  exists r,
    fst res = Return r
    /\ FaceDatabase.getFaceHash u (snd res) = Some r
    /\ FaceDatabase.hash r
       = FaceValidationSystem.generateSHA256Hash (descriptor det)
    /\ JSMap.get "descriptorLength" (FaceDatabase.metadata r)
       = Some (VNumber (of_nat (List.length (descriptor det))))
    /\ JSMap.get "confidence" (FaceDatabase.metadata r)
       = Some (VNumber (score det))
    /\ forall k : string,
         k <> "descriptorLength"%string -> k <> "confidence"%string ->
         JSMap.get k (FaceDatabase.metadata r) = JSMap.get k m.
Proof.
  intros Hload Hdetect res. subst res.
  unfold FaceValidationSystem.registerUser, Outcome.bind, Outcome.pure_call.
  rewrite Hload, Hdetect.
  unfold FaceDatabase.saveFaceHash, FaceDatabase.getFaceHash.
  cbn [fst snd now FaceDatabase.faces FaceDatabase.clock].
  eexists. split; [reflexivity|].
  split; [apply get_set_same|].
  cbn [FaceDatabase.hash FaceDatabase.metadata]. unfold with_detection.
  split; [reflexivity|].
  split; [rewrite get_set_other by discriminate; apply get_set_same|].
  split; [apply get_set_same|].
  intros k H1 H2. now rewrite !get_set_other by assumption.
Qed.

Lemma registration_records_detection_witness :
  exists r,
    fst (FaceValidationSystem.registerUser (api := Sample.api)
           "joao" "../images/bbt1.jpg"
           [("confidence"%string, VString "high")]
           (FaceDatabase.create Sample.clock)) = Return r
    /\ JSMap.get "confidence" (FaceDatabase.metadata r)
       = Some (VNumber (Fin (fl (95 # 100)))).
Proof.
  destruct (registration_records_detection (api := Sample.api)
              "joao" "../images/bbt1.jpg"
              [("confidence"%string, VString "high")]
              "../images/bbt1.jpg"%string
              {| descriptor := FaceHashGenerator.example_descriptor;
                 score := Fin (fl (95 # 100)) |}
              (FaceDatabase.create Sample.clock) eq_refl eq_refl)
    as (r & Hr & _ & _ & _ & Hc & _).
  exists r. split; [exact Hr | exact Hc].
Defined.

(** X17: an error of the image loader, or of the detector, leaves a
    registration, a validation or a recognition as the error it was, and
    the store is not touched. *)
Theorem image_errors_propagate {api : FaceApi} (u p : string) (m : object)
  (e : Error) :
  (loadImage p = Throw e
   \/ exists img, loadImage p = Return img /\ detectSingleFace img = Throw e) ->
  (forall w, FaceValidationSystem.registerUser u p m w = (Throw e, w))
  /\ (forall w, FaceValidationSystem.validateUser u p w = (Throw e, w))
  /\ (forall w, MongoDBFaceValidationSystem.registerUser u p m w = (Throw e, w))
  /\ (forall w, MongoDBFaceValidationSystem.validateUser u p w = (Throw e, w))
  /\ (forall w, MongoDBFaceValidationSystem.recognizeUser p w = (Throw e, w)).
Proof.
  unfold FaceValidationSystem.registerUser, FaceValidationSystem.validateUser,
    MongoDBFaceValidationSystem.registerUser,
    MongoDBFaceValidationSystem.validateUser,
    MongoDBFaceValidationSystem.recognizeUser,
    Outcome.bind, Outcome.pure_call.
  intros [H|(img & H1 & H2)].
  - rewrite H. repeat split.
  - rewrite H1, H2. repeat split.
Qed.

Lemma image_errors_propagate_witness :
  FaceValidationSystem.registerUser (api := Sample.api)
    "joao" "../images/missing.jpg" [] (FaceDatabase.create Sample.clock)
  = (Throw {| message := "ENOENT" |}, FaceDatabase.create Sample.clock).
Proof.
  exact (proj1 (image_errors_propagate (api := Sample.api)
                  "joao" "../images/missing.jpg" [] {| message := "ENOENT" |}
                  (or_introl eq_refl))
           (FaceDatabase.create Sample.clock)).
Defined.

(** X18: validating an identifier under which nothing is filed does not
    throw: the answer is not valid, with the reason 'Usuário não
    encontrado' and neither similarity nor threshold, and the store is
    left as it was. *)
Theorem validateUser_unknown {api : FaceApi} (u p : string) (img : Image)
  (det : Detection) (w : FaceDatabase.World) :
  loadImage p = Return img ->
  detectSingleFace img = Return (Some det) ->
  FaceDatabase.getFaceHash u w = None ->
  FaceValidationSystem.validateUser u p w
  = (Return {| valid := false; similarity := None; threshold := None;
               reason := reason_not_found |}, w).
Proof.
  intros Hload Hdetect Hget.
  unfold FaceValidationSystem.validateUser, Outcome.bind, Outcome.pure_call.
  rewrite Hload, Hdetect.
  unfold FaceDatabase.validateFaceHash.
  unfold FaceDatabase.getFaceHash in Hget. now rewrite Hget.
Qed.

Lemma validateUser_unknown_witness :
  FaceValidationSystem.validateUser (api := Sample.api)
    "pedro" "../images/bbt1.jpg" (FaceDatabase.create Sample.clock)
  = (Return {| valid := false; similarity := None; threshold := None;
               reason := reason_not_found |},
     FaceDatabase.create Sample.clock).
Proof.
  exact (validateUser_unknown (api := Sample.api) "pedro" "../images/bbt1.jpg"
           "../images/bbt1.jpg"%string
           {| descriptor := FaceHashGenerator.example_descriptor;
              score := Fin (fl (95 # 100)) |}
           (FaceDatabase.create Sample.clock) eq_refl eq_refl eq_refl).
Defined.

Section Listing.

Import FaceDatabase.

Lemma filter_keeps_others (u : string) (l : list string) :
  ~ In u l -> List.filter (fun k => negb (String.eqb k u)) l = l.
Proof.
  induction l as [|x l IH]; simpl; intros H; [reflexivity|].
  destruct (String.eqb_spec x u) as [->|Hx]; [exfalso; auto|].
  simpl. f_equal. apply IH. auto.
Qed.

Lemma keys_delete {V : Type} (u : string) (m : JSMap.t V) :
  NoDup (JSMap.keys m) ->
  JSMap.keys (JSMap.delete u m)
  = List.filter (fun k => negb (String.eqb k u)) (JSMap.keys m).
Proof.
  induction m as [|[k v] m IH]; simpl; intros H; [reflexivity|].
  inversion H as [|? ? Hn Hd]; subst.
  destruct (String.eqb_spec k u) as [->|Hk]; simpl.
  - symmetry. now apply filter_keeps_others.
  - f_equal. now apply IH.
Qed.

End Listing.

(** X19: the listing is in the order of first registration.  After any
    sequence of calls: saving under a new identifier puts it last, saving
    under one already present leaves the listing as it is, a validation
    never changes the listing, and a removal takes out that identifier
    and nothing else. *)
Theorem listUsers_order (c : Clock) (calls : list Calls.call) :
  let w := Calls.run c calls in
  (forall u h m,
      FaceDatabase.listUsers (snd (FaceDatabase.saveFaceHash u h m w))
      = if JSMap.has u (FaceDatabase.faces w)
        then FaceDatabase.listUsers w
        else (FaceDatabase.listUsers w ++ [u])%list)
  /\ (forall u h t,
         FaceDatabase.listUsers (snd (FaceDatabase.validateFaceHash u h t w))
         = FaceDatabase.listUsers w)
  /\ (forall u,
         FaceDatabase.listUsers (snd (FaceDatabase.removeUser u w))
         = List.filter (fun k => negb (String.eqb k u))
             (FaceDatabase.listUsers w)).
Proof.
  intros w.
  assert (Hnd : NoDup (JSMap.keys (FaceDatabase.faces w))).
  { apply run_keeps_distinct. constructor. }
  unfold FaceDatabase.listUsers. repeat split.
  - intros u h m. unfold FaceDatabase.saveFaceHash.
    cbn [snd now FaceDatabase.faces]. apply keys_set.
  - intros u h t. unfold FaceDatabase.validateFaceHash.
    destruct (JSMap.get u (FaceDatabase.faces w)) as [r|] eqn:Hget;
      cbn [snd]; [|reflexivity].
    destruct (Num.ge _ _); [|reflexivity].
    cbn [now FaceDatabase.faces]. rewrite keys_set.
    unfold JSMap.has. now rewrite Hget.
  - intros u. unfold FaceDatabase.removeUser. cbn [snd FaceDatabase.faces].
    now apply keys_delete.
Qed.

Section Timestamps.

Import FaceDatabase.

Lemma Forall_set {V : Type} (P : string * V -> Prop) (k : string) (v : V)
  (m : JSMap.t V) :
  Forall P m -> P (k, v) -> Forall P (JSMap.set k v m).
Proof.
  intros Hm Hv. induction Hm as [|[k' v'] m Hp Hm IH]; simpl.
  - constructor; [assumption | constructor].
  - destruct (String.eqb k' k); constructor; auto.
Qed.

Lemma Forall_delete {V : Type} (P : string * V -> Prop) (k : string)
  (m : JSMap.t V) :
  Forall P m -> Forall P (JSMap.delete k m).
Proof.
  induction 1 as [|[k' v'] m Hp Hm IH]; simpl; [constructor|].
  destruct (String.eqb k' k); [assumption | constructor; assumption].
Qed.

Lemma get_in {V : Type} (k : string) (v : V) (m : JSMap.t V) :
  JSMap.get k m = Some v -> exists k', In (k', v) m.
Proof.
  induction m as [|[k0 v0] m IH]; simpl; [discriminate|].
  destruct (String.eqb k0 k).
  - intros [= ->]. exists k0. now left.
  - intros H. destruct (IH H) as [k' Hk']. exists k'. now right.
Qed.

Lemma settled_weaken (c : Clock) (faces0 : JSMap.t FaceRecord) (n n' : nat) :
  (n <= n')%nat ->
  Forall (fun e : string * FaceRecord =>
            (createdAt (snd e) <= lastUsed (snd e))%Z
            /\ forall j, (n <= j)%nat -> (createdAt (snd e) <= reading c j)%Z)
         faces0 ->
  Forall (fun e : string * FaceRecord =>
            (createdAt (snd e) <= lastUsed (snd e))%Z
            /\ forall j, (n' <= j)%nat -> (createdAt (snd e) <= reading c j)%Z)
         faces0.
Proof.
  intros Hn. apply Forall_impl. intros e [H1 H2]. split; [assumption|].
  intros j Hj. apply H2. lia.
Qed.

(** With a clock that does not run backwards every call keeps the store
    settled. *)
Lemma step_keeps_settled (c : Clock) (w : World) (k : Calls.call) :
  Timeline.monotone c -> Timeline.settled c w ->
  Timeline.settled c (Calls.step w k).
Proof.
  intros Hmono [Hr Hf]. unfold Timeline.settled.
  destruct k as [u h m|u|u h t| |u]; simpl; try (split; assumption).
  - split; [assumption|].
    apply Forall_set.
    + apply settled_weaken with (ticks (clock w)); [lia | assumption].
    + cbn [snd createdAt lastUsed]. rewrite Hr. split.
      * apply Hmono. lia.
      * intros j Hj. apply Hmono. lia.
  - unfold validateFaceHash.
    destruct (JSMap.get u (faces w)) as [r|] eqn:Hget; cbn [snd];
      [|split; assumption].
    destruct (Num.ge _ _); [|split; assumption].
    cbn [now faces clock reading ticks]. split; [assumption|].
    destruct (get_in _ _ _ Hget) as [k' Hin].
    pose proof (proj1 (Forall_forall _ _) Hf _ Hin) as [H1 H2].
    cbn [snd] in H1, H2.
    apply Forall_set.
    + apply settled_weaken with (ticks (clock w)); [lia | assumption].
    + cbn [snd touch createdAt lastUsed]. rewrite Hr. split.
      * apply H2. lia.
      * intros j Hj. apply H2. lia.
  - split; [assumption|]. now apply Forall_delete.
Qed.

Lemma run_keeps_settled (c : Clock) (calls : list Calls.call) (w : World) :
  Timeline.monotone c -> Timeline.settled c w ->
  Timeline.settled c (fold_left Calls.step calls w).
Proof.
  intros Hmono. revert w.
  induction calls as [|k calls IH]; intros w Hw; simpl; [assumption|].
  apply IH. now apply step_keeps_settled.
Qed.

End Timestamps.

(** X20: with a clock that never runs backwards, after any sequence of
    calls every record of the store was created no later than it was last
    used. *)
Theorem timestamps_ordered (c : Clock) (calls : list Calls.call) :
  Timeline.monotone c -> Timeline.ordered (Calls.run c calls).
Proof.
  intros Hmono.
  assert (H : Timeline.settled c (Calls.run c calls)).
  { apply run_keeps_settled; [assumption|]. split; [reflexivity | constructor]. }
  destruct H as [_ H]. unfold Timeline.ordered.
  revert H. apply Forall_impl. intros e [H1 _]. exact H1.
Qed.

Lemma timestamps_ordered_witness :
  Timeline.ordered
    (Calls.run Sample.clock
       [Calls.Save "joao" "a52685bd" [];
        Calls.Validate "joao" "a52685bd" None;
        Calls.Save "maria" "a52685bf" []]).
Proof.
  apply (timestamps_ordered Sample.clock).
  intros i j Hij. simpl. lia.
Defined.

(* ================================================================== *)
(** * The MongoDB store in full *)
(* ================================================================== *)

Section MongoLaws.

Import MongoDBFaceDatabase.

Lemma findOne_upsert (doc : UserDoc) (ds : list UserDoc) :
  findOne (userId doc) (upsert doc ds) = Some doc.
Proof.
  unfold findOne. induction ds as [|d ds IH]; simpl.
  - now rewrite String.eqb_refl.
  - destruct (String.eqb (userId d) (userId doc)) eqn:E; simpl.
    + now rewrite String.eqb_refl.
    + now rewrite E.
Qed.

Lemma in_userIds_upsert (doc : UserDoc) (ds : list UserDoc) (x : string) :
  In x (List.map userId (upsert doc ds)) ->
  x = userId doc \/ In x (List.map userId ds).
Proof.
  induction ds as [|d ds IH]; simpl.
  - intros [<-|[]]. now left.
  - destruct (String.eqb_spec (userId d) (userId doc)) as [E|E]; simpl.
    + intros [<-|H]; auto.
    + intros [<-|H]; auto. destruct (IH H); auto.
Qed.

Lemma NoDup_upsert (doc : UserDoc) (ds : list UserDoc) :
  NoDup (List.map userId ds) -> NoDup (List.map userId (upsert doc ds)).
Proof.
  induction ds as [|d ds IH]; simpl; intros H.
  - repeat constructor. intros [].
  - inversion H as [|? ? Hn Hd]; subst.
    destruct (String.eqb_spec (userId d) (userId doc)) as [E|E]; simpl.
    + constructor; [now rewrite <- E | assumption].
    + constructor; [|now apply IH].
      intros Hin. apply in_userIds_upsert in Hin. destruct Hin; auto.
Qed.

Lemma userIds_set_used (u : string) (t1 t2 : timestamp) (ds : list UserDoc) :
  List.map userId (set_used u t1 t2 ds) = List.map userId ds.
Proof.
  induction ds as [|d ds IH]; simpl; [reflexivity|].
  destruct (String.eqb (userId d) u); simpl; [reflexivity | now rewrite IH].
Qed.

Lemma in_userIds_deleteOne (u x : string) (ds : list UserDoc) :
  In x (List.map userId (deleteOne u ds)) -> In x (List.map userId ds).
Proof.
  induction ds as [|d ds IH]; simpl; [auto|].
  destruct (String.eqb (userId d) u); simpl; intuition.
Qed.

Lemma NoDup_deleteOne (u : string) (ds : list UserDoc) :
  NoDup (List.map userId ds) -> NoDup (List.map userId (deleteOne u ds)).
Proof.
  induction ds as [|d ds IH]; simpl; intros H; [constructor|].
  inversion H as [|? ? Hn Hd]; subst.
  destruct (String.eqb (userId d) u); simpl; [assumption|].
  constructor; [|now apply IH].
  intros Hin. apply Hn. now apply in_userIds_deleteOne in Hin.
Qed.

Lemma findOne_in (u : string) (d : UserDoc) (ds : list UserDoc) :
  findOne u ds = Some d -> In u (List.map userId ds).
Proof.
  unfold findOne. intros H. apply find_some in H. destruct H as [Hin E].
  apply String.eqb_eq in E. subst u. now apply in_map.
Qed.

Lemma findOne_deleteOne (u : string) (ds : list UserDoc) :
  NoDup (List.map userId ds) -> findOne u (deleteOne u ds) = None.
Proof.
  induction ds as [|d ds IH]; simpl; intros H; [reflexivity|].
  inversion H as [|? ? Hn Hd]; subst.
  destruct (String.eqb_spec (userId d) u) as [E|E].
  - destruct (findOne u ds) as [d'|] eqn:F; [|reflexivity].
    exfalso. apply Hn. rewrite E. now apply findOne_in in F.
  - unfold findOne in *. simpl.
    destruct (String.eqb_spec (userId d) u); [contradiction|]. now apply IH.
Qed.

(** The documents a call leaves behind. *)
Lemma docs_after_save (u h : string) (m : object) (w : World) :
  fault w = None ->
  exists d,
    saveFaceHash u h m w
    = (Return d,
       {| docs := upsert d (docs w); fault := None;
          clock := {| reading := reading (clock w);
                      ticks := S (S (S (ticks (clock w)))) |} |})
    /\ userId d = u /\ hash d = h /\ metadata d = m.
Proof.
  intros Hf. unfold saveFaceHash, Outcome.bind, tick, driver, with_docs, now.
  cbn [fault docs clock reading ticks fst snd]. rewrite Hf.
  eexists. split; [reflexivity|]. repeat split.
Qed.

Lemma set_used_frame (u : string) (t1 t2 : timestamp) (ds : list UserDoc) :
  Forall2 (MongoCalls.only_used_of u) ds (set_used u t1 t2 ds).
Proof.
  assert (Hrefl : forall l : list UserDoc,
             Forall2 (MongoCalls.only_used_of u) l l).
  { induction l; constructor; [|assumption]. repeat split. }
  induction ds as [|d ds IH]; simpl; [constructor|].
  destruct (String.eqb_spec (userId d) u) as [E|E].
  - constructor; [|apply Hrefl]. split; [repeat split|].
    intros Hne. contradiction.
  - constructor; [|assumption]. repeat split.
Qed.

Lemma step_keeps_userIds_distinct (w : World) (k : MongoCalls.call) :
  NoDup (MongoCalls.userIds w) -> NoDup (MongoCalls.userIds (MongoCalls.step w k)).
Proof.
  unfold MongoCalls.userIds. intros H.
  destruct k as [u h m|u|u h t| |u|h t|f]; cbn [MongoCalls.step].
  - unfold saveFaceHash, Outcome.bind, tick, driver, with_docs, now.
    cbn [fault docs clock reading ticks fst snd].
    destruct (fault w); cbn [snd docs]; [assumption|].
    now apply NoDup_upsert.
  - unfold getFaceHash, driver. destruct (fault w); assumption.
  - unfold validateFaceHash, getFaceHash, Outcome.bind, Outcome.ret, tick,
      driver, with_docs, now.
    destruct (fault w) eqn:Hf; cbn [snd]; [assumption|].
    destruct (findOne u (docs w)); cbn [snd]; [|assumption].
    destruct (Num.ge _ _); cbn [fault docs clock snd fst]; [|assumption].
    rewrite Hf. cbn [snd docs]. now rewrite userIds_set_used.
  - unfold listUsers, driver. destruct (fault w); assumption.
  - unfold removeUser, driver, with_docs.
    destruct (fault w); cbn [snd docs]; [assumption|].
    now apply NoDup_deleteOne.
  - unfold findUserByHash, Outcome.bind, Outcome.ret, driver.
    destruct (fault w); assumption.
  - assumption.
Qed.

Lemma run_keeps_userIds_distinct (calls : list MongoCalls.call) (w : World) :
  NoDup (MongoCalls.userIds w) ->
  NoDup (MongoCalls.userIds (fold_left MongoCalls.step calls w)).
Proof.
  revert w. induction calls as [|k calls IH]; intros w H; simpl; [assumption|].
  apply IH. now apply step_keeps_userIds_distinct.
Qed.

End MongoLaws.

(** X21: after any sequence of calls on the MongoDB store, with outages
    of the storage layer in between, the collection holds at most one
    document per identifier.  While the storage layer is within reach,
    saving and then reading an identifier returns the document just saved,
    and removing and then reading it returns null. *)
Theorem mongo_one_document_per_user (c : Clock) (calls : list MongoCalls.call) :
  let w := MongoCalls.run c calls in
  NoDup (MongoCalls.userIds w)
  /\ (MongoDBFaceDatabase.fault w = None ->
      forall u h m,
        let saved := MongoDBFaceDatabase.saveFaceHash u h m w in
        exists d,
          fst saved = Return d
          /\ MongoDBFaceDatabase.userId d = u
          /\ MongoDBFaceDatabase.hash d = h
          /\ MongoDBFaceDatabase.metadata d = m
          /\ fst (MongoDBFaceDatabase.getFaceHash u (snd saved))
             = Return (Some d)
          /\ NoDup (MongoCalls.userIds (snd saved)))
  /\ (MongoDBFaceDatabase.fault w = None ->
      forall u,
        fst (MongoDBFaceDatabase.getFaceHash u
               (snd (MongoDBFaceDatabase.removeUser u w)))
        = Return None).
Proof.
  intros w.
  assert (Hnd : NoDup (MongoCalls.userIds w)).
  { apply run_keeps_userIds_distinct. constructor. }
  split; [exact Hnd|]. split.
  - intros Hf u h m saved. subst saved.
    destruct (docs_after_save u h m w Hf) as (d & -> & Hu & Hh & Hm).
    exists d. cbn [fst snd]. repeat split; try assumption.
    + unfold MongoDBFaceDatabase.getFaceHash, MongoDBFaceDatabase.driver.
      cbn [MongoDBFaceDatabase.fault MongoDBFaceDatabase.docs fst].
      rewrite <- Hu. now rewrite findOne_upsert.
    + unfold MongoCalls.userIds. cbn [MongoDBFaceDatabase.docs].
      now apply NoDup_upsert.
  - intros Hf u.
    unfold MongoDBFaceDatabase.removeUser, MongoDBFaceDatabase.getFaceHash,
      MongoDBFaceDatabase.driver, MongoDBFaceDatabase.with_docs.
    rewrite Hf. cbn [snd MongoDBFaceDatabase.fault MongoDBFaceDatabase.docs].
    cbn [fst]. now rewrite findOne_deleteOne.
Qed.

(** X22: on a MongoDB store within reach, [validateFaceHash] answers
    valid exactly when a document is found for the identifier and its
    digest reaches the threshold against the input (the threshold the
    caller passes, or 0.8 when none is passed); an answer that is not
    valid leaves the store as it was, and a valid one changes, document by
    document, nothing but [lastUsed] and [updatedAt] of the documents of
    that identifier. *)
Theorem mongo_validateFaceHash_frame (w : MongoDBFaceDatabase.World)
  (u h : string) (t : option number) :
  MongoDBFaceDatabase.fault w = None ->
  let res := MongoDBFaceDatabase.validateFaceHash u h t w in
  exists v,
    fst res = Return v
    /\ (valid v = true <->
        exists d, MongoDBFaceDatabase.findOne u (MongoDBFaceDatabase.docs w)
                  = Some d
                  /\ Num.ge (MongoDBFaceDatabase.compareHashes
                               (MongoDBFaceDatabase.hash d) h)
                            (match t with
                             | Some x => x
                             | None => Fin (Num.fl (8 # 10))
                             end) = true)
    /\ (valid v = false -> snd res = w)
    /\ Forall2 (MongoCalls.only_used_of u)
         (MongoDBFaceDatabase.docs w) (MongoDBFaceDatabase.docs (snd res)).
Proof.
  intros Hf res. subst res.
  assert (Hrefl : forall l : list MongoDBFaceDatabase.UserDoc,
             Forall2 (MongoCalls.only_used_of u) l l).
  { induction l; constructor; [|assumption]. repeat split. }
  unfold MongoDBFaceDatabase.validateFaceHash, MongoDBFaceDatabase.getFaceHash,
    Outcome.bind, Outcome.ret, MongoDBFaceDatabase.tick,
    MongoDBFaceDatabase.driver, MongoDBFaceDatabase.with_docs, now.
  rewrite Hf.
  change (or_default t)
    with (match t with Some x => x | None => Fin (Num.fl (8 # 10)) end).
  destruct (MongoDBFaceDatabase.findOne u (MongoDBFaceDatabase.docs w))
    as [d|] eqn:Hfind.
  - destruct (Num.ge (MongoDBFaceDatabase.compareHashes
                        (MongoDBFaceDatabase.hash d) h)
                     (match t with
                      | Some x => x
                      | None => Fin (Num.fl (8 # 10))
                      end)) eqn:Hge;
      cbn [MongoDBFaceDatabase.fault MongoDBFaceDatabase.docs
           MongoDBFaceDatabase.clock fst snd].
    + rewrite Hf. cbn [fst snd MongoDBFaceDatabase.docs].
      eexists. split; [reflexivity|]. cbn [valid].
      split; [split; [intros _; exists d; auto | reflexivity]|].
      split; [discriminate|]. apply set_used_frame.
    + eexists. split; [reflexivity|]. cbn [valid].
      split; [split; [discriminate | intros (d' & [= <-] & Hd'); congruence]|].
      split; [reflexivity | apply Hrefl].
  - cbn [fst snd]. eexists. split; [reflexivity|]. cbn [valid].
    split; [split; [discriminate | intros (d' & Hd' & _); discriminate]|].
    split; [reflexivity | apply Hrefl].
Qed.

Lemma mongo_validateFaceHash_frame_witness :
  exists v,
    fst (MongoDBFaceDatabase.validateFaceHash "maria" "a52685bf" None
           Sample.mongo) = Return v
    /\ Forall2 (MongoCalls.only_used_of "maria")
         (MongoDBFaceDatabase.docs Sample.mongo)
         (MongoDBFaceDatabase.docs
            (snd (MongoDBFaceDatabase.validateFaceHash "maria" "a52685bf" None
                    Sample.mongo))).
Proof.
  destruct (mongo_validateFaceHash_frame Sample.mongo "maria" "a52685bf" None
              eq_refl) as (v & Hv & _ & _ & Hframe).
  exists v. split; [exact Hv | exact Hframe].
Defined.

(* ================================================================== *)
(** * The demonstration *)
(* ================================================================== *)

Section Steps.

Import FaceDatabase.

Context {api : FaceApi}.

(** A registration that finds a face, as one step on the store. *)
Lemma registerUser_ok (u p : string) (m : object) (img : Image)
  (det : Detection) (w : World) :
  loadImage p = Return img ->
  detectSingleFace img = Return (Some det) ->
  FaceValidationSystem.registerUser u p m w
  = (Return
       {| userId := u;
          hash := FaceValidationSystem.generateValidationHash (descriptor det);
          metadata := with_detection m (of_nat (List.length (descriptor det)))
                        (score det);
          createdAt := reading (clock w) (ticks (clock w));
          lastUsed := reading (clock w) (S (ticks (clock w))) |},
     {| faces :=
          JSMap.set u
            {| userId := u;
               hash := FaceValidationSystem.generateValidationHash
                         (descriptor det);
               metadata := with_detection m
                             (of_nat (List.length (descriptor det))) (score det);
               createdAt := reading (clock w) (ticks (clock w));
               lastUsed := reading (clock w) (S (ticks (clock w))) |}
            (faces w);
        clock := {| reading := reading (clock w);
                    ticks := S (S (ticks (clock w))) |} |}).
Proof.
  intros Hload Hdetect.
  unfold FaceValidationSystem.registerUser, Outcome.bind, Outcome.pure_call.
  rewrite Hload, Hdetect. reflexivity.
Qed.

Lemma ge_one_default : Num.ge (of_Z 1) (or_default None) = true.
Proof. reflexivity. Qed.

(** A validation with the image the record was registered from. *)
Lemma validateUser_ok (u p : string) (img : Image) (det : Detection)
  (w : World) (r : FaceRecord) :
  loadImage p = Return img ->
  detectSingleFace img = Return (Some det) ->
  JSMap.get u (faces w) = Some r ->
  hash r = FaceValidationSystem.generateValidationHash (descriptor det) ->
  FaceValidationSystem.validateUser u p w
  = (Return {| valid := true; similarity := Some (of_Z 1);
               threshold := Some default_threshold; reason := reason_valid |},
     {| faces := JSMap.set u (touch r (reading (clock w) (ticks (clock w))))
                   (faces w);
        clock := {| reading := reading (clock w);
                    ticks := S (ticks (clock w)) |} |}).
Proof.
  intros Hload Hdetect Hget Hhash.
  unfold FaceValidationSystem.validateUser, Outcome.bind, Outcome.pure_call.
  rewrite Hload, Hdetect.
  unfold validateFaceHash. rewrite Hget, Hhash.
  unfold compareHashes, FaceHashGenerator.compareHashes.
  rewrite compareHashes_run_self.
  - cbn [fst]. rewrite ge_one_default. reflexivity.
  - unfold FaceValidationSystem.generateValidationHash,
      FaceValidationSystem.generateSHA256Hash.
    rewrite sha256_hex_length. discriminate.
Qed.

Lemma validateUser_missing (u p : string) (img : Image) (det : Detection)
  (w : World) :
  loadImage p = Return img ->
  detectSingleFace img = Return (Some det) ->
  JSMap.get u (faces w) = None ->
  FaceValidationSystem.validateUser u p w
  = (Return {| valid := false; similarity := None; threshold := None;
               reason := reason_not_found |}, w).
Proof.
  intros Hload Hdetect Hget.
  unfold FaceValidationSystem.validateUser, Outcome.bind, Outcome.pure_call.
  rewrite Hload, Hdetect.
  unfold validateFaceHash. now rewrite Hget.
Qed.

End Steps.

(** X23: when the models load and the detector finds a face in both
    images, the demonstration ends normally with exactly one user left,
    'joao', whose record carries the digest of the first image, the
    creation time of the first reading of the clock and the time of its
    validation, the fifth reading; six readings have been taken. *)
Theorem demonstrateSystem_end_state {api : FaceApi} (c : Clock)
  (i1 i2 : Image) (d1 d2 : Detection) :
  loadImage "../images/bbt1.jpg" = Return i1 ->
  detectSingleFace i1 = Return (Some d1) ->
  loadImage "../images/bbt2.jpg" = Return i2 ->
  detectSingleFace i2 = Return (Some d2) ->
  exists w r,
    Demonstration.demonstrateSystem (Return tt) c = (Return tt, Some w)
    /\ FaceDatabase.faces w = [("joao"%string, r)]
    /\ FaceDatabase.hash r
       = FaceValidationSystem.generateSHA256Hash (descriptor d1)
    /\ FaceDatabase.createdAt r = reading c (ticks c)
    /\ FaceDatabase.lastUsed r = reading c (4 + ticks c)
    /\ ticks (FaceDatabase.clock w) = (6 + ticks c)%nat.
Proof.
  intros H1 D1 H2 D2.
  unfold Demonstration.demonstrateSystem, Demonstration.script,
    Demonstration.call, Outcome.bind, Outcome.ret.
  rewrite (registerUser_ok "joao" _ _ i1 d1 _ H1 D1). cbv beta iota.
  rewrite (registerUser_ok "maria" _ _ i2 d2 _ H2 D2). cbv beta iota.
  cbn [FaceDatabase.create FaceDatabase.faces FaceDatabase.clock JSMap.empty
       reading ticks JSMap.set String.eqb Ascii.eqb Bool.eqb].
  erewrite (validateUser_ok "joao" _ i1 d1 _ _ H1 D1);
    [| reflexivity | reflexivity].
  cbv beta iota.
  cbn [FaceDatabase.faces FaceDatabase.clock reading ticks JSMap.set
       String.eqb Ascii.eqb Bool.eqb].
  erewrite (validateUser_ok "maria" _ i2 d2 _ _ H2 D2);
    [| reflexivity | reflexivity].
  cbv beta iota.
  cbn [FaceDatabase.faces FaceDatabase.clock reading ticks JSMap.set
       String.eqb Ascii.eqb Bool.eqb].
  rewrite (validateUser_missing "pedro" _ i1 d1 _ H1 D1) by reflexivity.
  cbv beta iota.
  unfold FaceValidationSystem.removeUser, FaceDatabase.removeUser.
  cbn [snd FaceDatabase.faces FaceDatabase.clock JSMap.delete
       String.eqb Ascii.eqb Bool.eqb].
  do 2 eexists. split; [reflexivity|].
  cbn [FaceDatabase.faces FaceDatabase.clock ticks].
  split; [reflexivity|]. repeat split.
Qed.

Lemma demonstrateSystem_end_state_witness :
  exists w r,
    Demonstration.demonstrateSystem (api := Demonstration.two_faces)
      (Return tt) Sample.clock = (Return tt, Some w)
    /\ FaceDatabase.faces w = [("joao"%string, r)]
    /\ FaceDatabase.lastUsed r = 4%Z.
Proof.
  destruct (demonstrateSystem_end_state (api := Demonstration.two_faces)
              Sample.clock "../images/bbt1.jpg"%string
              "../images/bbt2.jpg"%string
              {| descriptor := FaceHashGenerator.example_descriptor;
                 score := Fin (fl (95 # 100)) |}
              {| descriptor := [of_Z 1; of_Z 2]; score := Fin (fl (9 # 10)) |}
              eq_refl eq_refl eq_refl eq_refl)
    as (w & r & Hw & Hf & _ & _ & Hl & _).
  exists w, r. split; [exact Hw|]. split; [exact Hf | exact Hl].
Defined.

(** X24: when the detector finds a face in the first image and none in
    the second, the demonstration still ends normally: the error of the
    second registration ends the block, so the first user stays registered
    and is never validated, and nothing after that step runs (two readings
    of the clock, no removal). *)
Theorem demonstrateSystem_stops_at_error {api : FaceApi} (c : Clock)
  (i1 i2 : Image) (d1 : Detection) :
  loadImage "../images/bbt1.jpg" = Return i1 ->
  detectSingleFace i1 = Return (Some d1) ->
  loadImage "../images/bbt2.jpg" = Return i2 ->
  detectSingleFace i2 = Return None ->
  exists w r,
    Demonstration.demonstrateSystem (Return tt) c = (Return tt, Some w)
    /\ FaceDatabase.faces w = [("joao"%string, r)]
    /\ FaceDatabase.createdAt r = reading c (ticks c)
    /\ FaceDatabase.lastUsed r = reading c (1 + ticks c)
    /\ ticks (FaceDatabase.clock w) = (2 + ticks c)%nat.
Proof.
  intros H1 D1 H2 D2.
  unfold Demonstration.demonstrateSystem, Demonstration.script,
    Demonstration.call, Outcome.bind, Outcome.ret.
  rewrite (registerUser_ok "joao" _ _ i1 d1 _ H1 D1). cbv beta iota.
  unfold FaceValidationSystem.registerUser at 1.
  unfold Outcome.bind, Outcome.pure_call, Outcome.throw.
  rewrite H2, D2. cbv beta iota.
  do 2 eexists. split; [reflexivity|].
  cbn [snd FaceDatabase.create FaceDatabase.faces FaceDatabase.clock
       JSMap.empty JSMap.set ticks reading].
  split; [reflexivity|]. repeat split.
Qed.

Lemma demonstrateSystem_stops_at_error_witness :
  exists w r,
    Demonstration.demonstrateSystem (api := Sample.api)
      (Return tt) Sample.clock = (Return tt, Some w)
    /\ FaceDatabase.faces w = [("joao"%string, r)]
    /\ FaceDatabase.lastUsed r = 1%Z.
Proof.
  destruct (demonstrateSystem_stops_at_error (api := Sample.api)
              Sample.clock "../images/bbt1.jpg"%string
              "../images/bbt2.jpg"%string
              {| descriptor := FaceHashGenerator.example_descriptor;
                 score := Fin (fl (95 # 100)) |}
              eq_refl eq_refl eq_refl eq_refl)
    as (w & r & Hw & Hf & _ & Hl & _).
  exists w, r. split; [exact Hw|]. split; [exact Hf | exact Hl].
Defined.

(* ================================================================== *)
(** * Recognition after registration, and the sizes of the digests *)
(* ================================================================== *)

Section RecognitionAfter.

Import MongoDBFaceDatabase.

Lemma in_upsert (doc : UserDoc) (ds : list UserDoc) : In doc (upsert doc ds).
Proof.
  pose proof (findOne_upsert doc ds) as H. unfold findOne in H.
  now apply find_some in H.
Qed.

(** A document that reaches the threshold makes the loop return a
    match that reaches it. *)
Lemma scan_hit (users : list UserDoc) (d : UserDoc) (h : string) (t : number) :
  In d users ->
  Num.ge (compareHashes (hash d) h) t = true ->
  exists mt, scan users h t = Some mt
             /\ Num.ge (match_similarity mt) t = true.
Proof.
  intros Hin Hge.
  destruct (scan_first_match users h t)
    as [(pre & user & post & _ & _ & Hu & ->)|[Hall _]].
  - eexists. split; [reflexivity | exact Hu].
  - exfalso. rewrite Forall_forall in Hall.
    specialize (Hall d Hin). cbv beta in Hall. congruence.
Qed.

End RecognitionAfter.

(** X25: on a MongoDB store within reach, a registration that finds a
    face followed by a recognition from the same image never answers
    null: it returns a user whose similarity reaches 0.8 (the first such
    document of the collection, which need not be the user just
    registered). *)
Theorem recognize_after_register {api : FaceApi} (u p : string) (m : object)
  (img : Image) (det : Detection) (w : MongoDBFaceDatabase.World) :
  loadImage p = Return img ->
  detectSingleFace img = Return (Some det) ->
  MongoDBFaceDatabase.fault w = None ->
  let w1 := snd (MongoDBFaceValidationSystem.registerUser u p m w) in
  exists mt,
    fst (MongoDBFaceValidationSystem.recognizeUser p w1) = Return (Some mt)
    /\ Num.ge (MongoDBFaceDatabase.match_similarity mt) default_threshold
       = true.
Proof.
  intros Hload Hdetect Hf w1. subst w1.
  unfold MongoDBFaceValidationSystem.registerUser,
    MongoDBFaceValidationSystem.recognizeUser, Outcome.bind, Outcome.pure_call.
  rewrite Hload, Hdetect.
  destruct (docs_after_save u
              (FaceValidationSystem.generateValidationHash (descriptor det))
              (with_detection m (of_nat (List.length (descriptor det)))
                 (score det)) w Hf) as (d & -> & _ & Hh & _).
  cbn [snd].
  unfold MongoDBFaceDatabase.findUserByHash, Outcome.bind, Outcome.ret,
    MongoDBFaceDatabase.driver.
  cbn [MongoDBFaceDatabase.fault MongoDBFaceDatabase.docs fst or_default].
  destruct (scan_hit (MongoDBFaceDatabase.upsert d (MongoDBFaceDatabase.docs w))
              d (FaceValidationSystem.generateValidationHash (descriptor det))
              default_threshold (in_upsert d _)) as (mt & -> & Hmt).
  - rewrite Hh.
    unfold MongoDBFaceDatabase.compareHashes, FaceHashGenerator.compareHashes.
    rewrite compareHashes_run_self; [reflexivity|].
    unfold FaceValidationSystem.generateValidationHash,
      FaceValidationSystem.generateSHA256Hash.
    rewrite sha256_hex_length. discriminate.
  - exists mt. auto.
Qed.

Lemma recognize_after_register_witness :
  exists mt,
    fst (MongoDBFaceValidationSystem.recognizeUser (api := Sample.api)
           "../images/bbt1.jpg"
           (snd (MongoDBFaceValidationSystem.registerUser (api := Sample.api)
                   "pedro" "../images/bbt1.jpg" [] Sample.mongo)))
    = Return (Some mt)
    /\ Num.ge (MongoDBFaceDatabase.match_similarity mt) default_threshold
       = true.
Proof.
  exact (recognize_after_register (api := Sample.api)
           "pedro" "../images/bbt1.jpg" [] "../images/bbt1.jpg"%string
           {| descriptor := FaceHashGenerator.example_descriptor;
              score := Fin (fl (95 # 100)) |}
           Sample.mongo eq_refl eq_refl eq_refl).
Defined.

Section Sizes.

Import FaceHashGenerator.

Local Open Scope nat_scope.

Lemma additional_fold_length (l : list number) (acc : string) :
  String.length acc + 2 * List.length l
  <= String.length (fold_left additional_step l acc).
Proof.
  revert acc. induction l as [|x l IH]; intros acc; [simpl; lia|].
  rewrite fold_left_cons. specialize (IH (additional_step acc x)).
  unfold additional_step in IH at 1. rewrite append_length in IH.
  pose proof (padStart_at_least
                (Str.toString16
                   (Num.rem (Num.abs (Num.mul x (of_Z 1000))) (of_Z 256)))
                2 "0").
  cbn [List.length]. lia.
Qed.

Lemma generateHexHash_at_least (d : Float32Array) :
  4 * List.length d <= String.length (generateHexHash d).
Proof.
  unfold generateHexHash, Str.join.
  induction d as [|x d IH]; [simpl; lia|].
  cbn [List.map List.length].
  rewrite concat_empty_cons, append_length.
  pose proof (padStart_at_least
                (Str.toString16 (Num.abs (Num.mul x (of_Z 1000)))) 4 "0").
  lia.
Qed.

End Sizes.

(** X26: the simple digest has at least 8 characters and two more for
    each of the first sixteen values of the descriptor, and the hex digest
    has at least four characters for every value. *)
Theorem digest_sizes (d : FaceHashGenerator.Float32Array) :
  (8 + 2 * Nat.min 16 (List.length d)
   <= String.length (FaceHashGenerator.generateSimpleHash d))%nat
  /\ (4 * List.length d
      <= String.length (FaceHashGenerator.generateHexHash d))%nat.
Proof.
  split; [|apply generateHexHash_at_least].
  unfold FaceHashGenerator.generateSimpleHash.
  rewrite append_length, hexHash_length.
  unfold FaceHashGenerator.additionalHash.
  pose proof (additional_fold_length (firstn 16 d) "") as H.
  rewrite length_firstn in H.
  change (String.length "") with 0%nat in H. lia.
Qed.
